(** * Windows toolchain cache: hashing, sidecar validation and eviction

    A shallow embedding of
    [depot_tools/win_toolchain/get_toolchain_if_necessary.py]
    (GetFileList, MakeTimestampsFileName, CalculateHash,
    CalculateToolchainHashes, SaveTimestampsAndHash, RemoveToolchain,
    RemoveUnusedToolchains and main) together with the properties of the
    content hash, of the timestamps sidecar and of the eviction policy.

    Python byte strings are [string]; modification times and clock
    readings, which Python holds as floats, are rationals ([Q]) compared
    exactly.  The file system follows Windows conventions, for which the
    script is written: the separator is the backslash, the slash is accepted
    as a separator, and names are matched without regard to case. *)

From stdpp Require Import base option list strings gmap pretty sorting.
From Stdlib Require Import ZArith QArith Lia Lqa Ascii.
From Stdlib Require OrderedTypeEx.

Local Open Scope string_scope.
Local Open Scope list_scope.

(** ** Byte strings *)

Module Str.

Definition backslash : ascii := "\"%char.
Definition slash : ascii := "/"%char.

Definition is_sep (c : ascii) : bool :=
  Ascii.eqb c backslash || Ascii.eqb c slash.

(** [c.lower()] on one byte: only [A-Z] move. *)
Definition lower_char (c : ascii) : ascii :=
  let n := nat_of_ascii c in
  if (65 <=? n)%nat && (n <=? 90)%nat then ascii_of_nat (n + 32) else c.

(** [s.lower()] *)
Fixpoint lower (s : string) : string :=
  match s with
  | EmptyString => EmptyString
  | String c s' => String (lower_char c) (lower s')
  end.

(** [s.replace('/', '\\')] *)
Fixpoint backslashes (s : string) : string :=
  match s with
  | EmptyString => EmptyString
  | String c s' =>
      String (if Ascii.eqb c slash then backslash else c) (backslashes s')
  end.

(** [s.startswith(p)] *)
Fixpoint startswith (p s : string) : bool :=
  match p, s with
  | EmptyString, _ => true
  | String _ _, EmptyString => false
  | String a p', String b s' => Ascii.eqb a b && startswith p' s'
  end.

(** [p in s] *)
Fixpoint contains (p s : string) : bool :=
  startswith p s ||
  match s with
  | EmptyString => false
  | String _ s' => contains p s'
  end.

(** The scan of [s.replace(old, new)] for a non-empty [old]: occurrences
    are taken from left to right and do not overlap; [skip] counts the
    bytes of the current occurrence still to be passed over. *)
Fixpoint replace_scan (old new : string) (skip : nat) (s : string) : string :=
  match s with
  | EmptyString => EmptyString
  | String c s' =>
      match skip with
      | S k => replace_scan old new k s'
      | O =>
          if startswith old s
          then new +:+ replace_scan old new (String.length old - 1) s'
          else String c (replace_scan old new 0 s')
      end
  end.

(** With an empty [old], Python puts [new] before every byte and at the
    end. *)
Fixpoint intersperse (new s : string) : string :=
  match s with
  | EmptyString => new
  | String c s' => new +:+ String c (intersperse new s')
  end.

(** [s.replace(old, new)] *)
Definition replace (old new s : string) : string :=
  match old with
  | EmptyString => intersperse new s
  | String _ _ => replace_scan old new 0 s
  end.

(** [c.upper()] on one byte. *)
Definition upper_char (c : ascii) : ascii :=
  let n := nat_of_ascii c in
  if (97 <=? n)%nat && (n <=? 122)%nat then ascii_of_nat (n - 32) else c.

(** [s.upper()] *)
Fixpoint upper (s : string) : string :=
  match s with
  | EmptyString => EmptyString
  | String c s' => String (upper_char c) (upper s')
  end.

(** The bytes [s.strip()] removes: space, tab, newline, vertical tab,
    form feed, carriage return. *)
Definition is_space (c : ascii) : bool :=
  let n := nat_of_ascii c in
  (n =? 32)%nat || ((9 <=? n)%nat && (n <=? 13)%nat).

Fixpoint lstrip (s : string) : string :=
  match s with
  | String c s' => if is_space c then lstrip s' else s
  | EmptyString => EmptyString
  end.

Fixpoint rstrip (s : string) : string :=
  match s with
  | EmptyString => EmptyString
  | String c s' =>
      match rstrip s' with
      | EmptyString => if is_space c then EmptyString else String c EmptyString
      | r => String c r
      end
  end.

(** [s.strip()] *)
Definition strip (s : string) : string := rstrip (lstrip s).

(** Last byte of a string, if any. *)
Fixpoint last (s : string) : option ascii :=
  match s with
  | EmptyString => None
  | String c EmptyString => Some c
  | String _ s' => last s'
  end.

(** [', '.join(l)] and friends. *)
Fixpoint concat_with (sep : string) (l : list string) : string :=
  match l with
  | [] => ""
  | [x] => x
  | x :: l' => x +:+ sep +:+ concat_with sep l'
  end.

(** [sorted(l, key=key)]: Python's sort is stable, so the result is the
    stable insertion of every element in turn. *)
Section Sorted.
Context (key : string → string).

Fixpoint insert_sorted (x : string) (l : list string) : list string :=
  match l with
  | [] => [x]
  | y :: l' =>
      if String.leb (key x) (key y) then x :: y :: l'
      else y :: insert_sorted x l'
  end.

Definition sorted (l : list string) : list string :=
  foldr insert_sorted [] l.
End Sorted.

End Str.

(** ** SHA-1 ([hashlib.sha1]) *)

Module Sha1.
Local Open Scope Z_scope.

Definition w32 (x : Z) : Z := x mod 2 ^ 32.
Definition rotl (n x : Z) : Z :=
  w32 (Z.lor (Z.shiftl x n) (Z.shiftr x (32 - n))).
Definition add32 (x y : Z) : Z := w32 (x + y).

Definition bytes_of (s : string) : list Z :=
  map (λ c, Z.of_N (N_of_ascii c)) (String.list_ascii_of_string s).

(** Big-endian bytes of [x], [n] of them. *)
Fixpoint be_bytes (n : nat) (x : Z) : list Z :=
  match n with
  | O => []
  | S k => (Z.shiftr x (8 * Z.of_nat k)) mod 256 :: be_bytes k x
  end.

(** Message padding: a one bit, zeros up to 56 modulo 64, the bit length
    on 8 bytes. *)
Definition pad (msg : list Z) : list Z :=
  let len := Z.of_nat (length msg) in
  let zeros := Z.to_nat ((55 - len) mod 64) in
  msg ++ [128] ++ repeat 0 zeros ++ be_bytes 8 (8 * len).

Fixpoint words_of (fuel : nat) (bs : list Z) : list Z :=
  match fuel, bs with
  | S k, b0 :: b1 :: b2 :: b3 :: bs' =>
      (((b0 * 256 + b1) * 256 + b2) * 256 + b3) :: words_of k bs'
  | _, _ => []
  end.

Definition nthw (l : list Z) (i : nat) : Z := nth i l 0.

(** Message schedule, kept newest first: [sched] holds w[t-1], w[t-2], ... *)
Fixpoint schedule (n : nat) (sched : list Z) : list Z :=
  match n with
  | O => sched
  | S k =>
      let w := rotl 1 (Z.lxor (Z.lxor (nthw sched 2) (nthw sched 7))
                              (Z.lxor (nthw sched 13) (nthw sched 15))) in
      schedule k (w :: sched)
  end.

Definition state : Type := Z * Z * Z * Z * Z.

Definition round (t : nat) (st : state) (w : Z) : state :=
  let '(a, b, c, d, e) := st in
  let '(f, k) :=
    if (t <? 20)%nat then
      (Z.lor (Z.land b c) (Z.land (Z.lxor b 4294967295) d), 1518500249)
    else if (t <? 40)%nat then
      (Z.lxor (Z.lxor b c) d, 1859775393)
    else if (t <? 60)%nat then
      (Z.lor (Z.lor (Z.land b c) (Z.land b d)) (Z.land c d), 2400959708)
    else
      (Z.lxor (Z.lxor b c) d, 3395469782) in
  let tmp := add32 (add32 (add32 (add32 (rotl 5 a) f) e) k) w in
  (tmp, a, rotl 30 b, c, d).

Fixpoint rounds (t : nat) (st : state) (ws : list Z) : state :=
  match ws with
  | [] => st
  | w :: ws' => rounds (S t) (round t st w) ws'
  end.

Definition compress (st : state) (block : list Z) : state :=
  let ws := rev (schedule 64 (rev block)) in
  let '(a, b, c, d, e) := st in
  let '(a', b', c', d', e') := rounds 0 st ws in
  (add32 a a', add32 b b', add32 c c', add32 d d', add32 e e').

Fixpoint blocks (fuel : nat) (st : state) (ws : list Z) : state :=
  match fuel with
  | O => st
  | S k =>
      match ws with
      | [] => st
      | _ => blocks k (compress st (take 16 ws)) (drop 16 ws)
      end
  end.

Definition init : state :=
  (1732584193, 4023233417, 2562383102, 271733878, 3285377520).

Definition hex_digit (x : Z) : ascii :=
  ascii_of_nat (Z.to_nat (if x <? 10 then 48 + x else 87 + x)).

Fixpoint hex_word (n : nat) (x : Z) : string :=
  match n with
  | O => ""
  | S k => String (hex_digit ((Z.shiftr x (4 * Z.of_nat k)) mod 16)) (hex_word k x)
  end.

(** [hashlib.sha1(s).hexdigest()] *)
Definition hexdigest (s : string) : string :=
  let bs := pad (bytes_of s) in
  let ws := words_of (length bs) bs in
  let '(a, b, c, d, e) := blocks (length ws) init ws in
  hex_word 8 a +:+ hex_word 8 b +:+ hex_word 8 c +:+ hex_word 8 d +:+ hex_word 8 e.

End Sha1.

(** ** Paths ([os.path] on Windows, drive letters left out) *)

Module Path.
Import Str.

Definition sep : string := "\".
Definition pardir : string := "..".

(** [os.path.isabs(p)] *)
Definition isabs (p : string) : bool :=
  match p with
  | String c _ => is_sep c
  | EmptyString => false
  end.

(** [os.path.join(a, p)]: an absolute [p] replaces [a]; otherwise a
    backslash is put between the two unless [a] is empty or already ends
    with a separator. *)
Definition join (a p : string) : string :=
  if isabs p then p
  else
    match last a with
    | Some c => if is_sep c then a +:+ p else a +:+ sep +:+ p
    | None => p
    end.

(** [p.split('\\')] after [p.replace('/', '\\')]: the components of a
    path, empty ones included. *)
Fixpoint components (p : string) : list string :=
  match p with
  | EmptyString => [""]
  | String c p' =>
      if is_sep c then "" :: components p'
      else
        match components p' with
        | x :: xs => String c x :: xs
        | [] => [String c ""]
        end
  end.

(** The component loop of [os.path.normpath]; [stack] holds the
    components kept so far, last one first. *)
Fixpoint normalize (rooted : bool) (stack comps : list string) : list string :=
  match comps with
  | [] => rev stack
  | c :: comps' =>
      if String.eqb c "." || String.eqb c "" then normalize rooted stack comps'
      else if String.eqb c ".." then
        match stack with
        | top :: stack' =>
            if String.eqb top ".." then normalize rooted (c :: stack) comps'
            else normalize rooted stack' comps'
        | [] =>
            if rooted then normalize rooted stack comps'
            else normalize rooted (c :: stack) comps'
        end
      else normalize rooted (c :: stack) comps'
  end.

Fixpoint leading_seps (p : string) : string * string :=
  match p with
  | String c p' =>
      if is_sep c then
        let '(pre, rest) := leading_seps p' in (String backslash pre, rest)
      else ("", p)
  | EmptyString => ("", "")
  end.

(** [os.path.normpath(p)] *)
Definition normpath (p : string) : string :=
  let '(pre, rest) := leading_seps p in
  let comps := normalize (negb (String.eqb pre "")) [] (components rest) in
  match pre, comps with
  | EmptyString, [] => "."
  | _, _ => pre +:+ concat_with sep comps
  end.

End Path.

(** ** The file system *)

(** Seconds since the epoch. *)
Abbreviation timestamp := Q.

(** A file has a modification time and contents; a directory has a
    modification time and its entries in the order [os.listdir] reports
    them. *)
#[local] Set Warnings "-register-all".
Inductive node : Type :=
| File (mtime : timestamp) (data : string)
| Dir (mtime : timestamp) (entries : list (string * node)).
#[local] Set Warnings "register-all".

Module Fs.

Definition is_dir (n : node) : bool :=
  match n with Dir _ _ => true | File _ _ => false end.

Definition mtime_of (n : node) : timestamp :=
  match n with Dir m _ => m | File m _ => m end.

Definition with_mtime (t : timestamp) (n : node) : node :=
  match n with Dir _ es => Dir t es | File _ d => File t d end.

(** Names are compared without regard to case. *)
Definition same_name (a b : string) : bool :=
  String.eqb (Str.lower a) (Str.lower b).

Fixpoint find_entry (name : string) (es : list (string * node)) : option node :=
  match es with
  | [] => None
  | (n, x) :: es' => if same_name n name then Some x else find_entry name es'
  end.

(** Empty components and [.] stay in place; nothing above the working
    directory is modelled, so [..] does not resolve. *)
Definition stays (c : string) : bool := String.eqb c "" || String.eqb c ".".

Definition step (n : node) (c : string) : option node :=
  if stays c then Some n
  else match n with
       | Dir _ es => find_entry c es
       | File _ _ => None
       end.

Fixpoint descend (n : node) (comps : list string) : option node :=
  match comps with
  | [] => Some n
  | c :: cs =>
      match step n c with
      | Some n' => descend n' cs
      | None => None
      end
  end.

(** The node a path names, from the working directory [t]. *)
Definition resolve (t : node) (p : string) : option node :=
  descend t (Path.components p).

Definition exists_ (t : node) (p : string) : bool :=
  match resolve t p with Some _ => true | None => false end.

Definition isdir (t : node) (p : string) : bool :=
  match resolve t p with Some (Dir _ _) => true | _ => false end.

Definition isfile (t : node) (p : string) : bool :=
  match resolve t p with Some (File _ _) => true | _ => false end.

Definition getmtime (t : node) (p : string) : option timestamp :=
  mtime_of <$> resolve t p.

Definition read (t : node) (p : string) : option string :=
  match resolve t p with Some (File _ d) => Some d | _ => None end.

Definition listdir (t : node) (p : string) : option (list string) :=
  match resolve t p with Some (Dir _ es) => Some (map fst es) | _ => None end.

Definition dir_names (es : list (string * node)) : list string :=
  map fst (List.filter (λ e, is_dir (snd e)) es).

Definition file_names (es : list (string * node)) : list string :=
  map fst (List.filter (λ e, negb (is_dir (snd e))) es).

(** [os.walk(top)], top-down: the triple of a directory, then the walks
    of its sub-directories in listing order. *)
Fixpoint walk (top : string) (n : node) : list (string * list string * list string) :=
  match n with
  | File _ _ => []
  | Dir _ es =>
      (top, dir_names es, file_names es) ::
      flat_map (λ '(name, sub), walk (Path.join top name) sub) es
  end.

Definition os_walk (t : node) (top : string) : list (string * list string * list string) :=
  match resolve t top with
  | Some n => walk top n
  | None => []
  end.

(** *** Updates *)

(** Apply [f] to the first entry called [name]; [f] answering [None]
    deletes the entry. *)
Fixpoint alter_entry (name : string) (f : node → option node)
    (es : list (string * node)) : list (string * node) :=
  match es with
  | [] => []
  | (n, x) :: es' =>
      if same_name n name then
        match f x with
        | Some x' => (n, x') :: es'
        | None => es'
        end
      else (n, x) :: alter_entry name f es'
  end.

Fixpoint alter_at (comps : list string) (f : node → option node) (n : node) : option node :=
  match comps with
  | [] => f n
  | c :: cs =>
      if stays c then alter_at cs f n
      else
        match n with
        | Dir m es => Some (Dir m (alter_entry c (alter_at cs f) es))
        | File _ _ => Some n
        end
  end.

(** Change the node at [p], leaving the tree as it is when [p] does not
    resolve. *)
Definition alter (p : string) (f : node → option node) (t : node) : node :=
  match alter_at (Path.components p) f t with
  | Some t' => t'
  | None => t
  end.

Definition set_mtime (p : string) (m : timestamp) : node → node :=
  alter p (λ n, Some (with_mtime m n)).

Definition remove (p : string) : node → node :=
  alter p (λ _, None).

(** Create or overwrite the file [comps] below [n], making the missing
    directories on the way; [None] when a file stands where a directory
    is needed or a directory where the file should go. *)
Fixpoint put_file (comps : list string) (m : timestamp) (data : string)
    (n : node) : option node :=
  match comps with
  | [] =>
      match n with
      | File _ _ => Some (File m data)
      | Dir _ _ => None
      end
  | c :: cs =>
      if stays c then put_file cs m data n
      else
        match n with
        | File _ _ => None
        | Dir dm es =>
            match find_entry c es with
            | Some x =>
                match put_file cs m data x with
                | Some x' => Some (Dir dm (alter_entry c (λ _, Some x') es))
                | None => None
                end
            | None =>
                match cs with
                | [] => Some (Dir dm (es ++ [(c, File m data)])%list)
                | _ :: _ =>
                    match put_file cs m data (Dir m []) with
                    | Some sub => Some (Dir dm (es ++ [(c, sub)])%list)
                    | None => None
                    end
                end
            end
        end
  end.

(** [os.mkdir]: the parent must be a directory and the name free. *)
Fixpoint mkdir_at (comps : list string) (m : timestamp) (n : node) : option node :=
  match comps with
  | [] => None
  | c :: cs =>
      if stays c then mkdir_at cs m n
      else
        match n with
        | File _ _ => None
        | Dir dm es =>
            match find_entry c es with
            | Some x =>
                match mkdir_at cs m x with
                | Some x' => Some (Dir dm (alter_entry c (λ _, Some x') es))
                | None => None
                end
            | None =>
                match cs with
                | [] => Some (Dir dm (es ++ [(c, Dir m [])])%list)
                | _ :: _ => None
                end
            end
        end
  end.

End Fs.

(** *** Well-formed directories *)

Module Wf.

Fixpoint no_sep (s : string) : bool :=
  match s with
  | EmptyString => true
  | String c s' => negb (Str.is_sep c) && no_sep s'
  end.

(** A name an entry can bear: not empty, not [.], no separator. *)
Definition valid_name (s : string) : bool := negb (Fs.stays s) && no_sep s.

(** No two names are the same up to case. *)
Fixpoint distinct (names : list string) : bool :=
  match names with
  | [] => true
  | x :: l => negb (existsb (Fs.same_name x) l) && distinct l
  end.

Definition names_ok (names : list string) : bool :=
  forallb valid_name names && distinct names.

(** Every directory of the tree has valid, distinct names. *)
Fixpoint wf (n : node) : bool :=
  match n with
  | File _ _ => true
  | Dir _ es => names_ok (map fst es) && forallb (λ '(_, x), wf x) es
  end.

(** The files below a directory in the order [os.walk] meets them: the
    names leading to each, its modification time and its contents. *)
Fixpoint rel_files (n : node) : list (list string * timestamp * string) :=
  match n with
  | File _ _ => []
  | Dir _ es =>
      flat_map (λ '(name, x),
                  match x with
                  | File m d => [([name], m, d)]
                  | Dir _ _ => []
                  end) es ++
      flat_map (λ '(name, sub),
                  map (λ '(cs, m, d), (name :: cs, m, d)) (rel_files sub)) es
  end.

(** [top] joined with every name in turn. *)
Definition join_all (top : string) (comps : list string) : string :=
  foldl Path.join top comps.

End Wf.

Arguments Fs.resolve : simpl never.
Arguments Fs.getmtime : simpl never.
Arguments Fs.read : simpl never.
Arguments Fs.isdir : simpl never.
Arguments Fs.isfile : simpl never.
Arguments Fs.exists_ : simpl never.
Arguments Fs.listdir : simpl never.
Arguments Fs.os_walk : simpl never.
Arguments Path.join : simpl never.
Arguments Path.normpath : simpl never.
Arguments Sha1.hexdigest : simpl never.

(** ** The world the script runs in *)

(** What a [<sha1>.timestamps] sidecar holds once [json.load] accepts it. *)
Record timestamps_data : Type := TimestampsData {
  td_files : list (string * timestamp);
  td_sha1 : string;
}.

(** A sidecar on disk: its text is JSON of the shape above, or
    [json.load] raises [ValueError] on it. *)
Inductive sidecar_file : Type :=
| Unparsable
| Parsed (d : timestamps_data).

(** The combined metadata written to [data.json]. *)
Record metadata : Type := Metadata {
  md_path : string;
  md_version : string;
  md_win_sdk : string;
  md_win8sdk : string;
  md_wdk : string;
  md_runtime_dirs : list string;
}.

(** Calls that leave the process or touch the disk, in the order made. *)
Inductive event : Type :=
| EvStdout (msg : string)
| EvStderr (msg : string)
| EvReadFile (path : string)
| EvReadSidecar (path : string)
| EvWriteSidecar (path : string)
| EvWriteJson (path : string)
| EvCopyFile (src dst : string)
| EvUtime (path : string)
| EvMkdir (path : string)
| EvRemoveFile (path : string)
| EvRmDir (path : string)
| EvNetwork (what : string)
| EvExtract (zip target : string)
| EvKill (process : string)
| EvSubprocess (cmd : string)
| EvSleep (seconds : Q).

(** The working directory [depot_tools\win_toolchain] as a tree; the
    sidecars, which live beside the cache root, by the case-folded text of
    their path; [data.json] and the copy asked for with [--output-json];
    the clock; and the calls made so far, latest last. *)
Record World : Type := MkWorld {
  tree : node;
  sidecars : gmap string sidecar_file;
  data_json : option metadata;
  json_copy : option (string * metadata);
  now : timestamp;
  trace : list event;
}.

Definition with_tree (f : node → node) (w : World) : World :=
  MkWorld (f (tree w)) (sidecars w) (data_json w) (json_copy w) (now w) (trace w).
Definition with_sidecars (f : gmap string sidecar_file → gmap string sidecar_file)
    (w : World) : World :=
  MkWorld (tree w) (f (sidecars w)) (data_json w) (json_copy w) (now w) (trace w).
Definition with_data_json (d : option metadata) (w : World) : World :=
  MkWorld (tree w) (sidecars w) d (json_copy w) (now w) (trace w).
Definition with_json_copy (c : option (string * metadata)) (w : World) : World :=
  MkWorld (tree w) (sidecars w) (data_json w) c (now w) (trace w).
Definition with_now (t : timestamp) (w : World) : World :=
  MkWorld (tree w) (sidecars w) (data_json w) (json_copy w) t (trace w).
Definition with_event (e : event) (w : World) : World :=
  MkWorld (tree w) (sidecars w) (data_json w) (json_copy w) (now w) (trace w ++ [e]).

(** Ways a call ends other than by returning. *)
Inductive failure : Type :=
| AssertionError
| OSError (path : string)
| IOError (path : string)
| SystemExit (status : Z) (msg : string).

Inductive outcome (A : Type) : Type :=
| Ok (a : A)
| Raised (e : failure).
Arguments Ok {A} a.
Arguments Raised {A} e.

(** A computation reads and changes the world and returns or raises; what
    it did before raising stays done. *)
Definition M (A : Type) : Type := World → outcome A * World.

Definition ret {A} (a : A) : M A := λ w, (Ok a, w).
Definition raise {A} (e : failure) : M A := λ w, (Raised e, w).
Definition bind {A B} (m : M A) (k : A → M B) : M B :=
  λ w, match m w with
       | (Ok a, w') => k a w'
       | (Raised e, w') => (Raised e, w')
       end.
Definition gets {A} (f : World → A) : M A := λ w, (Ok (f w), w).
Definition modify (f : World → World) : M unit := λ w, (Ok tt, f w).
Definition emit (e : event) : M unit := modify (with_event e).

Notation "'let*' x := m 'in' k" := (bind m (λ x, k))
  (at level 10, x name, m at level 100, k at level 200).
Notation "'let*' ' p := m 'in' k" := (bind m (λ x, let 'p := x in k))
  (at level 10, p strict pattern, m at level 100, k at level 200).
Notation "'run' m 'then' k" := (bind m (λ _, k))
  (at level 10, m at level 100, k at level 200).

Definition assert (b : bool) : M unit :=
  if b then ret tt else raise AssertionError.

(** [try: m except IOError: h] *)
Definition except_IOError {A} (m : M A) (h : M A) : M A :=
  λ w, match m w with
       | (Raised (IOError _), w') => h w'
       | r => r
       end.

(** Run [f] on every element in turn, stopping at the first raise. *)
Fixpoint for_each {A} (f : A → M unit) (l : list A) : M unit :=
  match l with
  | [] => ret tt
  | x :: l' => run f x then for_each f l'
  end.

(** [[f(x) for x in l]] *)
Fixpoint map_m {A B} (f : A → M B) (l : list A) : M (list B) :=
  match l with
  | [] => ret []
  | x :: l' => let* y := f x in let* ys := map_m f l' in ret (y :: ys)
  end.

(** *** The operating system calls the script makes *)

Definition os_path_isdir (p : string) : M bool := gets (λ w, Fs.isdir (tree w) p).
Definition os_path_isfile (p : string) : M bool := gets (λ w, Fs.isfile (tree w) p).

Definition os_listdir (p : string) : M (list string) :=
  let* t := gets tree in
  match Fs.listdir t p with
  | Some names => ret names
  | None => raise (OSError p)
  end.

Definition os_path_getmtime (p : string) : M timestamp :=
  let* t := gets tree in
  match Fs.getmtime t p with
  | Some m => ret m
  | None => raise (OSError p)
  end.

(** [open(p, 'rb').read()] *)
Definition read_file (p : string) : M string :=
  let* t := gets tree in
  match Fs.read t p with
  | Some d => run emit (EvReadFile p) then ret d
  | None => raise (IOError p)
  end.

(** [os.utime(p, None)] *)
Definition os_utime (p : string) : M unit :=
  let* t := gets tree in
  if Fs.exists_ t p then
    run emit (EvUtime p) then
    modify (λ w, with_tree (Fs.set_mtime p (now w)) w)
  else raise (OSError p).

(** [os.mkdir(p)] *)
Definition os_mkdir (p : string) : M unit :=
  let* t := gets tree in
  let* m := gets now in
  match Fs.mkdir_at (Path.components p) m t with
  | Some t' => run emit (EvMkdir p) then modify (with_tree (λ _, t'))
  | None => raise (OSError p)
  end.

(** [os.remove(p)] *)
Definition os_remove (p : string) : M unit :=
  let* t := gets tree in
  if Fs.isfile t p then
    run emit (EvRemoveFile p) then modify (with_tree (Fs.remove p))
  else raise (OSError p).

(** [sys.stdout.write] and [print] *)
Definition print (msg : string) : M unit := emit (EvStdout msg).
Definition print_stderr (msg : string) : M unit := emit (EvStderr msg).

(** [time.sleep(s)] *)
Definition time_sleep (s : Q) : M unit :=
  run emit (EvSleep s) then modify (λ w, with_now (now w + s)%Q w).

(** [time.time()] *)
Definition time_time : M timestamp := gets now.

(** ** The script *)

(** Python's truth value of a string. *)
Definition truthy (s : string) : bool := negb (String.eqb s "").

Definition crash_reports : string := "WER\ReportQueue".

(** [GetFileList(root)]: a normalized list of the files under [root]. *)
Definition GetFileList (root : string) : M (list string) :=
  run assert (negb (Path.isabs root)) then
  run assert (String.eqb (Path.normpath root) root) then
  let* t := gets tree in
  let file_list :=
    flat_map (λ '(base, _, files),
                let paths := map (Path.join base) files in
                map Str.lower
                  (List.filter (λ x, negb (Str.contains crash_reports x)) paths))
             (Fs.os_walk t root) in
  ret (Str.sorted Str.backslashes file_list).

(** [MakeTimestampsFileName(root, sha1)] *)
Definition MakeTimestampsFileName (root sha1 : string) : string :=
  Path.join (Path.join root Path.pardir) (sha1 +:+ ".timestamps").

(** A sidecar is found through the case-folded text of its path. *)
Definition sidecar_key (p : string) : string := Str.lower p.

Definition sidecar_exists (p : string) : M bool :=
  gets (λ w, bool_decide (is_Some (sidecars w !! sidecar_key p))).

Definition empty_timestamps : timestamps_data := TimestampsData [] "".

(** The comparison loop of [CalculateHash]: [false] at the first recorded
    entry whose path differs or, the touched directory apart, whose
    modification time differs. *)
Fixpoint timestamps_match (vc_dir : string)
    (pairs : list (string * (string * timestamp))) : M bool :=
  match pairs with
  | [] => ret true
  | (disk, cached) :: rest =>
      if negb (String.eqb disk (fst cached)) then ret false
      else if negb (String.eqb disk vc_dir) then
        let* m := os_path_getmtime disk in
        if negb (Qeq_bool m (snd cached)) then ret false
        else timestamps_match vc_dir rest
      else timestamps_match vc_dir rest
  end.

(** The digest loop of [CalculateHash]; [digest] is everything passed to
    [digest.update] so far. *)
Fixpoint hash_files (root expected_hash : string) (digest : string)
    (file_list : list string) : M string :=
  match file_list with
  | [] => ret digest
  | path :: rest =>
      let path_without_hash := Str.backslashes path in
      let path_without_hash :=
        if truthy expected_hash then
          Str.replace (Str.backslashes (Path.join root expected_hash)) root
            path_without_hash
        else path_without_hash in
      let digest := digest +:+ path_without_hash in
      let* data := read_file path in
      hash_files root expected_hash (digest +:+ data) rest
  end.

(** [CalculateHash(root, expected_hash)] *)
Definition CalculateHash (root expected_hash : string) : M string :=
  let full_root_path :=
    if truthy expected_hash then Path.join root expected_hash else root in
  let* file_list := GetFileList full_root_path in
  let timestamps_file := MakeTimestampsFileName root expected_hash in
  let* found := gets (λ w, sidecars w !! sidecar_key timestamps_file) in
  let* timestamps_data :=
    match found with
    | Some f =>
        run emit (EvReadSidecar timestamps_file) then
        match f with
        | Parsed d => ret d
        | Unparsable => ret empty_timestamps
        end
    | None => ret empty_timestamps
    end in
  let matches :=
    Nat.eqb (length file_list) (length (td_files timestamps_data)) in
  let vc_dir := Str.lower (Path.join full_root_path "VC") in
  let* matches :=
    if matches then
      timestamps_match vc_dir (zip file_list (td_files timestamps_data))
    else ret false in
  if matches then ret (td_sha1 timestamps_data)
  else
    run print ("Calculating hash of toolchain in " +:+ full_root_path
               +:+ ". Please wait...") then
    let* digest := hash_files root expected_hash "" file_list in
    ret (Sha1.hexdigest digest).

(** [CalculateToolchainHashes(root)] *)
Definition CalculateToolchainHashes (root : string) : M (list string) :=
  let* names := os_listdir root in
  let* t := gets tree in
  let dir_list := List.filter (λ d, Fs.isdir t (Path.join root d)) names in
  map_m (CalculateHash root) dir_list.

(** [SaveTimestampsAndHash(root, sha1)] *)
Definition SaveTimestampsAndHash (root sha1 : string) : M unit :=
  let* file_list := GetFileList (Path.join root sha1) in
  let* files := map_m (λ f, let* m := os_path_getmtime f in ret (f, m)) file_list in
  let timestamps_data := TimestampsData files sha1 in
  let timestamps_file := MakeTimestampsFileName root sha1 in
  run emit (EvWriteSidecar timestamps_file) then
  modify (with_sidecars (insert (sidecar_key timestamps_file) (Parsed timestamps_data))).

(** *** What the script is started with *)

Inductive platform : Type := Win32 | Cygwin | OtherPlatform.

(** A zip archive: member paths with their contents, in archive order. *)
Definition archive : Type := list (string * string).

(** Command line, environment variables and the services the script
    calls. *)
Record Env : Type := MkEnv {
  sys_platform : platform;
  opt_force : bool;                      (* --force *)
  opt_output_json : string;              (* --output-json, empty when absent *)
  args : list string;
  basedir : string;                      (* BASEDIR, absolute *)
  gyp_msvs_version : string;             (* GYP_MSVS_VERSION *)
  chrome_headless : bool;                (* CHROME_HEADLESS *)
  use_local_zip : bool;                  (* USE_LOCAL_ZIP *)
  userdomain : string;                   (* USERDOMAIN *)
  svn_ls_ok : bool;                      (* svn ls src-internal exits with 0 *)
  git_remote_ok : bool;                  (* git remote show exits with 0 *)
  gsutil_ls_ok : bool;                   (* gsutil ls of the bucket exits with 0 *)
  bucket : string → option archive;      (* what gsutil cp fetches *)
  local_zip : string → option archive;   (* zip files in the working directory *)
  cygwin_child_status : Z;               (* status of the re-invoked Python *)
}.

Section Script.
Context (env : Env).

(** [HaveSrcInternalAccess()] *)
Definition HaveSrcInternalAccess : M bool :=
  run emit (EvNetwork "svn ls --non-interactive svn://svn.chromium.org/chrome-internal/trunk/src-internal/") then
  if svn_ls_ok env then ret true
  else
    run emit (EvNetwork "git -c core.askpass=true remote show https://chrome-internal.googlesource.com/chrome/src-internal/") then
    ret (git_remote_ok env).

(** [LooksLikeGoogler()] *)
Definition LooksLikeGoogler : M bool :=
  ret (String.eqb (Str.upper (userdomain env)) "GOOGLE").

(** [CanAccessToolchainBucket()] *)
Definition CanAccessToolchainBucket : M bool :=
  run emit (EvNetwork "gsutil ls gs://chrome-wintoolchain/") then
  ret (gsutil_ls_ok env).

(** The lines [RequestGsAuthentication] prints, a bare [print] being an
    empty line. *)
Definition authentication_request : list string :=
  ["Access to gs://chrome-wintoolchain/ not configured.";
   "-----------------------------------------------------------------";
   "";
   "You appear to be a Googler.";
   "";
   "I'm sorry for the hassle, but you need to do a one-time manual";
   "authentication. Please run:";
   "";
   "    download_from_google_storage --config";
   "";
   "and follow the instructions.";
   "";
   "NOTE 1: Use your google.com credentials, not chromium.org.";
   "NOTE 2: Enter 0 when asked for a " +:+ String "034" "project-id"
     +:+ String "034" ".";
   "";
   "-----------------------------------------------------------------";
   ""].

(** [RequestGsAuthentication()] *)
Definition RequestGsAuthentication {A} : M A :=
  run for_each print authentication_request then
  raise (SystemExit 1 "").

(** [DelayBeforeRemoving(target_dir)] *)
Definition DelayBeforeRemoving (target_dir : string) : M unit :=
  let* isd := os_path_isdir target_dir in
  if isd && negb (chrome_headless env) then
    run for_each (λ i : Z,
          run print (String "013" "Removing old toolchain in " +:+ pretty i
                     +:+ "s... (Ctrl-C to cancel)") then
          time_sleep 1)
        [9; 8; 7; 6; 5; 4; 3; 2; 1]%Z then
    print ""
  else ret tt.

(** [DownloadUsingGsutil(filename)]: the temporary directory, the path
    of the file in it, and the archive that was fetched there. *)
Definition DownloadUsingGsutil (filename : string) : M (string * string * archive) :=
  let temp_dir := "<tempdir>" in
  run assert (forallb (λ c, negb (Str.is_sep c)) (String.list_ascii_of_string filename)) then
  let target_path := Path.join temp_dir filename in
  run emit (EvNetwork ("gsutil cp gs://chrome-wintoolchain/" +:+ filename)) then
  match bucket env filename with
  | Some zf => ret (temp_dir, target_path, zf)
  | None => raise (SystemExit 1 "gsutil failed")
  end.

(** [RmDir(path)] *)
Definition RmDir (path : string) : M unit :=
  run emit (EvRmDir path) then modify (with_tree (Fs.remove path)).

(** [zf.extractall(target_dir)]: every member written below
    [target_dir], directories made as needed. *)
Definition extractall (zf : archive) (target_dir : string) : M unit :=
  for_each (λ '(member, data),
              let* t := gets tree in
              let* m := gets now in
              let path := Path.join target_dir member in
              match Fs.put_file (Path.components path) m data t with
              | Some t' => modify (with_tree (λ _, t'))
              | None => raise (IOError path)
              end) zf.

(** [DoTreeMirror(target_dir, tree_sha1)]; [temp_dir] is empty for
    [None]. *)
Definition DoTreeMirror (target_dir tree_sha1 : string) : M unit :=
  let* '(temp_dir, local_zip_path, fetched) :=
    if use_local_zip env then ret ("", tree_sha1 +:+ ".zip", None)
    else
      let* '(temp_dir, target_path, zf) := DownloadUsingGsutil (tree_sha1 +:+ ".zip") in
      ret (temp_dir, target_path, Some zf) in
  run print ("Extracting " +:+ local_zip_path +:+ "..." +:+ String "010" "") then
  let* zf :=
    match fetched with
    | Some zf => ret zf
    | None =>
        match local_zip env local_zip_path with
        | Some zf => ret zf
        | None => raise (IOError local_zip_path)
        end
    end in
  run emit (EvExtract local_zip_path target_dir) then
  run extractall zf target_dir then
  if truthy temp_dir then RmDir temp_dir else ret tt.

(** [RemoveToolchain(root, sha1, delay_before_removing)] *)
Definition RemoveToolchain (root sha1 : string) (delay_before_removing : bool) : M unit :=
  let toolchain_target_dir := Path.join root sha1 in
  run (if delay_before_removing then DelayBeforeRemoving toolchain_target_dir
       else ret tt) then
  run (match sys_platform env with
       | Win32 => for_each (λ process_name, emit (EvKill process_name))
                    ["mspdbsrv.exe"; "vctip.exe"]
       | _ => ret tt
       end) then
  let* isd := os_path_isdir toolchain_target_dir in
  run (if isd then RmDir toolchain_target_dir else ret tt) then
  let timestamp_file := MakeTimestampsFileName root sha1 in
  let* found := sidecar_exists timestamp_file in
  if found then
    run emit (EvRemoveFile timestamp_file) then
    modify (with_sidecars (delete (sidecar_key timestamp_file)))
  else ret tt.

(** The listing loop of [RemoveUnusedToolchains]: plain files go at once,
    directories are sorted into those with and without a sidecar. *)
Fixpoint sort_entries (root : string) (names : list string)
    (valid_toolchains : list (timestamp * string)) (dirs_to_remove : list string)
    : M (list (timestamp * string) * list string) :=
  match names with
  | [] => ret (valid_toolchains, dirs_to_remove)
  | d :: rest =>
      let full_path := Path.join root d in
      let* isd := os_path_isdir full_path in
      if isd then
        let* found := sidecar_exists (MakeTimestampsFileName root d) in
        if negb found then
          sort_entries root rest valid_toolchains (dirs_to_remove ++ [d])
        else
          let vc_dir := Path.join full_path "VC" in
          let* m := os_path_getmtime vc_dir in
          sort_entries root rest (valid_toolchains ++ [(m, d)]) dirs_to_remove
      else
        let* isf := os_path_isfile full_path in
        if isf then
          run os_remove full_path then
          sort_entries root rest valid_toolchains dirs_to_remove
        else sort_entries root rest valid_toolchains dirs_to_remove
  end.

Definition toolchain_expiration_time : Q := 60 * 60 * 24 * 30.

(** ['%d' % x]: the integer part, in decimal. *)
Definition percent_d (x : Q) : string :=
  pretty (Z.quot (Qnum x) (Zpos (Qden x))).

(** One round of the expiry loop of [RemoveUnusedToolchains]. *)
Definition expire (root : string) (toolchain : timestamp * string) : M unit :=
  let* t := time_time in
  let toolchain_age_in_sec := (t - fst toolchain)%Q in
  if negb (Qle_bool toolchain_age_in_sec toolchain_expiration_time) then
    run print ("Removing version " +:+ snd toolchain
               +:+ " of the Win toolchain has it hasn't been used in the past "
               +:+ percent_d (toolchain_age_in_sec / 60 / 60 / 24)
               +:+ " days.") then
    RemoveToolchain root (snd toolchain) true
  else ret tt.

(** [RemoveUnusedToolchains(root)] *)
Definition RemoveUnusedToolchains (root : string) : M unit :=
  let* names := os_listdir root in
  let* '(valid_toolchains, dirs_to_remove) := sort_entries root names [] [] in
  run for_each (λ d,
        run print ("Removing " +:+ Path.join root d
                   +:+ " as it doesn't correspond to any known toolchain.") then
        RemoveToolchain root d false)
      dirs_to_remove then
  for_each (expire root) valid_toolchains.

(** [os.path.abspath(p)], the working directory being [BASEDIR]. *)
Definition abspath (p : string) : string :=
  Path.normpath (Path.join (basedir env) p).

(** [main()] from the [try] that reads [VS_VERSION] to the writing of
    [data.json]. *)
Definition write_data_json (target_dir desired_hash : string) : M unit :=
  let toolchain_target_dir := Path.join target_dir desired_hash in
  let abs_toolchain_target_dir := abspath toolchain_target_dir in
  let win_sdk := Path.join abs_toolchain_target_dir "win_sdk" in
  let* '(vs_version, win_sdk) :=
    except_IOError
      (let version_file := Path.join toolchain_target_dir "VS_VERSION" in
       let vc_dir := Path.join toolchain_target_dir "VC" in
       let* text := read_file version_file in
       let vs_version := Str.strip text in
       run os_utime vc_dir then
       ret (vs_version, win_sdk))
      (ret ("2013", Path.join abs_toolchain_target_dir "win8sdk")) in
  let data :=
    Metadata abs_toolchain_target_dir vs_version win_sdk win_sdk
      (Path.join abs_toolchain_target_dir "wdk")
      [Path.join abs_toolchain_target_dir "sys64";
       Path.join abs_toolchain_target_dir "sys32"] in
  let data_file := Path.join (Path.join target_dir "..") "data.json" in
  run emit (EvWriteJson data_file) then
  modify (with_data_json (Some data)).

Definition wrong_hash_message (desired_hash : string) (current_hashes : list string)
    : string :=
  "Got wrong hash after pulling a new toolchain. Wanted '"
  +:+ desired_hash +:+ "', got one of '"
  +:+ Str.concat_with ", " current_hashes +:+ "'.".

(** [main()] from [if got_new_toolchain:] to the end;
    [InstallUniversalCRTIfNeeded] returns at once. *)
Definition verify_and_clean (target_dir desired_hash : string)
    (got_new_toolchain : bool) : M Z :=
  let data_file := Path.join (Path.join target_dir "..") "data.json" in
  let* verified :=
    if got_new_toolchain then
      let* current_hashes := CalculateToolchainHashes target_dir in
      if negb (existsb (String.eqb desired_hash) current_hashes) then
        run print_stderr (wrong_hash_message desired_hash current_hashes) then
        ret false
      else
        run SaveTimestampsAndHash target_dir desired_hash then
        ret true
    else ret true in
  if negb verified then ret 1%Z
  else
    run (if truthy (opt_output_json env) then
           run emit (EvCopyFile data_file (opt_output_json env)) then
           let* d := gets data_json in
           modify (with_json_copy ((λ x, (opt_output_json env, x)) <$> d))
         else ret tt) then
    run RemoveUnusedToolchains target_dir then
    ret 0%Z.

(** The second half of [main()], with [got_new_toolchain] as the first
    half left it. *)
Definition main_report (target_dir desired_hash : string)
    (got_new_toolchain : bool) : M Z :=
  run write_data_json target_dir desired_hash then
  verify_and_clean target_dir desired_hash got_new_toolchain.

(** The directory of the installed versions. *)
Definition target_dir_of : string :=
  let toolchain_dir := "." in
  if String.eqb (gyp_msvs_version env) "2015"
  then Path.normpath (Path.join toolchain_dir "vs_files")
  else Path.normpath (Path.join toolchain_dir "vs2013_files").

(** [main()] *)
Definition main : M Z :=
  if negb (match sys_platform env with
           | Win32 | Cygwin => true
           | OtherPlatform => opt_force env
           end)
  then ret 0%Z
  else
    run (match sys_platform env with
         | Cygwin =>
             run emit (EvSubprocess "python.bat get_toolchain_if_necessary.py") then
             raise (SystemExit (cygwin_child_status env) "")
         | _ => ret tt
         end) then
    match args env with
    | [] => raise (SystemExit 1 "Desired hash is required.")
    | desired_hash :: _ =>
        let target_dir := target_dir_of in
        let* isd := os_path_isdir target_dir in
        run (if negb isd then os_mkdir target_dir else ret tt) then
        let toolchain_target_dir := Path.join target_dir desired_hash in
        let* current_hashes := CalculateToolchainHashes target_dir in
        if negb (existsb (String.eqb desired_hash) current_hashes) then
          let* a := HaveSrcInternalAccess in
          let* b := if a then ret true else LooksLikeGoogler in
          let* c := if b then ret true else CanAccessToolchainBucket in
          let* should_use_gs :=
            if c then
              let* d := CanAccessToolchainBucket in
              run (if negb d then RequestGsAuthentication else ret tt) then
              ret true
            else ret false in
          if negb should_use_gs then
            run print (String "010" (String "010" (String "010"
                         "Please follow the instructions at https://www.chromium.org/developers/how-tos/build-instructions-windows"))
                       +:+ String "010" (String "010" "")) then
            ret 1%Z
          else
            run print "Windows toolchain out of date or doesn't exist, updating (Pro)..." then
            run print ("  current_hashes: " +:+ Str.concat_with ", " current_hashes) then
            run print ("  desired_hash: " +:+ desired_hash) then
            run DoTreeMirror toolchain_target_dir desired_hash then
            main_report target_dir desired_hash true
        else main_report target_dir desired_hash false
    end.

End Script.

(** ** Vocabulary of the properties *)

(** [evs] appended to the trace. *)
Definition add_events (evs : list event) (w : World) : World :=
  MkWorld (tree w) (sidecars w) (data_json w) (json_copy w) (now w) (trace w ++ evs).

(** The assertions of [GetFileList]. *)
Definition GetFileList_accepts (root : string) : bool :=
  negb (Path.isabs root) && String.eqb (Path.normpath root) root.

(** Every path [os.walk] reaches, as joined by [GetFileList]. *)
Definition walk_paths (walked : list (string * list string * list string)) : list string :=
  flat_map (λ '(base, _, files), map (Path.join base) files) walked.

Definition not_crash_report (x : string) : bool :=
  negb (Str.contains crash_reports x).

(** The list [GetFileList] returns when its assertions hold. *)
Definition file_list_of (t : node) (root : string) : list string :=
  Str.sorted Str.backslashes
    (map Str.lower (List.filter not_crash_report (walk_paths (Fs.os_walk t root)))).

(** The paths [os.walk(top)] yields for the directory [n], before
    filtering and lower-casing. *)
Definition listed_paths (top : string) (n : node) : list string :=
  map (λ e, Wf.join_all top (fst (fst e))) (Wf.rel_files n).

(** The directory [CalculateHash(root, expected_hash)] hashes. *)
Definition version_root (root expected_hash : string) : string :=
  if truthy expected_hash then Path.join root expected_hash else root.

(** The record [CalculateHash] compares with: the sidecar's when there is
    one that parses, the empty record otherwise. *)
Definition loaded_timestamps (root expected_hash : string) (w : World) : timestamps_data :=
  match sidecars w !! sidecar_key (MakeTimestampsFileName root expected_hash) with
  | Some (Parsed d) => d
  | _ => empty_timestamps
  end.

(** The world once the sidecar, if any, has been read. *)
Definition after_load (root expected_hash : string) (w : World) : World :=
  match sidecars w !! sidecar_key (MakeTimestampsFileName root expected_hash) with
  | Some _ => with_event (EvReadSidecar (MakeTimestampsFileName root expected_hash)) w
  | None => w
  end.

(** The full calculation that ends [CalculateHash]: the notice, the digest
    loop, the hexadecimal digest. *)
Definition rehash (root expected_hash : string) (file_list : list string) : M string :=
  run print ("Calculating hash of toolchain in " +:+ version_root root expected_hash
             +:+ ". Please wait...") then
  let* digest := hash_files root expected_hash "" file_list in
  ret (Sha1.hexdigest digest).

(** The touched directory, as [CalculateHash] spells it. *)
Definition vc_dir_of (root expected_hash : string) : string :=
  Str.lower (Path.join (version_root root expected_hash) "VC").

(** The sidecar passes the comparison of [CalculateHash]. *)
Definition sidecar_validates (root expected_hash : string) (w : World) : Prop :=
  let file_list := file_list_of (tree w) (version_root root expected_hash) in
  let recorded := td_files (loaded_timestamps root expected_hash w) in
  length file_list = length recorded ∧
  fst (timestamps_match (vc_dir_of root expected_hash) (zip file_list recorded) w)
  = Ok true.

(** How [Wf.rel_files] is put together, and what pruning does to one
    entry. *)
Module Listing.

Definition kept (top : string) (e : list string * timestamp * string) : bool :=
  not_crash_report (Wf.join_all top (fst (fst e))).

Definition files_here (e : string * node) : list (list string * timestamp * string) :=
  let '(name, x) := e in
  match x with
  | File m d => [([name], m, d)]
  | Dir _ _ => []
  end.

Definition push (name : string) (e : list string * timestamp * string)
    : list string * timestamp * string :=
  let '(cs, m, d) := e in (name :: cs, m, d).

Definition files_below (e : string * node) : list (list string * timestamp * string) :=
  let '(name, sub) := e in map (push name) (Wf.rel_files sub).

(** The names of two paths are the same up to case. *)
Definition same_names (cs1 cs2 : list string) : Prop :=
  Forall2 (λ a b, Fs.same_name a b = true) cs1 cs2.

(** [n] with the modification time of the node at [cs] set to [m]: what
    [Fs.alter_at] does with [Fs.with_mtime]. *)
Fixpoint retimed (cs : list string) (m : timestamp) (n : node) : node :=
  match cs with
  | [] => Fs.with_mtime m n
  | c :: cs' =>
      if Fs.stays c then retimed cs' m n
      else
        match n with
        | Dir dm es => Dir dm (Fs.alter_entry c (λ x, Some (retimed cs' m x)) es)
        | File _ _ => n
        end
  end.

(** [adds_file cs n n']: the directory [n'] is [n] with one more file,
    reached by the names [cs]. *)
Inductive adds_file : list string → node → node → Prop :=
| adds_here m es1 es2 name mt d :
    adds_file [name] (Dir m (es1 ++ es2)) (Dir m (es1 ++ (name, File mt d) :: es2))
| adds_below m es1 es2 name sub sub' cs :
    adds_file cs sub sub' →
    adds_file (name :: cs) (Dir m (es1 ++ (name, sub) :: es2))
      (Dir m (es1 ++ (name, sub') :: es2)).

End Listing.

(** The directory [n], walked from [top], without the files whose path
    contains the crash-report directory. *)
Fixpoint prune (top : string) (n : node) : node :=
  match n with
  | File _ _ => n
  | Dir m es =>
      Dir m (flat_map (λ '(name, x),
                         match x with
                         | File _ _ =>
                             if not_crash_report (Path.join top name)
                             then [(name, x)] else []
                         | Dir _ _ => [(name, prune (Path.join top name) x)]
                         end) es)
  end.

Definition prune_entry (top : string) (e : string * node) : list (string * node) :=
  let '(name, x) := e in
  match x with
  | File _ _ => if not_crash_report (Path.join top name) then [(name, x)] else []
  | Dir _ _ => [(name, prune (Path.join top name) x)]
  end.

(** The text that [CalculateHash] strips, [root] joined with [name], does
    not occur again in the remainder of any path below [n]: the stripping
    takes away the named segment and nothing else. *)
Definition strips_once (root name : string) (n : node) : bool :=
  forallb (λ e, negb (Str.contains (Str.backslashes (Path.join root name))
                        (Path.sep +:+ Str.backslashes
                           (Str.lower (Str.concat_with Path.sep (fst (fst e)))))))
          (Wf.rel_files n).

(** The pattern [p] cannot be completed in [T] after one of its
    separators. *)
Fixpoint sep_safe (p T : string) : Prop :=
  match p with
  | EmptyString => True
  | String c p' =>
      (Str.is_sep c = true → Str.startswith p' T = Str.startswith p' "")
      ∧ sep_safe p' T
  end.

Definition ends_with_sep (s : string) : Prop :=
  ∃ c, Str.last s = Some c ∧ Str.is_sep c = true.

(** The relative parts of the paths listed for the directory [n] below
    [root], lower-cased, in walk order: what is left of the listed paths
    when the name of the version directory is taken away. *)
Definition relative_list (root : string) (n : node) : list string :=
  map (λ e, Str.lower (Str.concat_with Path.sep (fst (fst e))))
    (List.filter (λ e, negb (Str.contains crash_reports (Path.join root "")
                             || Str.contains crash_reports
                                  (Path.sep +:+ Str.concat_with Path.sep (fst (fst e)))))
                 (Wf.rel_files n)).

(** *** Eviction *)

(** The last use [RemoveUnusedToolchains] reads for a version directory:
    the modification time of its [VC]. *)
Definition touch_time (n : node) : option timestamp :=
  Fs.mtime_of <$> Fs.step n "VC".

(** The test [os.path.exists(MakeTimestampsFileName(root, d))]. *)
Definition sidecar_present (root d : string) (w : World) : bool :=
  bool_decide (is_Some (sidecars w !! sidecar_key (MakeTimestampsFileName root d))).

(** The two lists the listing loop of [RemoveUnusedToolchains] builds from
    the entries of the root. *)
Definition orphans (root : string) (w : World) (es : list (string * node)) : list string :=
  map fst (List.filter (λ e, Fs.is_dir (snd e) && negb (sidecar_present root (fst e) w)) es).

Definition versions (root : string) (w : World) (es : list (string * node))
    : list (timestamp * string) :=
  omap (λ e, if Fs.is_dir (snd e) && sidecar_present root (fst e) w
             then (λ t, (t, fst e)) <$> touch_time (snd e)
             else None) es.

(** An entry stays when the directories called [gone] are removed. *)
Definition keeps (gone : list string) (e : string * node) : bool :=
  negb (Fs.is_dir (snd e) && existsb (Fs.same_name (fst e)) gone).

(** Unused for longer than the retention window, seen at time [t]. *)
Definition expired (t last_use : timestamp) : Prop :=
  (toolchain_expiration_time < t - last_use)%Q.

(** The tree and the sidecars as they were, the clock not set back. *)
Definition undisturbed (w w' : World) : Prop :=
  tree w' = tree w ∧ sidecars w' = sidecars w ∧ (now w <= now w')%Q.

(** *** What a run leaves behind *)

(** Events that stay on the machine and write no sidecar. *)
Definition local_only (e : event) : bool :=
  match e with
  | EvNetwork _ | EvExtract _ _ | EvWriteSidecar _ | EvMkdir _ | EvSubprocess _ => false
  | _ => true
  end.

(** Events that only look. *)
Definition looks_only (e : event) : bool :=
  match e with
  | EvStdout _ | EvStderr _ | EvReadFile _ | EvReadSidecar _ => true
  | _ => false
  end.

(** [w'] is [w] with more of the trace, and nothing else changed. *)
Definition looked (w w' : World) : Prop :=
  ∃ evs, w' = add_events evs w ∧ forallb looks_only evs = true.

(** [w'] came from [w] without the network, an extraction, a new
    directory or a sidecar written. *)
Definition settled (w w' : World) : Prop :=
  (∃ evs, trace w' = trace w ++ evs ∧ forallb local_only evs = true)
  ∧ sidecars w' ⊆ sidecars w.

(** Every run of [c] stays within [R], whether it returns or raises. *)
Definition respects (R : World → World → Prop) {A} (c : M A) : Prop :=
  ∀ w, R w (snd (c w)).

(** The tree without its modification times. *)
Fixpoint untimed (n : node) : node :=
  match n with
  | File _ d => File 0 d
  | Dir _ es => Dir 0 (map (λ e, (fst e, untimed (snd e))) es)
  end.

(** Events of the reporting half of [main] that remove and record
    nothing. *)
Definition reports_only (e : event) : bool :=
  match e with
  | EvStdout _ | EvStderr _ | EvReadFile _ | EvReadSidecar _
  | EvUtime _ | EvWriteJson _ => true
  | _ => false
  end.

(** [data.json] and its copy are as they were. *)
Definition same_json (w w' : World) : Prop :=
  data_json w' = data_json w ∧ json_copy w' = json_copy w.

(** ** Sample worlds *)

Module Sample.

Definition toolchain_with (compiler : string) : node :=
  Dir 100 [("VS_VERSION", File 10 "2015");
           ("VC", Dir 50 [("bin", Dir 50 [("cl.exe", File 10 compiler)])]);
           ("win_sdk", Dir 60 [("Include.h", File 11 "#pragma once")])].

Definition vc : node := Dir 50 [("bin", Dir 50 [("cl.exe", File 10 "MZcl")])].

Definition toolchain : node := toolchain_with "MZcl".

Definition cwd (name : string) : node :=
  Dir 0 [("vs_files", Dir 5 [(name, toolchain)])].

Definition world (t : node) : World :=
  MkWorld t ∅ None None 1000 [].

(** The toolchain with an older compiler, installed under its hash and
    recorded. *)
Definition old_hash : string := "95dd983a3c79363ab8772e96585e2651b01abfe9".

Definition installed_old : World :=
  snd (SaveTimestampsAndHash "vs_files" old_hash
         (world (Dir 0 [("vs_files", Dir 5 [(old_hash, toolchain_with "MZold")])]))).

(** The compiler replaced since, with its modification time kept. *)
Definition stale : World := with_tree (λ _, cwd old_hash) installed_old.

(** The same files under another name, never recorded. *)
Definition copy : World := world (cwd "copy").

(** A version directory that holds a path spelled like its own. *)
Definition nested (name : string) : World :=
  world (Dir 0 [("vs_files", Dir 5
    [(name, Dir 1 [("vs_files", Dir 1 [("abc", Dir 1 [("f", File 1 "x")])])])])]).

(** The world after [SaveTimestampsAndHash] has recorded the toolchain. *)
Definition saved : World :=
  snd (SaveTimestampsAndHash "vs_files" "abc" (world (cwd "abc"))).

(** [VC] touched, as [main] does on every use. *)
Definition touched : World :=
  with_tree (Fs.set_mtime "vs_files\abc\VC" 2000) saved.

(** The compiler written again, with the same contents. *)
Definition compiler_rewritten : World :=
  with_tree (Fs.set_mtime "vs_files\abc\vc\bin\cl.exe" 2000) saved.

(** A file more at the top of the toolchain. *)
Definition toolchain_and_readme : node :=
  Dir 100 [("VS_VERSION", File 10 "2015"); ("VC", vc);
           ("win_sdk", Dir 60 [("Include.h", File 11 "#pragma once")]);
           ("README", File 2000 "read me")].

Definition readme_added : World :=
  with_tree (λ _, Dir 0 [("vs_files", Dir 5 [("abc", toolchain_and_readme)])]) saved.

(** The toolchain with an empty report queue in its [bin] directory, and
    after one crash report has been left there. *)
Definition toolchain_queue (reports : list (string * node)) : node :=
  Dir 100 [("VS_VERSION", File 10 "2015");
           ("VC", Dir 50 [("bin", Dir 50
              [("cl.exe", File 10 "MZcl");
               ("WER", Dir 70 [("ReportQueue", Dir 70 reports)])])]);
           ("win_sdk", Dir 60 [("Include.h", File 11 "#pragma once")])].

Definition cwd_queue (reports : list (string * node)) : node :=
  Dir 0 [("vs_files", Dir 5 [("abc", toolchain_queue reports)])].

Definition saved_queue : World :=
  snd (SaveTimestampsAndHash "vs_files" "abc" (world (cwd_queue []))).

Definition crashed : World :=
  with_tree (λ _, cwd_queue [("Report.wer", File 3000 "crash")]) saved_queue.

(** The same toolchain after the compiler crashed twice. *)
Definition toolchain_with_crash_reports : node :=
  Dir 100 [("VS_VERSION", File 10 "2015");
           ("VC", Dir 50 [("bin", Dir 50
              [("cl.exe", File 10 "MZcl");
               ("WER", Dir 70 [("ReportQueue", Dir 70
                  [("Report.wer", File 70 "crash"); ("cl.dmp", File 71 "dump")])])])]);
           ("win_sdk", Dir 60 [("Include.h", File 11 "#pragma once")])].

Definition cwd_with_crash_reports : node :=
  Dir 0 [("vs_files", Dir 5 [("abc", toolchain_with_crash_reports)])].

End Sample.

(** [vs_files\abc] without any file. *)
Module Empty.

(** [vs_files\abc] holds no file, only an empty [VC]. *)
Definition cwd : node :=
  Dir 0 [("vs_files", Dir 5 [("abc", Dir 7 [("VC", Dir 7 [])])])].

Definition no_sidecar : World := MkWorld cwd ∅ None None 1000 [].

Definition corrupt_sidecar : World :=
  MkWorld cwd {[ sidecar_key (MakeTimestampsFileName "vs_files" "abc") := Unparsable ]}
    None None 1000 [].

End Empty.

(** A cache root with one entry of each kind, forty days after the
    epoch. *)
Module Cache.

Definition day : Q := 60 * 60 * 24.

(** A Windows machine building with the 2015 toolchain. *)
Definition env (desired_hash : string) (headless : bool) : Env :=
  MkEnv Win32 false "" [desired_hash] "C:\depot_tools\win_toolchain" "2015"
        headless false "" false false true (λ _, None) (λ _, None) 0.

Definition version (last_use : timestamp) : node :=
  Dir 10 [("VS_VERSION", File 10 "2015"); ("VC", Dir last_use [])].

Definition entries : list (string * node) :=
  [("stray.zip", File 3 "PK");
   ("orphan", version (39 * day));
   ("old", version (9 * day));
   ("fresh", version (39 * day))].

Definition recorded (name : string) : gmap string sidecar_file → gmap string sidecar_file :=
  insert (sidecar_key (MakeTimestampsFileName "vs_files" name))
         (Parsed (TimestampsData [] name)).

Definition world : World :=
  MkWorld (Dir 0 [("vs_files", Dir 5 entries)])
          (recorded "old" (recorded "fresh" ∅)) None None (40 * day) [].

End Cache.

(** A download that does not hash to its name. *)
Module Mismatch.

Definition files : archive :=
  [("VS_VERSION", "2015"); ("VC\bin\cl.exe", "MZcl"); ("win_sdk\Include.h", "#pragma once")].

Definition env : Env :=
  MkEnv Win32 false "" ["abc123"] "C:\depot_tools\win_toolchain" "2015"
        true false "" false false true
        (λ name, if String.eqb name "abc123.zip" then Some files else None)
        (λ _, None) 0.

(** The working directory before the first run. *)
Definition fresh : World := MkWorld (Dir 0 []) ∅ None None 1000 [].

(** After the download and the extraction. *)
Definition extracted : World :=
  snd (DoTreeMirror env "vs_files\abc123" "abc123"
         (MkWorld (Dir 0 [("vs_files", Dir 1000 [])]) ∅ None None 1000 [])).

(** An older package, without [VS_VERSION]. *)
Definition extracted_2013 : World :=
  MkWorld (Dir 0 [("vs_files", Dir 1000 [("abc123",
             Dir 1000 [("VC", Dir 1000 [("cl.exe", File 1000 "MZ")])])])])
          ∅ None None 2000 [].

End Mismatch.

(** A download that hashes to its name, and the runs that follow. *)
Module Installed.

Definition desired_hash : string := "18e87c62cd2e86d1a7edc2a3ddc6fd0a4ccb0bb0".

Definition env : Env :=
  MkEnv Win32 false "" [desired_hash] "C:\depot_tools\win_toolchain" "2015"
        true false "" false false true
        (λ name, if String.eqb name (desired_hash +:+ ".zip")
                 then Some Mismatch.files else None)
        (λ _, None) 0.

(** The world the first run leaves. *)
Definition first_run : World := snd (main env Mismatch.fresh).

(** A minute later. *)
Definition a_minute_later : World := with_now (now first_run + 60)%Q first_run.

End Installed.

(** Machines with less than full access to the bucket. *)
Module Access.

(** No probe succeeds. *)
Definition offline (desired_hash : string) : Env :=
  MkEnv Win32 false "" [desired_hash] "C:\depot_tools\win_toolchain" "2015"
        true false "" false false false (λ _, None) (λ _, None) 0.

(** The domain of the user says Googler, the bucket is not set up. *)
Definition googler (desired_hash : string) : Env :=
  MkEnv Win32 false "" [desired_hash] "C:\depot_tools\win_toolchain" "2015"
        true false "Google" false false false (λ _, None) (λ _, None) 0.

End Access.

(** A cache root where a recorded version has lost its [VC]. *)
Module Broken.

Definition before : list (string * node) :=
  [("stray.zip", File 3 "PK"); ("orphan", Cache.version (39 * Cache.day))].

Definition broken : node := Dir 10 [("VS_VERSION", File 10 "2015")].

Definition after : list (string * node) :=
  [("old", Cache.version (9 * Cache.day))].

Definition world : World :=
  MkWorld (Dir 0 [("vs_files", Dir 5 (before ++ ("broken", broken) :: after))])
          (Cache.recorded "broken" (Cache.recorded "old" ∅)) None None
          (40 * Cache.day) [].

End Broken.

Module Legacy.

(** A package of the older layout, without [VS_VERSION], its [VC] last
    touched 31 days ago. *)
Definition package : node :=
  Dir 10 [("VC", Dir (9 * Cache.day) []); ("win8sdk", Dir 10 [])].

Definition world : World :=
  MkWorld (Dir 0 [("vs2013_files", Dir 5 [("legacy", package)])])
          (insert (sidecar_key (MakeTimestampsFileName "vs2013_files" "legacy"))
                  (Parsed (TimestampsData [] "legacy")) ∅)
          None None (40 * Cache.day) [].

End Legacy.

(** * Properties *)

(** ** First runs *)

Example sha1_empty :
  Sha1.hexdigest "" = "da39a3ee5e6b4b0d3255bfef95601890afd80709".
Proof. vm_compute. reflexivity. Qed.

Example sha1_abc :
  Sha1.hexdigest "abc" = "a9993e364706816aba3e25717850c26c9cd0d89d".
Proof. vm_compute. reflexivity. Qed.

Example sha1_two_blocks :
  Sha1.hexdigest "abcdbcdecdefdefgefghfghighijhijkijkljklmklmnlmnomnopnopq"
  = "84983e441c3bd26ebaae4aa1f95129e5e54670f1".
Proof. vm_compute. reflexivity. Qed.

Example replace_all_occurrences :
  Str.replace "r\a" "r" "r\a\bar\apple" = "r\barpple".
Proof. reflexivity. Qed.

Example replace_empty_old : Str.replace "" "-" "abc" = "-a-b-c-".
Proof. reflexivity. Qed.

Example sorted_by_key :
  Str.sorted Str.backslashes ["b/x"; "a\y"; "b\a"; "a/y"]
  = ["a\y"; "a/y"; "b\a"; "b/x"].
Proof. reflexivity. Qed.

Example join_plain : Path.join "vs_files" "abc" = "vs_files\abc".
Proof. reflexivity. Qed.

Example join_after_sep : Path.join "vs_files\" "abc" = "vs_files\abc".
Proof. reflexivity. Qed.

Example join_absolute : Path.join "vs_files" "\abc" = "\abc".
Proof. reflexivity. Qed.

Example components_mixed :
  Path.components "vs_files\abc/VC\bin" = ["vs_files"; "abc"; "VC"; "bin"].
Proof. reflexivity. Qed.

Example normpath_examples :
  Path.normpath "vs_files\abc" = "vs_files\abc" ∧
  Path.normpath "vs_files/abc" = "vs_files\abc" ∧
  Path.normpath "a\.\b\..\c\" = "a\c" ∧
  Path.normpath "..\..\a" = "..\..\a" ∧
  Path.normpath "\..\a" = "\a" ∧
  Path.normpath "" = "." ∧
  Path.normpath "." = ".".
Proof. repeat split; reflexivity. Qed.

Example GetFileList_sample :
  fst (GetFileList "vs_files\abc" (Sample.world (Sample.cwd "abc")))
  = Ok ["vs_files\abc\vc\bin\cl.exe"; "vs_files\abc\vs_version";
        "vs_files\abc\win_sdk\include.h"].
Proof. vm_compute. reflexivity. Qed.

Example CalculateHash_sample :
  fst (CalculateHash "vs_files" "abc" (Sample.world (Sample.cwd "abc")))
  = Ok (Sha1.hexdigest
          ("vs_files\vc\bin\cl.exe" +:+ "MZcl" +:+
           "vs_files\vs_version" +:+ "2015" +:+
           "vs_files\win_sdk\include.h" +:+ "#pragma once")).
Proof. vm_compute. reflexivity. Qed.

(** ** Byte strings: facts *)

Module StrFacts.
Import Str.

Lemma sapp_cons c s t : String c s +:+ t = String c (s +:+ t).
Proof. reflexivity. Qed.

Lemma sapp_nil_r s : s +:+ "" = s.
Proof. induction s as [|c s IH]; [done|]. by rewrite sapp_cons, IH. Qed.

Lemma sapp_assoc a b c : (a +:+ b) +:+ c = a +:+ (b +:+ c).
Proof. induction a as [|x a IH]; [done|]. by rewrite !sapp_cons, IH. Qed.

Lemma slength_app a b :
  String.length (a +:+ b) = (String.length a + String.length b)%nat.
Proof. induction a as [|x a IH]; [done|]. rewrite sapp_cons. simpl. by rewrite IH. Qed.

(** Settle a fact about one byte by trying all of them. *)
Ltac by_bytes c :=
  destruct c as [[] [] [] [] [] [] [] []]; vm_compute; reflexivity.

Lemma lower_char_idemp c : lower_char (lower_char c) = lower_char c.
Proof. by_bytes c. Qed.

Lemma is_sep_lower_char c : is_sep (lower_char c) = is_sep c.
Proof. by_bytes c. Qed.

Lemma lower_char_slash c :
  Ascii.eqb (lower_char c) slash = Ascii.eqb c slash.
Proof. by_bytes c. Qed.

Lemma lower_char_dot c :
  Ascii.eqb (lower_char c) "."%char = Ascii.eqb c "."%char.
Proof. by_bytes c. Qed.

Lemma lower_app a b : lower (a +:+ b) = lower a +:+ lower b.
Proof. induction a as [|x a IH]; [done|]. rewrite !sapp_cons. simpl. by rewrite IH. Qed.

Lemma lower_idemp s : lower (lower s) = lower s.
Proof.
  induction s as [|c s IH]; [done|]. simpl. by rewrite lower_char_idemp, IH.
Qed.

Lemma backslashes_app a b : backslashes (a +:+ b) = backslashes a +:+ backslashes b.
Proof. induction a as [|x a IH]; [done|]. rewrite !sapp_cons. simpl. by rewrite IH. Qed.

(** Lower-casing and turning slashes commute. *)
Lemma backslashes_lower s : backslashes (lower s) = lower (backslashes s).
Proof.
  induction s as [|c s IH]; [done|]. simpl. rewrite IH. f_equal.
  by_bytes c.
Qed.

Lemma startswith_refl_app p r : startswith p (p +:+ r) = true.
Proof.
  induction p as [|c p IH]; [done|]. rewrite sapp_cons. simpl.
  by rewrite Ascii.eqb_refl, IH.
Qed.

Lemma contains_nil s : contains "" s = true.
Proof. by destruct s. Qed.

(** *** [replace] *)

Lemma replace_scan_skip old new u r :
  replace_scan old new (String.length u) (u +:+ r) = replace_scan old new 0 r.
Proof.
  induction u as [|c u IH]; [by destruct r|]. rewrite sapp_cons. simpl. exact IH.
Qed.

Lemma contains_cons p c s :
  contains p (String c s) = startswith p (String c s) || contains p s.
Proof. reflexivity. Qed.

Lemma replace_scan_cons old new c s :
  replace_scan old new 0 (String c s) =
  if startswith old (String c s)
  then new +:+ replace_scan old new (String.length old - 1) s
  else String c (replace_scan old new 0 s).
Proof. reflexivity. Qed.

Lemma replace_scan_absent old new s :
  contains old s = false → replace_scan old new 0 s = s.
Proof.
  induction s as [|c s IH]; [done|].
  rewrite contains_cons, replace_scan_cons.
  intros [Hsw Hc]%orb_false_elim. by rewrite Hsw, IH.
Qed.

(** An occurrence at the head and none later: only the head is replaced. *)
Lemma replace_head old new r :
  old ≠ "" → contains old r = false → replace old new (old +:+ r) = new +:+ r.
Proof.
  intros Hne Habsent. destruct old as [|o old]; [done|].
  unfold replace. rewrite sapp_cons, replace_scan_cons.
  pose proof (startswith_refl_app (String o old) r) as Hsw.
  rewrite sapp_cons in Hsw. rewrite Hsw.
  change (String.length (String o old) - 1)%nat with (String.length old - 0)%nat.
  rewrite Nat.sub_0_r, replace_scan_skip.
  by rewrite replace_scan_absent.
Qed.

(** A string without [old] is left alone. *)
Lemma replace_absent old new s :
  old ≠ "" → contains old s = false → replace old new s = s.
Proof.
  intros Hne Habsent. destruct old as [|o old]; [done|].
  by apply replace_scan_absent.
Qed.

(** *** Order *)

Lemma ascii_compare_refl c : Ascii.compare c c = Eq.
Proof. unfold Ascii.compare. apply N.compare_refl. Qed.

Lemma compare_app p a b : String.compare (p +:+ a) (p +:+ b) = String.compare a b.
Proof.
  induction p as [|c p IH]; [done|]. rewrite !sapp_cons. simpl.
  by rewrite ascii_compare_refl.
Qed.

Lemma leb_app p a b : String.leb (p +:+ a) (p +:+ b) = String.leb a b.
Proof. unfold String.leb. by rewrite compare_app. Qed.

(** A map that keeps the order of keys commutes with sorting. *)
Lemma sorted_map key (f : string → string) l :
  (∀ x y, String.leb (key (f x)) (key (f y)) = String.leb (key x) (key y)) →
  sorted key (map f l) = map f (sorted key l).
Proof.
  intros Hf. unfold sorted.
  assert (Hins : ∀ x l', insert_sorted key (f x) (map f l')
                         = map f (insert_sorted key x l')).
  { intros x l'. induction l' as [|y l' IH]; [done|]. simpl.
    rewrite Hf. destruct (String.leb (key x) (key y)); [done|].
    simpl. by rewrite IH. }
  induction l as [|x l IH]; [done|]. simpl. by rewrite IH, Hins.
Qed.

Lemma insert_sorted_length key x l :
  length (insert_sorted key x l) = S (length l).
Proof.
  induction l as [|y l IH]; [done|]. simpl.
  destruct (String.leb (key x) (key y)); simpl; [done|]. by rewrite IH.
Qed.

Lemma sorted_length key l : length (sorted key l) = length l.
Proof.
  induction l as [|x l IH]; [done|]. unfold sorted in *. simpl.
  by rewrite insert_sorted_length, IH.
Qed.

Lemma insert_sorted_elem key x y l :
  y ∈ insert_sorted key x l ↔ y = x ∨ y ∈ l.
Proof.
  induction l as [|z l IH]; simpl.
  - rewrite elem_of_cons. tauto.
  - destruct (String.leb (key x) (key z)).
    + rewrite !elem_of_cons. tauto.
    + rewrite !elem_of_cons, IH. tauto.
Qed.

Lemma sorted_elem key y l : y ∈ sorted key l ↔ y ∈ l.
Proof.
  induction l as [|x l IH]; [done|]. unfold sorted in *. simpl.
  rewrite insert_sorted_elem, IH, elem_of_cons. tauto.
Qed.

End StrFacts.

(** ** Paths: facts *)

Module PathFacts.
Import Str StrFacts Path.

Lemma components_nonempty p : components p ≠ [].
Proof.
  induction p as [|c p IH]; [done|]. simpl.
  destruct (is_sep c); [done|]. by destruct (components p).
Qed.

(** Splitting at a separator splits the components. *)
Lemma components_app_sep a c b :
  is_sep c = true →
  components (a +:+ String c b) = components a ++ components b.
Proof.
  intros Hc. induction a as [|x a IH].
  - simpl. by rewrite Hc.
  - rewrite sapp_cons. simpl. rewrite IH.
    destruct (is_sep x); [done|].
    pose proof (components_nonempty a). by destruct (components a).
Qed.

Lemma components_no_sep s : Wf.no_sep s = true → components s = [s].
Proof.
  induction s as [|c s IH]; [done|]. simpl.
  intros [Hc Hs]%andb_true_iff.
  apply negb_true_iff in Hc. rewrite Hc. by rewrite IH.
Qed.

Lemma components_lower p : components (lower p) = map lower (components p).
Proof.
  induction p as [|c p IH]; [done|]. simpl.
  rewrite is_sep_lower_char, IH.
  destruct (is_sep c); [done|].
  pose proof (components_nonempty p). by destruct (components p).
Qed.

Lemma last_snoc s c : last (s +:+ String c "") = Some c.
Proof.
  induction s as [|x s IH]; [done|]. rewrite sapp_cons.
  simpl. rewrite IH. by destruct s.
Qed.

Lemma last_inv s c : last s = Some c → ∃ s', s = s' +:+ String c "".
Proof.
  induction s as [|x s IH]; [done|]. simpl.
  destruct s as [|y s].
  - intros [= ->]. by exists "".
  - intros H. destruct (IH H) as [s' Hs']. exists (String x s').
    by rewrite sapp_cons, <- Hs'.
Qed.

Lemma last_app_cons a c b : last (a +:+ String c b) = last (String c b).
Proof.
  induction a as [|x a IH]; [done|]. rewrite sapp_cons.
  change (last (String x (a +:+ String c b)))
    with (match a +:+ String c b with
          | "" => Some x
          | String _ _ => last (a +:+ String c b)
          end).
  rewrite IH. destruct a; reflexivity.
Qed.

(** A relative second part is appended to the first, which gets a
    backslash if it needs one. *)
Lemma join_rel a p : isabs p = false → join a p = join a "" +:+ p.
Proof.
  intros Hp. unfold join. rewrite Hp. simpl.
  destruct (last a) as [c|]; [|done].
  destruct (is_sep c).
  - by rewrite sapp_nil_r.
  - by rewrite sapp_nil_r, sapp_assoc.
Qed.

Lemma isabs_valid_name s : Wf.valid_name s = true → isabs s = false.
Proof.
  unfold Wf.valid_name. intros [_ Hs]%andb_true_iff.
  destruct s as [|c s]; [done|]. simpl in *.
  apply andb_true_iff in Hs as [Hc _]. by apply negb_true_iff.
Qed.

Lemma isabs_app a b : a ≠ "" → isabs (a +:+ b) = isabs a.
Proof. by destruct a. Qed.

(** A joined path ends like its second part. *)
Lemma last_join a c p :
  is_sep c = false → last (join a (String c p)) = last (String c p).
Proof.
  intros Hc. rewrite join_rel; [|simpl; exact Hc].
  apply last_app_cons.
Qed.

End PathFacts.

(** ** The file system: facts *)

Module FsFacts.
Import Str StrFacts Path PathFacts Fs.

Lemma same_name_lower_r n c : same_name n (lower c) = same_name n c.
Proof. unfold same_name. by rewrite lower_idemp. Qed.

Lemma same_name_refl n : same_name n n = true.
Proof. unfold same_name. apply String.eqb_refl. Qed.

Lemma same_name_sym a b : same_name a b = same_name b a.
Proof. unfold same_name. apply String.eqb_sym. Qed.

Lemma same_name_trans a b c :
  same_name a b = true → same_name b c = same_name a c.
Proof.
  unfold same_name. intros H%String.eqb_eq. by rewrite H.
Qed.

Lemma find_entry_lower c es : find_entry (lower c) es = find_entry c es.
Proof.
  induction es as [|[n x] es IH]; [done|]. simpl.
  by rewrite same_name_lower_r, IH.
Qed.

Lemma stays_lower c : stays (lower c) = stays c.
Proof.
  unfold stays. destruct c as [|x c]; [done|]. simpl.
  rewrite lower_char_dot.
  destruct c as [|y c]; simpl; by destruct (Ascii.eqb x ".").
Qed.

Lemma step_lower n c : step n (lower c) = step n c.
Proof.
  unfold step. rewrite stays_lower. destruct (stays c); [done|].
  destruct n; [done|]. apply find_entry_lower.
Qed.

(** Resolution does not see case. *)
Lemma descend_lower n comps : descend n (map lower comps) = descend n comps.
Proof.
  revert n. induction comps as [|c comps IH]; intros n; [done|]. simpl.
  rewrite step_lower. destruct (step n c); [apply IH|done].
Qed.

Lemma resolve_lower t p : resolve t (lower p) = resolve t p.
Proof. unfold resolve. by rewrite components_lower, descend_lower. Qed.

Lemma descend_app n l1 l2 :
  descend n (l1 ++ l2) = descend n l1 ≫= λ n', descend n' l2.
Proof.
  revert n. induction l1 as [|c l1 IH]; intros n; [done|]. simpl.
  destruct (step n c); [apply IH|done].
Qed.

(** Resolving a joined path is resolving its first part and going on
    from there. *)
Lemma resolve_join t a rel :
  isabs rel = false →
  resolve t (join a rel) = resolve t a ≫= λ n, descend n (components rel).
Proof.
  intros Hrel. rewrite join_rel by done. unfold resolve, join. simpl.
  destruct (last a) as [c|] eqn:Hlast.
  - destruct (last_inv _ _ Hlast) as [a' ->].
    destruct (is_sep c) eqn:Hc.
    + rewrite !sapp_nil_r, !sapp_assoc, !sapp_cons.
      change ("" +:+ rel) with rel.
      rewrite !components_app_sep by done.
      rewrite !descend_app. simpl.
      destruct (descend t (components a')) as [n|]; simpl; [|done].
      reflexivity.
    + rewrite sapp_nil_r.
      rewrite (sapp_assoc (a' +:+ String c "")).
      change (sep +:+ rel) with (String backslash rel).
      rewrite (components_app_sep (a' +:+ String c "")) by done.
      by rewrite descend_app.
  - simpl. destruct a as [|x a].
    + simpl. reflexivity.
    + exfalso. clear -Hlast. revert x Hlast.
      induction a as [|y a IH]; intros x; simpl; [done|]. apply IH.
Qed.

End FsFacts.

(** ** Walking a well-formed tree *)

Module WalkFacts.
Import Str StrFacts Path PathFacts Fs FsFacts Wf.

Lemma node_ind' (P : node → Prop) :
  (∀ m d, P (File m d)) →
  (∀ m es, Forall (λ e, P (snd e)) es → P (Dir m es)) →
  ∀ n, P n.
Proof.
  intros HF HD. fix IH 1. intros [m d|m es]; [apply HF|].
  apply HD. induction es as [|[s x] es IHes]; constructor; [apply IH|apply IHes].
Qed.

Lemma walk_paths_app l1 l2 : walk_paths (l1 ++ l2) = walk_paths l1 ++ walk_paths l2.
Proof. unfold walk_paths. apply flat_map_app. Qed.

(** [os.walk] meets the files in the order of [rel_files]. *)
Lemma walk_paths_walk n : ∀ top,
  walk_paths (walk top n) = map (λ e, join_all top (fst (fst e))) (rel_files n).
Proof.
  induction n as [m d|m es IH] using node_ind'; intros top; [done|].
  simpl. rewrite map_app. f_equal.
  - clear IH. unfold file_names.
    induction es as [|[name x] es IHes]; [done|]. simpl.
    destruct x; simpl; by rewrite IHes.
  - induction es as [|[name x] es IHes]; [done|]. simpl.
    inversion IH as [|? ? Hx Hes]; subst.
    rewrite walk_paths_app, map_app, (IHes Hes). f_equal.
    simpl in Hx. rewrite Hx, map_map. apply map_ext. by intros [[cs m'] d'].
Qed.

Lemma last_no_sep s c : no_sep s = true → last s = Some c → is_sep c = false.
Proof.
  induction s as [|x s IH]; [done|]. simpl.
  intros [Hx Hs]%andb_true_iff. destruct s as [|y s].
  - intros [= <-]. by apply negb_true_iff.
  - by apply IH.
Qed.

Lemma valid_name_inv s :
  valid_name s = true →
  ∃ c s', s = String c s' ∧ is_sep c = false ∧ no_sep s = true ∧ stays s = false.
Proof.
  unfold valid_name. intros [Hst Hs]%andb_true_iff.
  apply negb_true_iff in Hst. destruct s as [|c s']; [done|].
  exists c, s'. repeat split; try done.
  simpl in Hs. apply andb_true_iff in Hs as [Hc _]. by apply negb_true_iff.
Qed.

(** Joining onto a path that ends in a valid name adds a backslash. *)
Lemma join_after_name top c rel :
  valid_name c = true → isabs rel = false →
  join (join top c) rel = join top "" +:+ c +:+ sep +:+ rel.
Proof.
  intros Hc Hrel.
  destruct (valid_name_inv _ Hc) as (x & c' & -> & Hx & Hns & _).
  rewrite (join_rel (join top _)) by done.
  rewrite (join_rel top (String x c')) by (simpl; exact Hx).
  unfold join at 1. simpl isabs. cbv iota.
  rewrite last_app_cons.
  destruct (last (String x c')) as [l|] eqn:Hl.
  - rewrite (last_no_sep _ _ Hns Hl). by rewrite !sapp_assoc.
  - exfalso. clear -Hl. revert x Hl. induction c' as [|y c' IH]; intros x; simpl; [done|].
    apply IH.
Qed.

Lemma isabs_concat comps :
  Forall (λ c, valid_name c = true) comps → isabs (concat_with sep comps) = false.
Proof.
  intros H. destruct H as [|c cs Hc Hcs]; [done|].
  destruct (valid_name_inv _ Hc) as (x & c' & -> & Hx & _).
  destruct cs; simpl; done.
Qed.

(** The path of a file some valid names below [top]. *)
Lemma join_all_valid comps : ∀ top,
  Forall (λ c, valid_name c = true) comps → comps ≠ [] →
  join_all top comps = join top "" +:+ concat_with sep comps.
Proof.
  induction comps as [|c cs IH]; intros top Hall Hne; [done|].
  inversion Hall as [|? ? Hc Hcs]; subst.
  unfold join_all. simpl foldl. fold (join_all (join top c) cs).
  destruct cs as [|c2 cs].
  - simpl. apply join_rel. by apply isabs_valid_name.
  - rewrite IH by done.
    rewrite <- join_rel by (by apply isabs_concat).
    rewrite join_after_name by (try done; by apply isabs_concat).
    reflexivity.
Qed.

Lemma components_concat comps :
  Forall (λ c, valid_name c = true) comps → comps ≠ [] →
  components (concat_with sep comps) = comps.
Proof.
  induction comps as [|c cs IH]; intros Hall Hne; [done|].
  inversion Hall as [|? ? Hc Hcs]; subst.
  destruct (valid_name_inv _ Hc) as (x & c' & -> & Hx & Hns & _).
  destruct cs as [|c2 cs].
  - simpl concat_with. by apply components_no_sep.
  - change (concat_with sep (String x c' :: c2 :: cs))
      with (String x c' +:+ String backslash (concat_with sep (c2 :: cs))).
    rewrite components_app_sep by done.
    rewrite IH by done. by rewrite components_no_sep.
Qed.

(** *** Entries of a well-formed directory *)

Lemma wf_entry m es name x :
  wf (Dir m es) = true → In (name, x) es → valid_name name = true ∧ wf x = true.
Proof.
  simpl. intros [[Hv _]%andb_true_iff Hall]%andb_true_iff Hin.
  rewrite forallb_forall in Hv, Hall. split.
  - apply Hv. by apply (in_map fst) in Hin.
  - by apply (Hall (name, x)).
Qed.

Lemma find_entry_distinct es name x c :
  distinct (map fst es) = true → In (name, x) es → same_name name c = true →
  find_entry c es = Some x.
Proof.
  induction es as [|[n0 x0] es IH]; [done|]. simpl.
  intros [Hfresh Hd]%andb_true_iff [[= -> ->]|Hin] Hc.
  - by rewrite Hc.
  - destruct (same_name n0 c) eqn:Hn0; [|by apply IH].
    exfalso. apply negb_true_iff in Hfresh.
    assert (existsb (same_name n0) (map fst es) = true); [|congruence].
    apply existsb_exists. exists name. split; [by apply (in_map fst) in Hin|].
    rewrite <- (same_name_trans _ _ name Hn0). by rewrite same_name_sym.
Qed.

Lemma step_entry m es name x :
  wf (Dir m es) = true → In (name, x) es → step (Dir m es) name = Some x.
Proof.
  intros Hwf Hin. destruct (wf_entry _ _ _ _ Hwf Hin) as [Hv _].
  destruct (valid_name_inv _ Hv) as (_ & _ & _ & _ & _ & Hst).
  unfold step. rewrite Hst. simpl in Hwf.
  apply andb_true_iff in Hwf as [[_ Hd]%andb_true_iff _].
  eapply find_entry_distinct; eauto using same_name_refl.
Qed.

Lemma rel_files_inv m es cs mt d :
  In (cs, mt, d) (rel_files (Dir m es)) →
  (In (hd "" cs, File mt d) es ∧ cs = [hd "" cs]) ∨
  (∃ name sub cs', In (name, sub) es ∧ cs = name :: cs' ∧ In (cs', mt, d) (rel_files sub)).
Proof.
  simpl. rewrite in_app_iff, !in_flat_map.
  intros [([name x] & Hin & Hx)|([name sub] & Hin & Hsub)].
  - left. destruct x as [m' d'|]; [|done].
    destruct Hx as [[= <- <- <-]|[]]. by split.
  - right. apply in_map_iff in Hsub as ([[cs' m'] d'] & [= <- <- <-] & Hin').
    by exists name, sub, cs'.
Qed.

(** Every file met by the walk lies where its names say, and its names
    are valid. *)
Lemma rel_files_coherent n : ∀ cs mt d,
  wf n = true → In (cs, mt, d) (rel_files n) →
  descend n cs = Some (File mt d)
  ∧ Forall (λ c, valid_name c = true) cs ∧ cs ≠ [].
Proof.
  induction n as [m d0|m es IH] using node_ind'; intros cs mt d Hwf Hin; [done|].
  apply rel_files_inv in Hin as [[Hin Hcs]|(name & sub & cs' & Hin & -> & Hsub)].
  - rewrite Hcs. destruct (wf_entry _ _ _ _ Hwf Hin) as [Hv _].
    simpl. rewrite (step_entry _ _ _ _ Hwf Hin). repeat split; [|done].
    by constructor.
  - destruct (wf_entry _ _ _ _ Hwf Hin) as [Hv Hwfsub].
    rewrite List.Forall_forall in IH.
    destruct (IH (name, sub) Hin cs' mt d Hwfsub Hsub) as (Hd & Hall & Hne).
    simpl descend. rewrite (step_entry _ _ _ _ Hwf Hin).
    repeat split; [done| |done]. by constructor.
Qed.

End WalkFacts.

(** ** How the parts of [CalculateHash] run *)

Lemma add_events_nil w : add_events [] w = w.
Proof. destruct w; unfold add_events; simpl. by rewrite app_nil_r. Qed.

Lemma add_events_app evs1 evs2 w :
  add_events evs2 (add_events evs1 w) = add_events (evs1 ++ evs2) w.
Proof. unfold add_events; simpl. by rewrite app_assoc. Qed.

Lemma with_event_add e w : with_event e w = add_events [e] w.
Proof. reflexivity. Qed.

(** Unfold the calls of the monad, outermost definitions first. *)
Ltac unfold_m :=
  repeat progress
    unfold os_utime, os_mkdir, os_remove, time_sleep, time_time, print, print_stderr,
      sidecar_exists, os_listdir, os_path_getmtime, read_file, os_path_isdir,
      os_path_isfile, assert, emit, modify, gets, ret, raise, bind in *.

Lemma flat_map_filter_lower walked :
  flat_map (λ '(base, _, files),
              let paths := map (Path.join base) files in
              map Str.lower
                (List.filter (λ x, negb (Str.contains crash_reports x)) paths))
           walked
  = map Str.lower (List.filter not_crash_report (walk_paths walked)).
Proof.
  induction walked as [|[[base dirs] files] walked IH]; simpl in *; [done|].
  rewrite IH, List.filter_app, map_app. reflexivity.
Qed.

Lemma GetFileList_run root w :
  GetFileList root w =
  if GetFileList_accepts root then (Ok (file_list_of (tree w) root), w)
  else (Raised AssertionError, w).
Proof.
  unfold GetFileList, GetFileList_accepts, file_list_of. unfold_m.
  destruct (Path.isabs root); simpl; [done|].
  destruct (String.eqb (Path.normpath root) root); simpl; [|done].
  by rewrite flat_map_filter_lower.
Qed.

(** The comparison loop only looks. *)
Lemma timestamps_match_state vc_dir pairs w :
  snd (timestamps_match vc_dir pairs w) = w.
Proof.
  induction pairs as [|[disk cached] rest IH]; simpl; [done|].
  destruct (negb (String.eqb disk cached.1)); [done|].
  destruct (negb (String.eqb disk vc_dir)); [|done].
  unfold_m; simpl.
  destruct (Fs.getmtime (tree w) disk) as [m|]; simpl; [|done].
  destruct (negb (Qeq_bool m cached.2)); [done|]. apply IH.
Qed.

(** It gives the same answer in two worlds that agree on the modification
    times of the listed files, the touched directory apart. *)
Lemma timestamps_match_agree vc_dir pairs w1 w2 :
  (∀ disk, disk ∈ map fst pairs → disk ≠ vc_dir →
           Fs.getmtime (tree w1) disk = Fs.getmtime (tree w2) disk) →
  fst (timestamps_match vc_dir pairs w1) = fst (timestamps_match vc_dir pairs w2).
Proof.
  induction pairs as [|[disk cached] rest IH]; intros Hagree; simpl; [done|].
  destruct (negb (String.eqb disk cached.1)); [done|].
  destruct (String.eqb_spec disk vc_dir) as [->|Hne]; simpl.
  - apply IH. intros d Hd. apply Hagree. simpl. by right.
  - unfold_m; simpl.
    rewrite (Hagree disk); [|simpl; by left|done].
    destruct (Fs.getmtime (tree w2) disk) as [m|]; simpl; [|done].
    destruct (negb (Qeq_bool m cached.2)); [done|].
    apply IH. intros d Hd. apply Hagree. simpl. by right.
Qed.

(** The digest loop reads every listed file, in order, and changes nothing
    else. *)
Lemma hash_files_state root expected_hash digest file_list w :
  ∃ evs, snd (hash_files root expected_hash digest file_list w) = add_events evs w
         ∧ Forall (λ e, ∃ p, e = EvReadFile p ∧ p ∈ file_list) evs.
Proof.
  revert digest w. induction file_list as [|path rest IH]; intros digest w; simpl.
  - exists []. by rewrite add_events_nil.
  - unfold_m; simpl.
    destruct (Fs.read (tree w) path) as [data|]; simpl.
    + match goal with |- context [hash_files _ _ ?d rest ?w'] =>
        destruct (IH d w') as (evs & Hsnd & Hall) end.
      exists (EvReadFile path :: evs). rewrite Hsnd, with_event_add, add_events_app.
      split; [done|]. constructor.
      * exists path. split; [done|]. by left.
      * eapply Forall_impl; [exact Hall|]. intros e (p & -> & Hp).
        exists p. split; [done|]. by right.
    + exists []. by rewrite add_events_nil.
Qed.

Lemma hash_files_agree root expected_hash digest file_list w1 w2 :
  (∀ path, path ∈ file_list → Fs.read (tree w1) path = Fs.read (tree w2) path) →
  fst (hash_files root expected_hash digest file_list w1)
  = fst (hash_files root expected_hash digest file_list w2).
Proof.
  revert digest w1 w2.
  induction file_list as [|path rest IH]; intros digest w1 w2 Hagree; simpl; [done|].
  unfold_m; simpl.
  rewrite (Hagree path); [|by left].
  destruct (Fs.read (tree w2) path) as [data|]; simpl; [|done].
  apply IH. intros p Hp. simpl. apply Hagree. by right.
Qed.

(** ** [CalculateHash], step by step *)

Lemma timestamps_match_run vc_dir pairs w :
  timestamps_match vc_dir pairs w = (fst (timestamps_match vc_dir pairs w), w).
Proof.
  rewrite <- (timestamps_match_state vc_dir pairs w) at 3.
  by destruct (timestamps_match vc_dir pairs w).
Qed.

(** What [CalculateHash] does, with its parts named. *)
Lemma CalculateHash_unfold root expected_hash w :
  CalculateHash root expected_hash w =
  let full := version_root root expected_hash in
  if GetFileList_accepts full then
    let file_list := file_list_of (tree w) full in
    let recorded := loaded_timestamps root expected_hash w in
    let w1 := after_load root expected_hash w in
    if Nat.eqb (length file_list) (length (td_files recorded)) then
      match fst (timestamps_match (vc_dir_of root expected_hash)
                   (zip file_list (td_files recorded)) w1) with
      | Ok true => (Ok (td_sha1 recorded), w1)
      | Ok false => rehash root expected_hash file_list w1
      | Raised e => (Raised e, w1)
      end
    else rehash root expected_hash file_list w1
  else (Raised AssertionError, w).
Proof.
  unfold CalculateHash, loaded_timestamps, after_load, rehash, vc_dir_of.
  unfold version_root.
  cbv zeta. unfold bind at 1. rewrite GetFileList_run.
  destruct (GetFileList_accepts _); [|done].
  unfold bind at 1. unfold gets at 1.
  destruct (sidecars w !! _) as [[|d]|]; unfold bind at 1; unfold_m; simpl;
    (match goal with |- context [Nat.eqb ?a ?b] => destruct (Nat.eqb a b) end;
     [match goal with |- context [timestamps_match ?v ?p ?w1] =>
        pose proof (timestamps_match_state v p w1) as Hst;
        destruct (timestamps_match v p w1) as [[[]|] w2]; simpl in Hst; subst w2
      end|];
     reflexivity).
Qed.

Lemma tree_after_load root expected_hash w :
  tree (after_load root expected_hash w) = tree w.
Proof. unfold after_load. by destruct (sidecars w !! _). Qed.

Lemma sidecars_after_load root expected_hash w :
  sidecars (after_load root expected_hash w) = sidecars w.
Proof. unfold after_load. by destruct (sidecars w !! _). Qed.

(** The file list, from the directory that [root] names. *)
Lemma file_list_of_resolved t full n :
  Fs.resolve t full = Some n →
  file_list_of t full =
  Str.sorted Str.backslashes
    (map Str.lower (List.filter not_crash_report (listed_paths full n))).
Proof.
  intros Hres. unfold file_list_of, Fs.os_walk, listed_paths. rewrite Hres.
  by rewrite WalkFacts.walk_paths_walk.
Qed.

Lemma file_list_of_missing t full :
  Fs.resolve t full = None → file_list_of t full = [].
Proof. intros Hres. unfold file_list_of, Fs.os_walk. by rewrite Hres. Qed.

(** In a well-formed directory the lower-cased path of a listed file
    leads back to that file. *)
Lemma listed_resolves t full n cs m d :
  Fs.resolve t full = Some n → Wf.wf n = true →
  In (cs, m, d) (Wf.rel_files n) →
  Fs.resolve t (Str.lower (Wf.join_all full cs)) = Some (File m d).
Proof.
  intros Hres Hwf Hin.
  destruct (WalkFacts.rel_files_coherent n cs m d Hwf Hin) as (Hd & Hall & Hne).
  rewrite FsFacts.resolve_lower, WalkFacts.join_all_valid by done.
  rewrite <- PathFacts.join_rel by (by apply WalkFacts.isabs_concat).
  rewrite FsFacts.resolve_join by (by apply WalkFacts.isabs_concat).
  rewrite Hres. simpl. by rewrite WalkFacts.components_concat.
Qed.

(** Every path of the file list comes from a file of the directory. *)
Lemma file_list_of_inv t full n p :
  Fs.resolve t full = Some n → In p (file_list_of t full) →
  ∃ cs m d, In (cs, m, d) (Wf.rel_files n)
            ∧ not_crash_report (Wf.join_all full cs) = true
            ∧ p = Str.lower (Wf.join_all full cs).
Proof.
  intros Hres Hin. rewrite (file_list_of_resolved _ _ _ Hres) in Hin.
  apply list_elem_of_In, StrFacts.sorted_elem, list_elem_of_In in Hin.
  apply in_map_iff in Hin as (q & <- & Hq).
  apply filter_In in Hq as [Hq Hnc]. unfold listed_paths in Hq.
  apply in_map_iff in Hq as ([[cs m] d] & <- & Hin).
  by exists cs, m, d.
Qed.

(** The digest loop in two worlds whose listed files read the same. *)
Lemma rehash_agree root expected_hash file_list w1 w2 :
  (∀ p, In p file_list → Fs.read (tree w1) p = Fs.read (tree w2) p) →
  fst (rehash root expected_hash file_list w1)
  = fst (rehash root expected_hash file_list w2).
Proof.
  intros Hagree. unfold rehash. unfold bind at 1 3. unfold print, emit, modify. 
  unfold bind.
  match goal with |- context [hash_files ?r ?h ?d ?l ?wa] =>
    match goal with |- context [hash_files r h d l ?wb] =>
      assert_fails (constr_eq wa wb);
      pose proof (hash_files_agree r h d l wa wb) as Heq
    end end.
  simpl in Heq. specialize (Heq ltac:(intros p Hp; apply Hagree; by apply list_elem_of_In)).
  destruct (hash_files _ _ _ _ _) as [[]?], (hash_files _ _ _ _ _) as [[]?];
    simpl in *; congruence.
Qed.

(** [CalculateHash] answers the same in two worlds that have the same
    sidecar and the same file list, and agree on the modification times
    and contents of the listed files. *)
Lemma CalculateHash_agree root expected_hash w1 w2 :
  sidecars w1 !! sidecar_key (MakeTimestampsFileName root expected_hash)
  = sidecars w2 !! sidecar_key (MakeTimestampsFileName root expected_hash) →
  file_list_of (tree w1) (version_root root expected_hash)
  = file_list_of (tree w2) (version_root root expected_hash) →
  (∀ p, In p (file_list_of (tree w1) (version_root root expected_hash)) →
        Fs.getmtime (tree w1) p = Fs.getmtime (tree w2) p
        ∧ Fs.read (tree w1) p = Fs.read (tree w2) p) →
  fst (CalculateHash root expected_hash w1) = fst (CalculateHash root expected_hash w2).
Proof.
  intros Hsc Hfl Hagree. rewrite !CalculateHash_unfold. cbv zeta.
  destruct (GetFileList_accepts _); [|done].
  assert (Hrec : loaded_timestamps root expected_hash w1
                 = loaded_timestamps root expected_hash w2).
  { unfold loaded_timestamps. by rewrite Hsc. }
  rewrite <- Hfl, <- Hrec.
  set (fl := file_list_of (tree w1) _) in *.
  set (rec := loaded_timestamps root expected_hash w1).
  assert (Hrehash : fst (rehash root expected_hash fl (after_load root expected_hash w1))
                    = fst (rehash root expected_hash fl (after_load root expected_hash w2))).
  { apply rehash_agree. intros p Hp. rewrite !tree_after_load. by apply Hagree. }
  destruct (Nat.eqb _ _); [|done].
  rewrite (timestamps_match_agree _ _ (after_load root expected_hash w1)
             (after_load root expected_hash w2)).
  - destruct (fst (timestamps_match _ _ _)) as [[]|]; done.
  - intros disk Hin _. rewrite !tree_after_load. apply Hagree.
    apply list_elem_of_In in Hin. apply in_map_iff in Hin as ([p c] & <- & Hin).
    apply list_elem_of_In in Hin. by apply elem_of_zip_l, list_elem_of_In in Hin.
Qed.

(** ** Crash reports *)

Module PruneFacts.
Import Str StrFacts Path PathFacts Fs FsFacts Wf WalkFacts Listing.

Lemma rel_files_Dir m es :
  rel_files (Dir m es) = flat_map files_here es ++ flat_map files_below es.
Proof. reflexivity. Qed.

Lemma prune_Dir top m es :
  prune top (Dir m es) = Dir m (flat_map (prune_entry top) es).
Proof. reflexivity. Qed.

Lemma filter_push top name l :
  List.filter (kept top) (map (push name) l)
  = map (push name) (List.filter (kept (join top name)) l).
Proof.
  induction l as [|[[cs m] d] l IH]; [done|]. simpl. rewrite IH.
  unfold kept. simpl.
  change (join_all top (name :: cs)) with (join_all (join top name) cs).
  by destruct (not_crash_report _).
Qed.

(** Pruning removes from the walk exactly the files that [GetFileList]
    leaves out. *)
Lemma rel_files_prune n : ∀ top,
  rel_files (prune top n) = List.filter (kept top) (rel_files n).
Proof.
  induction n as [m d|m es IH] using node_ind'; intros top; [done|].
  rewrite prune_Dir, !rel_files_Dir, List.filter_app. f_equal.
  - clear IH. induction es as [|[name x] es IHes]; [done|].
    simpl flat_map. rewrite flat_map_app, List.filter_app, IHes. f_equal.
    destruct x as [m' d'|m' es']; simpl; [|done].
    unfold kept, join_all. simpl.
    by destruct (not_crash_report (join top name)).
  - induction es as [|[name x] es IHes]; [done|].
    inversion IH as [|? ? Hx Hes]; subst.
    simpl flat_map. rewrite flat_map_app, List.filter_app, (IHes Hes). f_equal.
    destruct x as [m' d'|m' es'].
    + simpl. by destruct (not_crash_report (join top name)).
    + change (prune_entry top (name, Dir m' es'))
        with [(name, prune (join top name) (Dir m' es'))].
      simpl flat_map. rewrite List.app_nil_r. unfold files_below.
      rewrite filter_push. f_equal. apply (Hx (join top name)).
Qed.

Lemma prune_names top es :
  ∀ y, In y (map fst (flat_map (prune_entry top) es)) → In y (map fst es).
Proof.
  induction es as [|[name x] es IH]; [done|]. intros y. simpl.
  rewrite map_app, in_app_iff. intros [Hy|Hy]; [|right; by apply IH].
  left. destruct x; [destruct (not_crash_report _)|]; simpl in Hy; tauto.
Qed.

Lemma prune_wf n : ∀ top, wf n = true → wf (prune top n) = true.
Proof.
  induction n as [m d|m es IH] using node_ind'; intros top; [done|].
  rewrite prune_Dir. simpl.
  intros [[Hv Hd]%andb_true_iff Hall]%andb_true_iff.
  apply andb_true_iff. split; [apply andb_true_iff; split|].
  - apply forallb_forall. intros y Hy%prune_names.
    rewrite forallb_forall in Hv. by apply Hv.
  - clear IH Hv Hall. induction es as [|[name x] es IHes]; [done|].
    simpl in Hd. apply andb_true_iff in Hd as [Hfresh Hd].
    simpl flat_map. rewrite map_app.
    assert (Hrest : distinct (map fst (flat_map (prune_entry top) es)) = true) by (by apply IHes).
    assert (Hhead : negb (existsb (same_name name) (map fst (flat_map (prune_entry top) es))) = true).
    { apply negb_true_iff. apply negb_true_iff in Hfresh.
      destruct (existsb _ (map fst (flat_map (prune_entry top) es))) eqn:Hex; [|done].
      apply existsb_exists in Hex as (y & Hy%prune_names & Hsame).
      assert (existsb (same_name name) (map fst es) = true); [|congruence].
      apply existsb_exists. by exists y. }
    destruct x; [destruct (not_crash_report _)|]; simpl; rewrite ?Hhead; done.
  - rewrite forallb_forall in Hall. apply forallb_forall.
    intros [name x] Hin. apply in_flat_map in Hin as ([name' x'] & Hin & Hx).
    rewrite List.Forall_forall in IH.
    destruct x' as [m' d'|m' es']; simpl in Hx.
    + destruct (not_crash_report (join top name')); [|done].
      destruct Hx as [[= <- <-]|[]]. done.
    + destruct Hx as [[= <- <-]|[]].
      apply (IH (name', Dir m' es') Hin). by apply (Hall (name', Dir m' es')).
Qed.

End PruneFacts.

(** ** Changing a modification time *)

Module RetimeFacts.
Import Str StrFacts Path PathFacts Fs FsFacts Wf WalkFacts Listing PruneFacts.

Lemma alter_entry_ext c g g' es :
  (∀ x, g x = g' x) → alter_entry c g es = alter_entry c g' es.
Proof.
  intros Hg. induction es as [|[n x] es IH]; [done|]. simpl.
  rewrite Hg, IH. reflexivity.
Qed.

Lemma alter_at_retimed cs m : ∀ n,
  alter_at cs (λ x, Some (with_mtime m x)) n = Some (retimed cs m n).
Proof.
  induction cs as [|c cs IH]; intros n; [done|]. simpl.
  destruct (stays c); [apply IH|]. destruct n as [|dm es]; [done|].
  by rewrite (alter_entry_ext _ _ (λ x, Some (retimed cs m x))).
Qed.

Lemma alter_entry_names c (g : node → node) es :
  map fst (alter_entry c (λ x, Some (g x)) es) = map fst es.
Proof.
  induction es as [|[n x] es IH]; [done|]. simpl.
  destruct (same_name n c); simpl; [done|]. by rewrite IH.
Qed.

(** An entry survives the change unless it is the one changed. *)
Lemma alter_entry_in c (g : node → node) es name x :
  In (name, x) es →
  In (name, x) (alter_entry c (λ y, Some (g y)) es)
  ∨ (same_name name c = true ∧ In (name, g x) (alter_entry c (λ y, Some (g y)) es)).
Proof.
  induction es as [|[n y] es IH]; [done|]. simpl.
  destruct (same_name n c) eqn:Hn; simpl.
  - intros [[= -> ->]|Hin]; [right; split; [done|by left]|left; by right].
  - intros [[= -> ->]|Hin]; [left; by left|].
    destruct (IH Hin) as [?|[? ?]]; [left; by right|right; split; [done|by right]].
Qed.

Lemma find_alter_entry c (g : node → node) es :
  find_entry c (alter_entry c (λ y, Some (g y)) es) = g <$> find_entry c es.
Proof.
  induction es as [|[n y] es IH]; [done|]. simpl.
  destruct (same_name n c) eqn:Hn; simpl; rewrite Hn; [done|apply IH].
Qed.

Lemma rel_files_with_mtime m n : rel_files (with_mtime m n) = rel_files n.
Proof. by destruct n. Qed.

Lemma wf_with_mtime m n : wf (with_mtime m n) = wf n.
Proof. by destruct n. Qed.

Lemma retimed_file cs m mt d :
  ∃ mt', retimed cs m (File mt d) = File mt' d.
Proof.
  induction cs as [|c cs IH]; simpl; [by eexists|].
  destruct (stays c); [exact IH|by eexists].
Qed.

Lemma retimed_dir cs m dm es :
  ∃ dm' es', retimed cs m (Dir dm es) = Dir dm' es'.
Proof.
  induction cs as [|c cs IH]; simpl; [by eexists _, _|].
  destruct (stays c); [exact IH|by eexists _, _].
Qed.

Lemma wf_retimed cs m : ∀ n, wf (retimed cs m n) = wf n.
Proof.
  induction cs as [|c cs IH]; intros n; [apply wf_with_mtime|]. simpl.
  destruct (stays c); [apply IH|]. destruct n as [|dm es]; [done|].
  simpl. rewrite alter_entry_names. f_equal.
  induction es as [|[n y] es IHes]; [done|]. simpl.
  destruct (same_name n c); simpl; [by rewrite IH|by rewrite IHes].
Qed.

Lemma rel_files_here dm es name mt d :
  In (name, File mt d) es → In ([name], mt, d) (rel_files (Dir dm es)).
Proof.
  intros Hin. rewrite rel_files_Dir. apply in_app_iff. left.
  apply in_flat_map. exists (name, File mt d). split; [done|]. by left.
Qed.

Lemma rel_files_below dm es name sub e :
  In (name, sub) es → In e (rel_files sub) → In (push name e) (rel_files (Dir dm es)).
Proof.
  intros Hin He. rewrite rel_files_Dir. apply in_app_iff. right.
  apply in_flat_map. exists (name, sub). split; [done|]. by apply in_map.
Qed.

(** The names met by the walk do not change. *)
Lemma rel_files_retimed_names cs m : ∀ n,
  map (λ e, fst (fst e)) (rel_files (retimed cs m n))
  = map (λ e, fst (fst e)) (rel_files n).
Proof.
  induction cs as [|c cs IH]; intros n; [by rewrite rel_files_with_mtime|]. simpl.
  destruct (stays c); [apply IH|]. destruct n as [|dm es]; [done|].
  rewrite !rel_files_Dir, !map_app. f_equal.
  - induction es as [|[n y] es IHes]; [done|]. simpl.
    destruct (same_name n c); simpl; [|by rewrite !map_app, IHes].
    rewrite !map_app. f_equal. destruct y as [mt d|dm' es'].
    + by destruct (retimed_file cs m mt d) as [mt' ->].
    + by destruct (retimed_dir cs m dm' es') as (? & ? & ->).
  - induction es as [|[n y] es IHes]; [done|]. simpl.
    destruct (same_name n c); simpl; [|by rewrite !map_app, IHes].
    rewrite !map_app. f_equal. rewrite !map_map.
    specialize (IH y). revert IH.
    generalize (rel_files (retimed cs m y)), (rel_files y). intros l1 l2.
    revert l2. induction l1 as [|[[cs1 m1] d1] l1 IHl]; intros [|[[cs2 m2] d2] l2];
      simpl; try done.
    intros [= -> Hrest]. f_equal. by apply IHl.
Qed.

(** A file met by the walk is met unchanged after the change, unless its
    names are those of the node changed. *)
Lemma rel_files_retimed_other cs m : ∀ n e,
  Forall (λ c, valid_name c = true) cs →
  In e (rel_files n) →
  In e (rel_files (retimed cs m n)) ∨ same_names (fst (fst e)) cs.
Proof.
  induction cs as [|c cs IH]; intros n e Hcs Hin.
  - left. simpl. by rewrite rel_files_with_mtime.
  - inversion Hcs as [|? ? Hc Hcs']; subst.
    destruct (valid_name_inv _ Hc) as (_ & _ & _ & _ & _ & Hst).
    simpl. rewrite Hst. destruct n as [|dm es]; [done|].
    destruct e as [[cs0 mt] d].
    apply rel_files_inv in Hin as [[Hin Hcs0]|(name & sub & cs1 & Hin & -> & Hsub)].
    + rewrite Hcs0.
      destruct (alter_entry_in c (retimed cs m) es _ _ Hin) as [Hkeep|[Hsame Hnew]].
      * left. by apply rel_files_here.
      * destruct cs as [|c2 cs].
        -- right. simpl. repeat constructor. done.
        -- left. inversion Hcs' as [|? ? Hc2 _]; subst.
           destruct (valid_name_inv _ Hc2) as (_ & _ & _ & _ & _ & Hst2).
           assert (Hfile : retimed (c2 :: cs) m (File mt d) = File mt d)
             by (simpl; by rewrite Hst2).
           rewrite Hfile in Hnew. by apply rel_files_here.
    + destruct (alter_entry_in c (retimed cs m) es _ _ Hin) as [Hkeep|[Hsame Hnew]].
      * left. by apply (rel_files_below _ _ name sub (cs1, mt, d)).
      * destruct (IH sub (cs1, mt, d) Hcs' Hsub) as [Hsub'|Hnames].
        -- left. by apply (rel_files_below _ _ name (retimed cs m sub) (cs1, mt, d)).
        -- right. simpl. by constructor.
Qed.

(** The node changed has the new time. *)
Lemma descend_retimed cs m : ∀ n,
  descend (retimed cs m n) cs = with_mtime m <$> descend n cs.
Proof.
  induction cs as [|c cs IH]; intros n; [done|]. simpl.
  unfold step. destruct (stays c) eqn:Hst; [apply IH|].
  destruct n as [|dm es]; [done|].
  rewrite find_alter_entry. destruct (find_entry c es); simpl; [apply IH|done].
Qed.

Lemma lower_same_name a b : same_name a b = true → lower a = lower b.
Proof. unfold same_name. by intros ?%String.eqb_eq. Qed.

(** Names that are the same up to case give the same lower-cased
    path. *)
Lemma lower_join_all_same top cs1 cs2 :
  same_names cs1 cs2 →
  Forall (λ c, valid_name c = true) cs1 → Forall (λ c, valid_name c = true) cs2 →
  cs1 ≠ [] →
  lower (join_all top cs1) = lower (join_all top cs2).
Proof.
  intros Hsame Hv1 Hv2 Hne.
  assert (Hne2 : cs2 ≠ []) by (by destruct Hsame).
  rewrite !join_all_valid, !lower_app by done. f_equal.
  clear Hne Hne2. induction Hsame as [|a b l1 l2 Hab Hrest IH]; [done|].
  inversion Hv1; inversion Hv2; subst.
  destruct Hrest as [|a2 b2 l1' l2' Hab2 Hrest'].
  - simpl. by apply lower_same_name.
  - change (concat_with sep (a :: a2 :: l1'))
      with (a +:+ sep +:+ concat_with sep (a2 :: l1')).
    change (concat_with sep (b :: b2 :: l2'))
      with (b +:+ sep +:+ concat_with sep (b2 :: l2')).
    rewrite !lower_app, (lower_same_name _ _ Hab). do 2 f_equal.
    apply IH; done.
Qed.

(** *** Changes below a resolved directory *)

Lemma alter_at_lower f cs : ∀ n, alter_at (map lower cs) f n = alter_at cs f n.
Proof.
  induction cs as [|c cs IH]; intros n; [done|]. simpl.
  rewrite stays_lower. destruct (stays c); [apply IH|].
  destruct n as [|dm es]; [done|]. do 2 f_equal.
  induction es as [|[n y] es IHes]; [done|]. simpl.
  rewrite same_name_lower_r, IH, IHes. reflexivity.
Qed.

Lemma alter_lower p f t : alter (lower p) f t = alter p f t.
Proof. unfold alter. by rewrite components_lower, alter_at_lower. Qed.

Lemma find_alter_entry_opt c g es x x' :
  find_entry c es = Some x → g x = Some x' →
  find_entry c (alter_entry c g es) = Some x'.
Proof.
  induction es as [|[n y] es IH]; [done|]. simpl.
  destruct (same_name n c) eqn:Hn.
  - intros [= ->] ->. simpl. by rewrite Hn.
  - intros Hf Hg. simpl. rewrite Hn. by apply IH.
Qed.

(** A change made through a longer path is seen from the shorter one. *)
Lemma alter_at_app f l1 l2 : ∀ t n n',
  descend t l1 = Some n → alter_at l2 f n = Some n' →
  ∃ t', alter_at (l1 ++ l2) f t = Some t' ∧ descend t' l1 = Some n'.
Proof.
  induction l1 as [|c l1 IH]; intros t n n' Hd Ha.
  - simpl in *. injection Hd as ->. by exists n'.
  - simpl in *. unfold step in *. destruct (stays c) eqn:Hst.
    + exact (IH t n n' Hd Ha).
    + destruct t as [|dm es]; [done|].
      destruct (find_entry c es) as [x|] eqn:Hf; [|done].
      destruct (IH x n n' Hd Ha) as (x' & Hx' & Hd').
      eexists. split; [reflexivity|]. simpl.
      by rewrite (find_alter_entry_opt _ _ _ _ _ Hf Hx').
Qed.

Lemma alter_join t a rel f n n' :
  resolve t a = Some n → isabs rel = false →
  alter_at (components rel) f n = Some n' →
  resolve (alter (join a rel) f t) a = Some n'.
Proof.
  intros Hres Hrel Ha. rewrite join_rel by done.
  unfold resolve, alter, join in *. simpl.
  destruct (last a) as [c|] eqn:Hlast.
  - destruct (last_inv _ _ Hlast) as [a' ->].
    destruct (is_sep c) eqn:Hc.
    + rewrite !sapp_nil_r, !sapp_assoc, !sapp_cons.
      change ("" +:+ rel) with rel.
      rewrite components_app_sep in Hres |- * by done.
      rewrite descend_app in Hres.
      destruct (descend t (components a')) as [n0|] eqn:Hd0; [|done].
      simpl in Hres. injection Hres as ->.
      destruct (alter_at_app f _ _ _ _ _ Hd0 Ha) as (t' & -> & Hd').
      rewrite components_app_sep by done.
      rewrite descend_app, Hd'. reflexivity.
    + rewrite sapp_nil_r.
      rewrite (sapp_assoc (a' +:+ String c "")).
      change (sep +:+ rel) with (String backslash rel).
      rewrite (components_app_sep (a' +:+ String c "")) by done.
      by destruct (alter_at_app f _ _ _ _ _ Hres Ha) as (t' & -> & Hd').
  - destruct a as [|x a].
    + simpl in *. injection Hres as Hn. subst.
      change ("" +:+ rel) with rel. by rewrite Ha.
    + exfalso. clear -Hlast. revert x Hlast.
      induction a as [|y a IH]; intros x; simpl; [done|]. apply IH.
Qed.

End RetimeFacts.

(** ** The comparison loop, read backwards *)

(** The loop answers [true] exactly when every pair passes the test. *)
Lemma timestamps_match_true vc_dir pairs w :
  fst (timestamps_match vc_dir pairs w) = Ok true ↔
  Forall (λ '(disk, cached),
            disk = fst cached ∧
            (disk = vc_dir ∨
             ∃ m, Fs.getmtime (tree w) disk = Some m ∧ Qeq_bool m (snd cached) = true))
         pairs.
Proof.
  induction pairs as [|[disk cached] rest IH]; simpl.
  - split; [by constructor|done].
  - destruct (String.eqb_spec disk cached.1) as [Heq|Hne]; simpl.
    2: { split; [done|]. intros H. inversion H as [|? ? Hhd _]; subst. by destruct Hhd. }
    destruct (String.eqb_spec disk vc_dir) as [Hvc|Hnvc]; simpl.
    + rewrite IH. split.
      * intros H. constructor; [|done]. split; [done|by left].
      * intros H. by inversion H.
    + unfold_m. simpl.
      destruct (Fs.getmtime (tree w) disk) as [m|] eqn:Hm; simpl.
      * destruct (Qeq_bool m cached.2) eqn:Hq; simpl.
        -- rewrite IH. split.
           ++ intros H. constructor; [|done]. split; [done|]. right. by exists m.
           ++ intros H. by inversion H.
        -- split; [done|]. intros H. inversion H as [|? ? Hhd _]; subst.
           destruct Hhd as [_ [?|(m0 & Hm0 & Hq0)]]; [done|congruence].
      * split; [done|]. intros H. inversion H as [|? ? Hhd _]; subst.
        destruct Hhd as [_ [?|(m0 & Hm0 & Hq0)]]; [done|congruence].
Qed.

(** It raises only when a listed file cannot be found. *)
Lemma timestamps_match_total vc_dir pairs w :
  (∀ disk, In disk (map fst pairs) → is_Some (Fs.getmtime (tree w) disk)) →
  ∃ b, fst (timestamps_match vc_dir pairs w) = Ok b.
Proof.
  induction pairs as [|[disk cached] rest IH]; intros Hall; simpl; [by exists true|].
  destruct (negb (String.eqb disk cached.1)); [by exists false|].
  assert (Hrest : ∃ b, fst (timestamps_match vc_dir rest w) = Ok b).
  { apply IH. intros d Hd. apply Hall. by right. }
  destruct (negb (String.eqb disk vc_dir)); [|done].
  unfold_m. simpl. destruct (Hall disk) as [m Hm]; [by left|]. rewrite Hm. simpl.
  destruct (negb (Qeq_bool m cached.2)); [by exists false|done].
Qed.

Lemma zip_fst_eq {A B} (f : B → A) (l : list A) (r : list B) :
  length l = length r →
  Forall (λ '(a, b), a = f b) (zip l r) →
  l = map f r.
Proof.
  revert r. induction l as [|a l IH]; intros [|b r]; simpl; try done.
  intros [= Hlen] H. inversion H; subst. f_equal. by apply IH.
Qed.

Lemma in_zip_map {B} (f : B → string) (r : list B) b :
  In b r → In (f b, b) (zip (map f r) r).
Proof.
  induction r as [|b0 r IH]; [done|]. simpl.
  intros [->|Hin]; [by left|right; by apply IH].
Qed.

(** A sidecar that validates records exactly the listed paths. *)
Lemma sidecar_validates_paths root expected_hash w :
  sidecar_validates root expected_hash w →
  file_list_of (tree w) (version_root root expected_hash)
  = map fst (td_files (loaded_timestamps root expected_hash w)).
Proof.
  intros [Hlen Hm]. apply zip_fst_eq; [done|].
  apply timestamps_match_true in Hm.
  eapply Forall_impl; [exact Hm|]. by intros [disk cached] [? _].
Qed.

(** The fast path of [CalculateHash]. *)
Lemma CalculateHash_validates root expected_hash w :
  GetFileList_accepts (version_root root expected_hash) = true →
  sidecar_validates root expected_hash w →
  CalculateHash root expected_hash w
  = (Ok (td_sha1 (loaded_timestamps root expected_hash w)),
     after_load root expected_hash w).
Proof.
  intros Hacc [Hlen Hm]. rewrite CalculateHash_unfold. cbv zeta. rewrite Hacc.
  rewrite Hlen, Nat.eqb_refl.
  rewrite (timestamps_match_agree _ _ (after_load root expected_hash w) w), Hm; [done|].
  intros disk _ _. by rewrite tree_after_load.
Qed.

(** The slow path, when the lengths differ. *)
Lemma CalculateHash_length_differs root expected_hash w :
  GetFileList_accepts (version_root root expected_hash) = true →
  length (file_list_of (tree w) (version_root root expected_hash))
  ≠ length (td_files (loaded_timestamps root expected_hash w)) →
  CalculateHash root expected_hash w
  = rehash root expected_hash (file_list_of (tree w) (version_root root expected_hash))
      (after_load root expected_hash w).
Proof.
  intros Hacc Hlen. rewrite CalculateHash_unfold. cbv zeta. rewrite Hacc.
  apply Nat.eqb_neq in Hlen. by rewrite Hlen.
Qed.

(** The slow path, when the comparison fails. *)
Lemma CalculateHash_mismatch root expected_hash w :
  GetFileList_accepts (version_root root expected_hash) = true →
  fst (timestamps_match (vc_dir_of root expected_hash)
         (zip (file_list_of (tree w) (version_root root expected_hash))
              (td_files (loaded_timestamps root expected_hash w))) w) = Ok false →
  CalculateHash root expected_hash w
  = rehash root expected_hash (file_list_of (tree w) (version_root root expected_hash))
      (after_load root expected_hash w).
Proof.
  intros Hacc Hm. rewrite CalculateHash_unfold. cbv zeta. rewrite Hacc.
  destruct (Nat.eqb _ _); [|done].
  rewrite (timestamps_match_agree _ _ (after_load root expected_hash w) w), Hm; [done|].
  intros disk _ _. by rewrite tree_after_load.
Qed.

(** ** One modification time changed below the version directory *)

Section Retime.
Import Str StrFacts Path PathFacts Fs FsFacts Wf WalkFacts Listing RetimeFacts.

Context (t : node) (full : string) (n : node) (cs : list string) (m' : timestamp).
Hypothesis Hres : resolve t full = Some n.
Hypothesis Hwf : wf n = true.
Hypothesis Hcs : Forall (λ c, valid_name c = true) cs.
Hypothesis Hne : cs ≠ [].

Lemma join_all_as_join : join_all full cs = join full (concat_with sep cs).
Proof.
  rewrite join_all_valid by done. symmetry. apply join_rel. by apply isabs_concat.
Qed.

Lemma set_mtime_resolve :
  resolve (set_mtime (join_all full cs) m' t) full = Some (retimed cs m' n).
Proof.
  unfold set_mtime. rewrite join_all_as_join.
  apply (alter_join _ _ _ _ n); [done|by apply isabs_concat|].
  rewrite components_concat by done. apply alter_at_retimed.
Qed.

Lemma set_mtime_file_list :
  file_list_of (set_mtime (join_all full cs) m' t) full = file_list_of t full.
Proof.
  rewrite (file_list_of_resolved _ _ _ set_mtime_resolve).
  rewrite (file_list_of_resolved _ _ _ Hres). unfold listed_paths.
  rewrite <- (map_map (λ e, fst (fst e)) (join_all full)).
  rewrite rel_files_retimed_names. by rewrite map_map.
Qed.

(** Every other listed file is found as before. *)
Lemma set_mtime_other p :
  In p (file_list_of t full) → p ≠ lower (join_all full cs) →
  resolve (set_mtime (join_all full cs) m' t) p = resolve t p.
Proof.
  intros Hin Hp.
  destruct (file_list_of_inv _ _ _ _ Hres Hin) as (cs0 & mt & d & Hin0 & _ & ->).
  rewrite (listed_resolves _ _ _ _ _ _ Hres Hwf Hin0).
  destruct (rel_files_retimed_other cs m' n (cs0, mt, d) Hcs Hin0) as [Hin'|Hsame].
  - apply (listed_resolves _ _ (retimed cs m' n)); [apply set_mtime_resolve| |done].
    by rewrite wf_retimed.
  - exfalso. apply Hp. simpl in Hsame.
    destruct (rel_files_coherent n cs0 mt d Hwf Hin0) as (_ & Hv0 & Hne0).
    by apply lower_join_all_same.
Qed.

(** The node at [cs] has the new time. *)
Lemma set_mtime_there x :
  descend n cs = Some x →
  getmtime (set_mtime (join_all full cs) m' t) (lower (join_all full cs)) = Some m'.
Proof.
  intros Hx. unfold getmtime. rewrite resolve_lower, join_all_as_join.
  rewrite resolve_join by (by apply isabs_concat).
  rewrite <- join_all_as_join, set_mtime_resolve. simpl.
  rewrite components_concat by done.
  rewrite descend_retimed, Hx. simpl. by destruct x.
Qed.

End Retime.

(** ** One file more *)

Section AddsFile.
Import Str StrFacts Path PathFacts Fs FsFacts Wf WalkFacts Listing PruneFacts.

Lemma adds_file_rel_files cs n n' :
  adds_file cs n n' →
  ∃ l1 l2 mt d, rel_files n = l1 ++ l2 ∧ rel_files n' = l1 ++ (cs, mt, d) :: l2.
Proof.
  induction 1 as [m es1 es2 name mt d|m es1 es2 name sub sub' cs Hadd IH].
  - exists (flat_map files_here es1),
           (flat_map files_here es2 ++ flat_map files_below es1
            ++ flat_map files_below es2), mt, d.
    rewrite !rel_files_Dir, !flat_map_app. simpl.
    by rewrite <- !app_assoc.
  - destruct IH as (l1 & l2 & mt & d & Hn & Hn').
    exists (flat_map files_here (es1 ++ (name, sub) :: es2)
            ++ flat_map files_below es1 ++ map (push name) l1),
           (map (push name) l2 ++ flat_map files_below es2), mt, d.
    rewrite !rel_files_Dir, !flat_map_app. simpl.
    rewrite Hn, Hn', !map_app. simpl.
    assert (Hhere : files_here (name, sub') = files_here (name, sub)).
    { destruct Hadd; reflexivity. }
    simpl in Hhere. rewrite Hhere.
    rewrite <- !app_assoc. simpl. done.
Qed.

(** One file more that is not a crash report is one path more in the
    file list. *)
Lemma adds_file_length t t' full cs n n' :
  resolve t full = Some n → resolve t' full = Some n' →
  adds_file cs n n' → not_crash_report (join_all full cs) = true →
  length (file_list_of t' full) = S (length (file_list_of t full)).
Proof.
  intros Hres Hres' Hadd Hnc.
  rewrite (file_list_of_resolved _ _ _ Hres), (file_list_of_resolved _ _ _ Hres').
  rewrite !sorted_length, !length_map. unfold listed_paths.
  destruct (adds_file_rel_files _ _ _ Hadd) as (l1 & l2 & mt & d & -> & ->).
  rewrite !map_app, !List.filter_app. simpl. rewrite Hnc.
  rewrite !length_app. simpl. lia.
Qed.

End AddsFile.

(** ** The crash-report test does not look at a lower-case name *)

Section CrashTest.
Import Str StrFacts Path PathFacts.

Lemma lower_cons_inv c s :
  lower (String c s) = String c s → lower_char c = c ∧ lower s = s.
Proof. simpl. by intros [= ? ?]. Qed.

(** A lower-case text in front changes nothing. *)
Lemma contains_crash_skip a S :
  lower a = a → contains crash_reports (a +:+ S) = contains crash_reports S.
Proof.
  induction a as [|c a IH]; [done|]. intros [Hc Ha]%lower_cons_inv.
  rewrite sapp_cons, contains_cons, (IH Ha).
  assert (Hsw : startswith crash_reports (String c (a +:+ S)) = false); [|by rewrite Hsw].
  change (startswith crash_reports (String c (a +:+ S)))
    with (Ascii.eqb "W" c && startswith "ER\ReportQueue" (a +:+ S)).
  destruct (Ascii.eqb_spec "W" c) as [<-|Hne]; [|done].
  by vm_compute in Hc.
Qed.

Lemma last_cons_nonempty c q s : last (String c (String q s)) = last (String q s).
Proof. reflexivity. Qed.

(** A match that begins in [Q] cannot run past its final separator. *)
Lemma startswith_upto_sep p T : ∀ Q,
  sep_safe p T → ends_with_sep Q →
  startswith p (Q +:+ T) = startswith p Q.
Proof.
  induction p as [|c p IH]; intros Q Hsafe Hends; [done|].
  destruct Hsafe as [Hc Hsafe].
  destruct Q as [|q Q]; [by destruct Hends as (? & ? & ?)|].
  rewrite sapp_cons. simpl. destruct Q as [|q2 Q].
  - destruct Hends as (x & [= <-] & Hsep).
    destruct (Ascii.eqb_spec c q) as [->|]; [|done]. simpl.
    change ("" +:+ T) with T. by apply Hc.
  - f_equal. apply IH; [done|]. destruct Hends as (x & Hx & Hsep).
    exists x. by rewrite last_cons_nonempty in Hx.
Qed.

Lemma crash_reports_sep_safe x a S :
  lower_char x = x → sep_safe crash_reports (String x a +:+ S).
Proof.
  intros Hx. unfold crash_reports.
  cbn [sep_safe]. repeat split; intros Hsep; try discriminate Hsep.
  rewrite sapp_cons.
  change (startswith "ReportQueue" (String x (a +:+ S)))
    with (Ascii.eqb "R" x && startswith "eportQueue" (a +:+ S)).
  destruct (Ascii.eqb_spec "R" x) as [<-|Hne]; [|done].
  by vm_compute in Hx.
Qed.

(** The crash-report test on a path with a lower-case name [a] in it
    looks only at what comes before and after the name. *)
Lemma contains_crash_split P a S :
  P = "" ∨ ends_with_sep P → a ≠ "" → lower a = a →
  contains crash_reports (P +:+ a +:+ S)
  = contains crash_reports P || contains crash_reports S.
Proof.
  intros HP Ha Hlow. destruct a as [|x a]; [done|].
  destruct (lower_cons_inv _ _ Hlow) as [Hx _]. clear Ha.
  induction P as [|c P IH].
  - change ("" +:+ String x a +:+ S) with (String x a +:+ S).
    by rewrite contains_crash_skip.
  - rewrite sapp_cons, !contains_cons, <- sapp_cons.
    rewrite IH.
    + rewrite (startswith_upto_sep _ _ (String c P)).
      * by rewrite orb_assoc.
      * by apply crash_reports_sep_safe.
      * by destruct HP.
    + destruct P as [|q P]; [by left|right].
      destruct HP as [|(y & Hy & Hsep)]; [done|].
      exists y. by rewrite last_cons_nonempty in Hy.
Qed.

Lemma join_empty_shape root : join root "" = "" ∨ ends_with_sep (join root "").
Proof.
  unfold join. simpl. destruct (last root) as [c|] eqn:Hlast; [|by left].
  right. destruct (is_sep c) eqn:Hc.
  - exists c. by rewrite sapp_nil_r.
  - exists backslash. split; [|done]. rewrite sapp_nil_r. apply last_snoc.
Qed.

End CrashTest.

(** ** Removing entries of the root *)

Module EvictFacts.
Import Fs.

Lemma same_name_eq a b : same_name a b = true ↔ Str.lower a = Str.lower b.
Proof. unfold same_name. apply String.eqb_eq. Qed.

Lemma distinct_filter (P : string * node → bool) es :
  Wf.distinct (map fst es) = true →
  Wf.distinct (map fst (List.filter P es)) = true.
Proof.
  induction es as [|[d n] es IH]; simpl; [done|].
  intros [Hd Hes]%andb_true_iff.
  destruct (P (d, n)); simpl; [|by apply IH].
  rewrite IH by done. rewrite andb_true_r.
  apply negb_true_iff. apply negb_true_iff in Hd.
  apply not_true_is_false. intros (x & Hx & Hsame)%existsb_exists.
  apply not_true_iff_false in Hd. apply Hd, existsb_exists.
  exists x. split; [|done].
  apply in_map_iff in Hx as (e & <- & He). apply List.filter_In in He as [He _].
  apply in_map_iff. by exists e.
Qed.

Lemma distinct_same_name names a b :
  Wf.distinct names = true → In a names → In b names →
  same_name a b = true → a = b.
Proof.
  induction names as [|x names IH]; simpl; [done|].
  intros [Hx Hrest]%andb_true_iff [->|Ha] [->|Hb] Hsame; try done.
  - apply negb_true_iff, not_true_iff_false in Hx. destruct Hx.
    apply existsb_exists. by exists b.
  - apply negb_true_iff, not_true_iff_false in Hx. destruct Hx.
    apply existsb_exists. exists a. split; [done|]. by rewrite FsFacts.same_name_sym.
  - by apply IH.
Qed.

Lemma distinct_NoDup names : Wf.distinct names = true → List.NoDup names.
Proof.
  induction names as [|x names IH]; simpl; [constructor|].
  intros [Hx Hrest]%andb_true_iff. constructor; [|by apply IH].
  intros Hin. apply negb_true_iff, not_true_iff_false in Hx. destruct Hx.
  apply existsb_exists. exists x. split; [done|]. apply FsFacts.same_name_refl.
Qed.

(** With distinct names, deleting the entry called [d] is filtering. *)
Lemma alter_entry_delete d es :
  Wf.distinct (map fst es) = true →
  alter_entry d (λ _, None) es
  = List.filter (λ e, negb (same_name (fst e) d)) es.
Proof.
  induction es as [|[x n] es IH]; simpl; [done|].
  intros [Hx Hrest]%andb_true_iff.
  destruct (same_name x d) eqn:Hsame; simpl; [|by rewrite IH].
  symmetry. apply forallb_filter_id. apply forallb_forall. intros [y n'] Hy. simpl.
  apply negb_true_iff, not_true_is_false. intros Hyd.
  apply negb_true_iff, not_true_iff_false in Hx. destruct Hx.
  apply existsb_exists. exists y. split; [apply in_map_iff; by exists (y, n')|].
  apply same_name_eq in Hsame, Hyd. apply same_name_eq. congruence.
Qed.

End EvictFacts.

Section RootEntries.
Context (root : string) (m : timestamp).

(** The entries of the root directory in the world [w]. *)
Local Abbreviation lists w es := (Fs.resolve (tree w) root = Some (Dir m es)).

Lemma resolve_entry t es d :
  Fs.resolve t root = Some (Dir m es) → Wf.valid_name d = true →
  Fs.resolve t (Path.join root d) = Fs.find_entry d es.
Proof.
  intros Hroot Hd.
  rewrite FsFacts.resolve_join by by apply PathFacts.isabs_valid_name.
  rewrite Hroot. simpl.
  apply andb_true_iff in Hd as [Hstays Hsep].
  rewrite (PathFacts.components_no_sep _ Hsep). simpl. unfold Fs.step.
  apply negb_true_iff in Hstays. rewrite Hstays.
  by destruct (Fs.find_entry d es).
Qed.

Lemma resolve_entry_below t es d c :
  Fs.resolve t root = Some (Dir m es) →
  Wf.valid_name d = true → Wf.valid_name c = true →
  Fs.resolve t (Path.join (Path.join root d) c) = Fs.find_entry d es ≫= λ n, Fs.step n c.
Proof.
  intros Hroot Hd Hc.
  rewrite FsFacts.resolve_join by by apply PathFacts.isabs_valid_name.
  rewrite (resolve_entry _ es) by done.
  destruct (Fs.find_entry d es) as [n|]; simpl; [|done].
  apply andb_true_iff in Hc as [_ Hsep].
  rewrite (PathFacts.components_no_sep _ Hsep). simpl.
  by destruct (Fs.step n c).
Qed.

Lemma remove_entry t es d :
  Fs.resolve t root = Some (Dir m es) → Wf.valid_name d = true →
  Wf.distinct (map fst es) = true →
  Fs.resolve (Fs.remove (Path.join root d) t) root
  = Some (Dir m (List.filter (λ e, negb (Fs.same_name (fst e) d)) es)).
Proof.
  intros Hroot Hd Hdist. unfold Fs.remove.
  apply (RetimeFacts.alter_join _ _ _ _ _ _ Hroot).
  - by apply PathFacts.isabs_valid_name.
  - apply andb_true_iff in Hd as [Hstays Hsep].
    rewrite (PathFacts.components_no_sep _ Hsep). simpl.
    apply negb_true_iff in Hstays. rewrite Hstays.
    by rewrite <- EvictFacts.alter_entry_delete.
Qed.

(** What [find_entry] finds is the only entry of that name. *)
Lemma find_entry_only es d :
  Wf.distinct (map fst es) = true →
  ∀ x n, In (x, n) es → Fs.same_name x d = true → Fs.find_entry d es = Some n.
Proof. intros Hdist x n Hin Hsame. by apply (WalkFacts.find_entry_distinct es x). Qed.

Lemma find_entry_absent es d :
  Fs.find_entry d es = None → ∀ x n, In (x, n) es → Fs.same_name x d = false.
Proof.
  induction es as [|[y n'] es IH]; simpl; [done|].
  destruct (Fs.same_name y d) eqn:Hy; [done|].
  intros Hnone x n [[= -> ->]|Hin]; [done|]. by apply (IH Hnone x n).
Qed.

Lemma find_entry_filter (P : string * node → bool) es d n :
  Wf.distinct (map fst es) = true → In (d, n) es →
  Fs.find_entry d (List.filter P es) = if P (d, n) then Some n else None.
Proof.
  intros Hdist Hin. destruct (P (d, n)) eqn:HP.
  - apply (WalkFacts.find_entry_distinct _ d); [by apply EvictFacts.distinct_filter| |apply FsFacts.same_name_refl].
    apply List.filter_In. by split.
  - destruct (Fs.find_entry d (List.filter P es)) as [n'|] eqn:Hfind; [|done].
    exfalso.
    assert (∃ x, In (x, n') (List.filter P es) ∧ Fs.same_name x d = true) as (x & Hx & Hsame).
    { clear -Hfind. induction (List.filter P es) as [|[y k] l IH]; simpl in *; [done|].
      destruct (Fs.same_name y d) eqn:Hy.
      - injection Hfind as ->. exists y. by split; [left|].
      - destruct (IH Hfind) as (x & Hx & Hs). exists x. by split; [right|]. }
    apply List.filter_In in Hx as [Hx HPx].
    assert (x = d) as ->.
    { apply (EvictFacts.distinct_same_name (map fst es)); [done| | |done].
      - apply in_map_iff. by exists (x, n').
      - apply in_map_iff. by exists (d, n). }
    pose proof (WalkFacts.find_entry_distinct es d n d Hdist Hin (FsFacts.same_name_refl d)) as H1.
    pose proof (WalkFacts.find_entry_distinct es d n' d Hdist Hx (FsFacts.same_name_refl d)) as H2.
    congruence.
Qed.

End RootEntries.

(** ** How the eviction runs *)

Lemma bind_ok {A B} (c : M A) (k : A → M B) w a w1 :
  c w = (Ok a, w1) → bind c k w = k a w1.
Proof. intros H. unfold bind. by rewrite H. Qed.

Lemma for_each_invariant {A} (I : World → Prop) (f : A → M unit) l :
  (∀ x w, In x l → I w → ∃ w', f x w = (Ok tt, w') ∧ I w') →
  ∀ w, I w → ∃ w', for_each f l w = (Ok tt, w') ∧ I w'.
Proof.
  induction l as [|x l IH]; intros Hstep w Hw; simpl.
  - by exists w.
  - destruct (Hstep x w (or_introl eq_refl) Hw) as (w1 & Hrun & Hw1).
    rewrite (bind_ok _ _ _ _ _ Hrun).
    apply IH; [|done]. intros y w2 Hy. apply Hstep. by right.
Qed.

Section Eviction.
Context (env : Env) (root : string) (m : timestamp).

Lemma undisturbed_refl w : undisturbed w w.
Proof. repeat split. apply Qle_refl. Qed.

Lemma DelayBeforeRemoving_run p w :
  ∃ w', DelayBeforeRemoving env p w = (Ok tt, w') ∧ undisturbed w w'
        ∧ (chrome_headless env = true → now w' = now w).
Proof.
  unfold DelayBeforeRemoving.
  rewrite (bind_ok _ _ w (Fs.isdir (tree w) p) w) by reflexivity.
  destruct (Fs.isdir (tree w) p && negb (chrome_headless env)) eqn:Hwait.
  - destruct (for_each_invariant (undisturbed w)
                (λ i : Z, run print (String "013" "Removing old toolchain in " +:+ pretty i
                                     +:+ "s... (Ctrl-C to cancel)") then time_sleep 1)
                [9; 8; 7; 6; 5; 4; 3; 2; 1]%Z) with (w := w) as (w1 & Hrun & Hw1).
    + intros i w0 _ (Ht & Hs & Hn). eexists. split; [reflexivity|].
      unfold undisturbed. simpl. repeat split; try done. lra.
    + apply undisturbed_refl.
    + rewrite (bind_ok _ _ _ _ _ Hrun). eexists. split; [reflexivity|].
      split; [exact Hw1|].
      intros Hh. rewrite Hh, andb_false_r in Hwait. discriminate.
  - exists w. split; [done|]. split; [apply undisturbed_refl|done].
Qed.

Lemma RemoveToolchain_run d delay w es :
  Fs.resolve (tree w) root = Some (Dir m es) →
  Wf.distinct (map fst es) = true → Wf.valid_name d = true →
  ∃ w', RemoveToolchain env root d delay w = (Ok tt, w')
        ∧ Fs.resolve (tree w') root = Some (Dir m (List.filter (keeps [d]) es))
        ∧ sidecars w' = delete (sidecar_key (MakeTimestampsFileName root d)) (sidecars w)
        ∧ (now w <= now w')%Q
        ∧ (delay = false ∨ chrome_headless env = true → now w' = now w).
Proof.
  intros Hroot Hdist Hd. unfold RemoveToolchain.
  assert (∃ w1, (if delay then DelayBeforeRemoving env (Path.join root d) else ret tt) w
                = (Ok tt, w1) ∧ undisturbed w w1
                ∧ (delay = false ∨ chrome_headless env = true → now w1 = now w))
    as (w1 & Hrun1 & (Ht1 & Hs1 & Hn1) & Hsame1).
  { destruct delay.
    - destruct (DelayBeforeRemoving_run (Path.join root d) w) as (w1 & ? & ? & Hh).
      exists w1. split; [done|]. split; [done|]. intros [?|?]; [done|by apply Hh].
    - exists w. split; [done|]. split; [apply undisturbed_refl|done]. }
  rewrite (bind_ok _ _ _ _ _ Hrun1).
  assert (∃ w2, (match sys_platform env with
                 | Win32 => for_each (λ process_name, emit (EvKill process_name))
                              ["mspdbsrv.exe"; "vctip.exe"]
                 | _ => ret tt
                 end) w1 = (Ok tt, w2)
                ∧ tree w2 = tree w1 ∧ sidecars w2 = sidecars w1 ∧ now w2 = now w1)
    as (w2 & Hrun2 & Ht2 & Hs2 & Hn2).
  { destruct (sys_platform env); eexists; (split; [reflexivity|done]). }
  rewrite (bind_ok _ _ _ _ _ Hrun2).
  rewrite (bind_ok _ _ w2 (Fs.isdir (tree w2) (Path.join root d)) w2) by reflexivity.
  assert (Fs.resolve (tree w2) root = Some (Dir m es)) as Hroot2 by congruence.
  assert (∃ w3, (if Fs.isdir (tree w2) (Path.join root d)
                 then RmDir (Path.join root d) else ret tt) w2 = (Ok tt, w3)
                ∧ Fs.resolve (tree w3) root = Some (Dir m (List.filter (keeps [d]) es))
                ∧ sidecars w3 = sidecars w2 ∧ now w3 = now w2)
    as (w3 & Hrun3 & Ht3 & Hs3 & Hn3).
  { unfold Fs.isdir. rewrite (resolve_entry root m _ es) by done.
    destruct (Fs.find_entry d es) as [[mt dt|md sub]|] eqn:Hfind.
    - exists w2. repeat split; try done. rewrite Hroot2. do 2 f_equal.
      symmetry. apply forallb_filter_id, forallb_forall. intros [x n] Hx.
      unfold keeps. simpl. rewrite orb_false_r.
      destruct (Fs.same_name x d) eqn:Hsame; [|by rewrite andb_false_r].
      rewrite (find_entry_only es d Hdist x n Hx Hsame) in Hfind.
      by injection Hfind as ->.
    - eexists. split; [reflexivity|]. simpl. repeat split; try done.
      rewrite (remove_entry root m _ es) by done. do 2 f_equal.
      apply List.filter_ext_in. intros [x n] Hx. unfold keeps. simpl.
      rewrite orb_false_r.
      destruct (Fs.same_name x d) eqn:Hsame; [|by rewrite andb_false_r].
      rewrite (find_entry_only es d Hdist x n Hx Hsame) in Hfind.
      by injection Hfind as ->.
    - exists w2. repeat split; try done. rewrite Hroot2. do 2 f_equal.
      symmetry. apply forallb_filter_id, forallb_forall. intros [x n] Hx.
      unfold keeps. simpl. rewrite orb_false_r.
      by rewrite (find_entry_absent es d Hfind x n Hx), andb_false_r. }
  rewrite (bind_ok _ _ _ _ _ Hrun3).
  unfold sidecar_exists.
  rewrite (bind_ok _ _ w3 _ w3) by reflexivity.
  destruct (bool_decide _) eqn:Hfound.
  - eexists. split; [reflexivity|]. simpl. repeat split; try done.
    + congruence.
    + rewrite Hn3, Hn2. done.
    + intros H. rewrite Hn3, Hn2. by apply Hsame1.
  - exists w3. split; [done|]. repeat split; try done.
    + apply bool_decide_eq_false in Hfound.
      rewrite delete_id; [congruence|].
      rewrite <- Hs1, <- Hs2, <- Hs3. by apply eq_None_not_Some.
    + rewrite Hn3, Hn2. done.
    + intros H. rewrite Hn3, Hn2. by apply Hsame1.
Qed.

End Eviction.

Section Phases.
Context (env : Env) (root : string) (m : timestamp).

Local Abbreviation dirs := (List.filter (λ e : string * node, Fs.is_dir (snd e))).

Lemma distinct_filter_front (P : string * node → bool) l1 l2 :
  Wf.distinct (map fst (l1 ++ l2)) = true →
  Wf.distinct (map fst (List.filter P l1 ++ l2)) = true.
Proof.
  induction l1 as [|[d n] l1 IH]; simpl; [done|].
  intros [Hd Hrest]%andb_true_iff.
  destruct (P (d, n)); simpl; [|by apply IH].
  rewrite IH by done. rewrite andb_true_r.
  apply negb_true_iff, not_true_is_false. intros (x & Hx & Hsame)%existsb_exists.
  apply negb_true_iff, not_true_iff_false in Hd. apply Hd, existsb_exists.
  exists x. split; [|done].
  rewrite map_app, in_app_iff in Hx. rewrite map_app, in_app_iff.
  destruct Hx as [Hx|Hx]; [left|by right].
  apply in_map_iff in Hx as (e & <- & He). apply List.filter_In in He as [He _].
  apply in_map_iff. by exists e.
Qed.

Lemma filter_out_one (l1 : list (string * node)) d n l2 :
  Wf.distinct (map fst (l1 ++ (d, n) :: l2)) = true →
  List.filter (λ e : string * node, negb (Fs.same_name (fst e) d)) (l1 ++ (d, n) :: l2)
  = l1 ++ l2.
Proof.
  intros Hdist. rewrite List.filter_app. simpl.
  rewrite FsFacts.same_name_refl. simpl.
  assert (∀ x k, In (x, k) (l1 ++ l2) → Fs.same_name x d = false) as Hother.
  { intros x k Hx. apply not_true_is_false. intros Hsame.
    assert (x = d) as ->.
    { apply (EvictFacts.distinct_same_name _ _ _ Hdist); [| |done].
      - apply in_map_iff. exists (x, k). split; [done|].
        apply in_app_iff. apply in_app_iff in Hx as [?|?]; [by left|by right; right].
      - apply in_map_iff. exists (d, n). split; [done|].
        apply in_app_iff. right. by left. }
    apply EvictFacts.distinct_NoDup in Hdist.
    rewrite map_app in Hdist. simpl in Hdist.
    apply List.NoDup_remove_2 in Hdist. apply Hdist.
    rewrite <- map_app. apply in_map_iff. by exists (d, k). }
  f_equal; apply forallb_filter_id, forallb_forall; intros [x k] Hx; simpl;
    rewrite (Hother x k); try done; apply in_app_iff; [by left|by right].
Qed.

Lemma sidecar_present_ext d w w' :
  sidecars w' = sidecars w → sidecar_present root d w' = sidecar_present root d w.
Proof. unfold sidecar_present. by intros ->. Qed.

Lemma versions_ext es w w' :
  sidecars w' = sidecars w → versions root w' es = versions root w es.
Proof. unfold versions, sidecar_present. by intros ->. Qed.

Lemma orphans_ext es w w' :
  sidecars w' = sidecars w → orphans root w' es = orphans root w es.
Proof. unfold orphans, sidecar_present. by intros ->. Qed.

Lemma os_remove_run p w :
  Fs.isfile (tree w) p = true →
  os_remove p w = (Ok tt, with_tree (Fs.remove p) (with_event (EvRemoveFile p) w)).
Proof. intros H. unfold os_remove. unfold_m. by rewrite H. Qed.

Lemma os_path_getmtime_run p w t :
  Fs.getmtime (tree w) p = Some t → os_path_getmtime p w = (Ok t, w).
Proof. intros H. unfold os_path_getmtime. unfold_m. by rewrite H. Qed.

(** The listing loop: plain files are removed, the directories sorted
    into the two lists. *)
Lemma sort_entries_run post : ∀ pre vt dr w,
  Fs.resolve (tree w) root = Some (Dir m (dirs pre ++ post)) →
  Wf.names_ok (map fst (pre ++ post)) = true →
  (∀ d n, In (d, n) post → Fs.is_dir n = true →
          sidecar_present root d w = true → is_Some (touch_time n)) →
  ∃ w', sort_entries root (map fst post) vt dr w
        = (Ok (vt ++ versions root w post, dr ++ orphans root w post), w')
        ∧ Fs.resolve (tree w') root = Some (Dir m (dirs (pre ++ post)))
        ∧ sidecars w' = sidecars w ∧ now w' = now w.
Proof.
  induction post as [|[d n] post IH]; intros pre vt dr w Hroot Hok Hvc.
  - exists w. simpl. rewrite !List.app_nil_r in *. by repeat split.
  - simpl map. cbn [sort_entries].
    pose proof Hok as [Hvalid Hdist]%andb_true_iff.
    assert (Wf.valid_name d = true) as Hd.
    { rewrite forallb_forall in Hvalid. apply Hvalid.
      rewrite map_app. apply in_app_iff. right. by left. }
    assert (Wf.distinct (map fst (dirs pre ++ (d, n) :: post)) = true) as Hdist'
      by by apply distinct_filter_front.
    assert (Fs.find_entry d (dirs pre ++ (d, n) :: post) = Some n) as Hfind.
    { apply (WalkFacts.find_entry_distinct _ d); [done| |apply FsFacts.same_name_refl].
      apply in_app_iff. right. by left. }
    assert (Wf.names_ok (map fst ((pre ++ [(d, n)]) ++ post)) = true) as Hok'
      by by rewrite <- List.app_assoc.
    rewrite (bind_ok _ _ w (Fs.isdir (tree w) (Path.join root d)) w) by reflexivity.
    unfold Fs.isdir at 1. rewrite (resolve_entry root m _ _ _ Hroot Hd), Hfind.
    destruct n as [mt data|md sub].
    + (* a plain file *)
      rewrite (bind_ok (os_path_isfile (Path.join root d)) _ w
                 (Fs.isfile (tree w) (Path.join root d)) w) by reflexivity.
      unfold Fs.isfile at 1. rewrite (resolve_entry root m _ _ _ Hroot Hd), Hfind.
      set (w1 := with_tree (Fs.remove (Path.join root d))
                   (with_event (EvRemoveFile (Path.join root d)) w)).
      rewrite (bind_ok (os_remove (Path.join root d)) _ w tt w1).
      2:{ apply os_remove_run. unfold Fs.isfile.
          by rewrite (resolve_entry root m _ _ _ Hroot Hd), Hfind. }
      destruct (IH (pre ++ [(d, File mt data)]) vt dr w1) as (w' & Hrun & Hroot' & Hs & Hn).
      * subst w1. simpl.
        rewrite (remove_entry root m _ _ _ Hroot Hd Hdist').
        rewrite filter_out_one by done.
        rewrite List.filter_app. simpl. by rewrite List.app_nil_r.
      * done.
      * intros x k Hx Hk Hsc. apply (Hvc x k); [by right|done|done].
      * exists w'. rewrite Hrun. rewrite <- List.app_assoc in Hroot'.
        rewrite (versions_ext post w w1), (orphans_ext post w w1) by done.
        by repeat split.
    + (* a directory *)
      unfold sidecar_exists at 1.
      rewrite (bind_ok (gets _) _ w (sidecar_present root d w) w) by reflexivity.
      destruct (sidecar_present root d w) eqn:Hsc; cbn [negb].
      * destruct (Hvc d (Dir md sub)) as [vc Hvct]; [by left|done|done|].
        unfold touch_time in Hvct.
        destruct (Fs.step (Dir md sub) "VC") as [vcn|] eqn:Hstep; [|done].
        simpl in Hvct. injection Hvct as <-.
        rewrite (bind_ok (os_path_getmtime _) _ w (Fs.mtime_of vcn) w).
        2:{ apply os_path_getmtime_run. unfold Fs.getmtime.
            rewrite (resolve_entry_below root m _ _ d "VC" Hroot Hd eq_refl), Hfind.
            simpl. by rewrite Hstep. }
        destruct (IH (pre ++ [(d, Dir md sub)]) (vt ++ [(Fs.mtime_of vcn, d)]) dr w)
          as (w' & Hrun & Hroot' & Hs & Hn).
        -- rewrite List.filter_app. simpl. by rewrite <- List.app_assoc.
        -- done.
        -- intros x k Hx. apply (Hvc x k). by right.
        -- exists w'. rewrite Hrun. rewrite <- List.app_assoc in Hroot'.
           split; [|split; [exact Hroot'|by split]]. do 3 f_equal.
           ++ unfold versions. simpl. rewrite Hsc. unfold touch_time. rewrite Hstep.
              simpl. by rewrite <- List.app_assoc.
           ++ unfold orphans. simpl. by rewrite Hsc.
      * destruct (IH (pre ++ [(d, Dir md sub)]) vt (dr ++ [d]) w)
          as (w' & Hrun & Hroot' & Hs & Hn).
        -- rewrite List.filter_app. simpl. by rewrite <- List.app_assoc.
        -- done.
        -- intros x k Hx. apply (Hvc x k). by right.
        -- exists w'. rewrite Hrun. rewrite <- List.app_assoc in Hroot'.
           split; [|split; [exact Hroot'|by split]]. do 3 f_equal.
           ++ unfold versions. simpl. by rewrite Hsc.
           ++ unfold orphans. simpl. rewrite Hsc. simpl. by rewrite <- List.app_assoc.
Qed.

End Phases.

Section Loops.
Context (env : Env) (root : string) (m : timestamp).

Lemma keeps_app gone1 gone2 (es : list (string * node)) :
  List.filter (keeps gone2) (List.filter (keeps gone1) es)
  = List.filter (keeps (gone1 ++ gone2)) es.
Proof.
  induction es as [|e es IH]; simpl; [done|].
  assert (keeps (gone1 ++ gone2) e = keeps gone1 e && keeps gone2 e) as ->.
  { unfold keeps. rewrite existsb_app.
    destruct (Fs.is_dir e.2), (existsb _ gone1), (existsb _ gone2); done. }
  destruct (keeps gone1 e); simpl; [|done].
  destruct (keeps gone2 e); by rewrite IH.
Qed.

Lemma keeps_nil (es : list (string * node)) : List.filter (keeps []) es = es.
Proof.
  apply forallb_filter_id, forallb_forall. intros e _.
  unfold keeps. simpl. by rewrite andb_false_r.
Qed.

(** The directories without a sidecar go, whatever their age. *)
Lemma remove_orphans_run ds : ∀ w es,
  Fs.resolve (tree w) root = Some (Dir m es) →
  Wf.distinct (map fst es) = true →
  Forall (λ d, Wf.valid_name d = true) ds →
  ∃ w', for_each (λ d,
                    run print ("Removing " +:+ Path.join root d
                               +:+ " as it doesn't correspond to any known toolchain.") then
                    RemoveToolchain env root d false) ds w = (Ok tt, w')
        ∧ Fs.resolve (tree w') root = Some (Dir m (List.filter (keeps ds) es))
        ∧ now w' = now w
        ∧ (∀ k, sidecars w !! k = None → sidecars w' !! k = None).
Proof.
  induction ds as [|d ds IH]; intros w es Hroot Hdist Hvalid.
  - exists w. simpl. split; [done|]. split; [by rewrite keeps_nil|]. by split.
  - inversion Hvalid as [|? ? Hd Hds]; subst. cbn [for_each].
    set (w0 := with_event (EvStdout ("Removing " +:+ Path.join root d
                 +:+ " as it doesn't correspond to any known toolchain.")) w).
    destruct (RemoveToolchain_run env root m d false w0 es Hroot Hdist Hd)
      as (w1 & Hrun1 & Hroot1 & Hs1 & _ & Hn1).
    destruct (IH w1 _ Hroot1 (EvictFacts.distinct_filter _ _ Hdist) Hds)
      as (w' & Hrun & Hroot' & Hn & Hs).
    exists w'. split.
    + erewrite (bind_ok _ _ w tt w1); [exact Hrun|].
      erewrite (bind_ok _ _ w tt w0); [exact Hrun1|reflexivity].
    + rewrite keeps_app in Hroot'. split; [exact Hroot'|]. split.
      * rewrite Hn, Hn1 by by left. done.
      * intros k Hk. apply Hs. rewrite Hs1. subst w0. simpl.
        destruct (decide (sidecar_key (MakeTimestampsFileName root d) = k)) as [<-|Hne].
        -- apply lookup_delete_eq.
        -- by rewrite lookup_delete_ne.
Qed.

Lemma expire_run vc d w es :
  Fs.resolve (tree w) root = Some (Dir m es) →
  Wf.distinct (map fst es) = true → Wf.valid_name d = true →
  ∃ w' gone, expire env root (vc, d) w = (Ok tt, w')
        ∧ Fs.resolve (tree w') root = Some (Dir m (List.filter (keeps gone) es))
        ∧ (now w <= now w')%Q
        ∧ (chrome_headless env = true → now w' = now w)
        ∧ (expired (now w) vc → gone = [d]
             ∧ sidecars w' = delete (sidecar_key (MakeTimestampsFileName root d)) (sidecars w))
        ∧ (¬ expired (now w) vc → gone = [] ∧ sidecars w' = sidecars w).
Proof.
  intros Hroot Hdist Hd. unfold expire.
  rewrite (bind_ok time_time _ w (now w) w) by reflexivity. cbn [fst snd].
  destruct (Qle_bool (now w - vc) toolchain_expiration_time) eqn:Hage; cbn [negb].
  - apply Qle_bool_iff in Hage. exists w, [].
    split; [done|]. split; [by rewrite keeps_nil|]. split; [apply Qle_refl|].
    split; [done|]. split; [|done].
    intros Hexp. unfold expired in Hexp. lra.
  - erewrite (bind_ok (print _) _ w tt) by reflexivity.
    match goal with
    | |- context [RemoveToolchain env root d true ?w0] =>
        destruct (RemoveToolchain_run env root m d true w0 es Hroot Hdist Hd)
          as (w1 & Hrun1 & Hroot1 & Hs1 & Hle1 & Hn1)
    end.
    exists w1, [d]. split; [exact Hrun1|].
    split; [done|]. split; [done|].
    split; [intros Hh; apply Hn1; by right|]. split; [done|].
    intros Hnot. destruct Hnot. unfold expired.
    apply Qnot_le_lt. intros Hle%Qle_bool_iff. congruence.
Qed.

(** The expiry loop: each directory is judged by the clock at its
    turn. *)
Lemma expire_loop_run vs : ∀ w es,
  Fs.resolve (tree w) root = Some (Dir m es) →
  Wf.distinct (map fst es) = true →
  Forall (λ v, Wf.valid_name (snd v) = true) vs →
  List.NoDup (map snd vs) →
  ∃ w' gone, for_each (expire env root) vs w = (Ok tt, w')
    ∧ Fs.resolve (tree w') root = Some (Dir m (List.filter (keeps gone) es))
    ∧ (now w <= now w')%Q
    ∧ (chrome_headless env = true → now w' = now w)
    ∧ (∀ d, In d gone → In d (map snd vs))
    ∧ (∀ d, In d gone → sidecars w' !! sidecar_key (MakeTimestampsFileName root d) = None)
    ∧ (∀ k, sidecars w !! k = None → sidecars w' !! k = None)
    ∧ (∀ vc d, In (vc, d) vs →
         ∃ t, (now w <= t)%Q ∧ (t <= now w')%Q ∧ (In d gone ↔ expired t vc)).
Proof.
  induction vs as [|[vc d] vs IH]; intros w es Hroot Hdist Hvalid Hnodup.
  - exists w, []. simpl.
    split; [done|]. split; [by rewrite keeps_nil|]. split; [apply Qle_refl|].
    by repeat split.
  - inversion Hvalid as [|? ? Hd Hvs]; subst. simpl in Hd.
    inversion Hnodup as [|? ? Hnotin Hnodup']; subst.
    destruct (expire_run vc d w es Hroot Hdist Hd)
      as (w1 & gone1 & Hrun1 & Hroot1 & Hle1 & Hh1 & Hexp & Hnexp).
    destruct (IH w1 _ Hroot1 (EvictFacts.distinct_filter _ _ Hdist) Hvs Hnodup')
      as (w' & gone2 & Hrun & Hroot' & Hle & Hh & Hsub & Hgone & Hmono & Hjudged).
    assert (∀ k, sidecars w !! k = None → sidecars w1 !! k = None) as Hmono1.
    { intros k Hk.
      destruct (Qlt_le_dec toolchain_expiration_time (now w - vc)) as [Hold|Hyoung].
      - destruct (Hexp Hold) as [_ ->].
        destruct (decide (sidecar_key (MakeTimestampsFileName root d) = k)) as [<-|Hne].
        + apply lookup_delete_eq.
        + by rewrite lookup_delete_ne.
      - destruct (Hnexp (Qle_not_lt _ _ Hyoung)) as [_ ->]. done. }
    exists w', (gone1 ++ gone2). cbn [for_each].
    rewrite (bind_ok _ _ _ _ _ Hrun1). split; [exact Hrun|].
    rewrite keeps_app in Hroot'. split; [exact Hroot'|].
    split; [lra|]. split; [intros Hhl; by rewrite (Hh Hhl), (Hh1 Hhl)|].
    assert (gone1 = [d] ∧ expired (now w) vc ∨ gone1 = [] ∧ ¬ expired (now w) vc)
      as Hcases.
    { destruct (Qlt_le_dec toolchain_expiration_time (now w - vc)) as [Hold|Hyoung].
      - left. by destruct (Hexp Hold).
      - right. pose proof (Qle_not_lt _ _ Hyoung) as Hnot. by destruct (Hnexp Hnot). }
    split; [|split; [|split]].
    + intros x [Hx|Hx]%in_app_iff.
      * destruct Hcases as [[-> _]|[-> _]]; [|done].
        destruct Hx as [<-|[]]. by left.
      * right. by apply Hsub.
    + intros x [Hx|Hx]%in_app_iff.
      * destruct Hcases as [[-> Hold]|[-> _]]; [|done].
        destruct Hx as [<-|[]]. apply Hmono.
        destruct (Hexp Hold) as [_ ->]. apply lookup_delete_eq.
      * by apply Hgone.
    + intros k Hk. by apply Hmono, Hmono1.
    + intros vc' d' [[= -> ->]|Hin].
      * exists (now w). split; [apply Qle_refl|]. split; [lra|].
        rewrite in_app_iff.
        destruct Hcases as [[-> Hold]|[-> Hyoung]]; split; try done.
        -- intros _. left. by left.
        -- intros [[]|Hx]. destruct Hnotin. by apply Hsub.
      * destruct (Hjudged vc' d' Hin) as (t & Ht1 & Ht2 & Hiff).
        exists t. split; [lra|]. split; [done|].
        rewrite in_app_iff, <- Hiff.
        split; [|by right]. intros [Hx|Hx]; [|done].
        destruct Hcases as [[-> _]|[-> _]]; [|done].
        destruct Hx as [<-|[]]. destruct Hnotin.
        apply in_map_iff. by exists (vc', d).
Qed.

End Loops.

Section Sorted.
Context (root : string) (w : World).

Lemma in_versions es vc d :
  In (vc, d) (versions root w es) ↔
  ∃ n, In (d, n) es ∧ Fs.is_dir n = true ∧ sidecar_present root d w = true
       ∧ touch_time n = Some vc.
Proof.
  unfold versions. rewrite <- list_elem_of_In, list_elem_of_omap. split.
  - intros ([x n] & Hin%list_elem_of_In & Heq). simpl in Heq.
    destruct (Fs.is_dir n) eqn:Hdir; [|done].
    destruct (sidecar_present root x w) eqn:Hsc; [|done]. simpl in Heq.
    destruct (touch_time n) as [t|] eqn:Ht; [|done]. injection Heq as <- <-.
    by exists n.
  - intros (n & Hin & Hdir & Hsc & Ht). exists (d, n).
    split; [by apply list_elem_of_In|]. simpl. by rewrite Hdir, Hsc, Ht.
Qed.

Lemma in_orphans es d :
  In d (orphans root w es) ↔
  ∃ n, In (d, n) es ∧ Fs.is_dir n = true ∧ sidecar_present root d w = false.
Proof.
  unfold orphans. rewrite in_map_iff. split.
  - intros ([x n] & <- & [Hin [Hdir Hsc]%andb_true_iff]%List.filter_In).
    exists n. simpl in *. by apply negb_true_iff in Hsc.
  - intros (n & Hin & Hdir & Hsc). exists (d, n). split; [done|].
    apply List.filter_In. split; [done|]. simpl. by rewrite Hdir, Hsc.
Qed.

Lemma versions_NoDup es :
  List.NoDup (map fst es) → List.NoDup (map snd (versions root w es)).
Proof.
  induction es as [|[d n] es IH]; simpl; [constructor|].
  intros Hnd. inversion Hnd as [|? ? Hnotin Hnd']; subst.
  unfold versions. simpl. fold (versions root w es).
  destruct (Fs.is_dir n && sidecar_present root d w); [|by apply IH].
  destruct (touch_time n) as [t|]; simpl; [|by apply IH].
  constructor; [|by apply IH].
  intros ([vc x] & Hx & Hin)%in_map_iff. simpl in Hx. subst x.
  apply in_versions in Hin as (k & Hk & _). apply Hnotin.
  apply in_map_iff. by exists (d, k).
Qed.

End Sorted.

(** ** What a run can do to the world *)

Create HintDb runs discriminated.

Section Respects.
Context (R : World → World → Prop).
Context (R_refl : ∀ w, R w w) (R_trans : ∀ w1 w2 w3, R w1 w2 → R w2 w3 → R w1 w3).

Lemma respects_ret {A} (a : A) : respects R (ret a).
Proof. intros w. apply R_refl. Qed.

Lemma respects_raise {A} e : respects R (@raise A e).
Proof. intros w. apply R_refl. Qed.

Lemma respects_gets {A} (f : World → A) : respects R (gets f).
Proof. intros w. apply R_refl. Qed.

Lemma respects_bind {A B} (c : M A) (k : A → M B) :
  respects R c → (∀ a, respects R (k a)) → respects R (bind c k).
Proof.
  intros Hc Hk w. unfold bind. specialize (Hc w).
  destruct (c w) as [[a|e] w1]; simpl in *; [|done].
  by apply (R_trans _ w1), Hk.
Qed.

Lemma respects_except {A} (c h : M A) :
  respects R c → respects R h → respects R (except_IOError c h).
Proof.
  intros Hc Hh w. unfold except_IOError. specialize (Hc w).
  destruct (c w) as [[a|[]] w1]; simpl in *; try done.
  by apply (R_trans _ w1), Hh.
Qed.

Lemma respects_assert b : respects R (assert b).
Proof. destruct b; [apply respects_ret|apply respects_raise]. Qed.

Lemma respects_for_each {A} (f : A → M unit) l :
  (∀ x, respects R (f x)) → respects R (for_each f l).
Proof.
  intros Hf. induction l as [|x l IH]; simpl; [apply respects_ret|].
  apply respects_bind; [apply Hf|by intros _].
Qed.

Lemma respects_map_m {A B} (f : A → M B) l :
  (∀ x, respects R (f x)) → respects R (map_m f l).
Proof.
  intros Hf. induction l as [|x l IH]; simpl; [apply respects_ret|].
  apply respects_bind; [apply Hf|]. intros y.
  apply respects_bind; [apply IH|]. intros ys. apply respects_ret.
Qed.

End Respects.

(** Take a computation apart down to the calls the hints know. *)
Ltac runs :=
  repeat first
    [ progress cbv zeta
    | solve [eauto with runs]
    | apply respects_ret | apply respects_raise | apply respects_gets
    | apply respects_assert
    | apply respects_bind; [| |intros ?]
    | apply respects_except
    | apply respects_for_each; [| |intros ?]
    | apply respects_map_m; [| |intros ?]
    | match goal with
      | |- respects _ (if ?b then _ else _) => destruct b
      | |- respects _ (match ?x with _ => _ end) => destruct x
      | |- respects _ (let '(_, _) := ?x in _) => destruct x
      end ].

(** *** Looking *)

Lemma looked_refl w : looked w w.
Proof. exists []. by rewrite add_events_nil. Qed.

Lemma looked_trans w1 w2 w3 : looked w1 w2 → looked w2 w3 → looked w1 w3.
Proof.
  intros (evs1 & -> & H1) (evs2 & -> & H2). exists (evs1 ++ evs2).
  by rewrite add_events_app, forallb_app, H1, H2.
Qed.

#[export] Hint Resolve looked_refl looked_trans : runs.

Lemma looks_emit e : looks_only e = true → respects looked (emit e).
Proof. intros He w. exists [e]. simpl. by rewrite He. Qed.

#[export] Hint Extern 1 (respects looked (emit _)) =>
  apply looks_emit; reflexivity : runs.

Lemma looks_print msg : respects looked (print msg).
Proof. by apply looks_emit. Qed.

Lemma looks_print_stderr msg : respects looked (print_stderr msg).
Proof. by apply looks_emit. Qed.

Lemma looks_os_path_getmtime p : respects looked (os_path_getmtime p).
Proof. unfold os_path_getmtime. runs. Qed.

Lemma looks_read_file p : respects looked (read_file p).
Proof. unfold read_file. runs. Qed.

Lemma looks_os_listdir p : respects looked (os_listdir p).
Proof. unfold os_listdir. runs. Qed.

#[export] Hint Resolve looks_print looks_print_stderr looks_os_path_getmtime
  looks_read_file looks_os_listdir : runs.

Lemma looks_GetFileList root : respects looked (GetFileList root).
Proof. unfold GetFileList. runs. Qed.

Lemma looks_timestamps_match vc_dir pairs : respects looked (timestamps_match vc_dir pairs).
Proof.
  induction pairs as [|[disk cached] rest IH]; simpl; runs.
Qed.

Lemma looks_hash_files root expected_hash file_list : ∀ digest,
  respects looked (hash_files root expected_hash digest file_list).
Proof.
  induction file_list as [|path rest IH]; intros digest; simpl; runs.
Qed.

#[export] Hint Resolve looks_GetFileList looks_timestamps_match looks_hash_files : runs.

Lemma looks_CalculateHash root expected_hash :
  respects looked (CalculateHash root expected_hash).
Proof. unfold CalculateHash. runs. Qed.

#[export] Hint Resolve looks_CalculateHash : runs.

Lemma looks_CalculateToolchainHashes root :
  respects looked (CalculateToolchainHashes root).
Proof. unfold CalculateToolchainHashes. runs. Qed.

#[export] Hint Resolve looks_CalculateToolchainHashes : runs.

(** *** Staying on the machine *)

Lemma settled_refl w : settled w w.
Proof. split; [|done]. exists []. by rewrite List.app_nil_r. Qed.

Lemma settled_trans w1 w2 w3 : settled w1 w2 → settled w2 w3 → settled w1 w3.
Proof.
  intros [(evs1 & Ht1 & H1) Hs1] [(evs2 & Ht2 & H2) Hs2]. split.
  - exists (evs1 ++ evs2). by rewrite Ht2, Ht1, forallb_app, H1, H2, List.app_assoc.
  - by transitivity (sidecars w2).
Qed.

#[export] Hint Resolve settled_refl settled_trans : runs.

Lemma looks_only_local e : looks_only e = true → local_only e = true.
Proof. by destruct e. Qed.

Lemma looked_settled w w' : looked w w' → settled w w'.
Proof.
  intros (evs & -> & Hevs). split; [|done]. exists evs. split; [done|].
  apply forallb_forall. intros e He. apply looks_only_local.
  rewrite forallb_forall in Hevs. by apply Hevs.
Qed.

Lemma respects_weaken (R1 R2 : World → World → Prop) {A} (c : M A) :
  (∀ w w', R1 w w' → R2 w w') → respects R1 c → respects R2 c.
Proof. intros HR Hc w. apply HR, Hc. Qed.

Lemma settles_looking {A} (c : M A) : respects looked c → respects settled c.
Proof. apply respects_weaken, looked_settled. Qed.

Lemma settles_emit e : local_only e = true → respects settled (emit e).
Proof. intros He w. split; [|done]. exists [e]. simpl. by rewrite He. Qed.

Lemma settles_modify f :
  (∀ w, trace (f w) = trace w) → (∀ w, sidecars (f w) ⊆ sidecars w) →
  respects settled (modify f).
Proof.
  intros Ht Hs w. split; [|apply Hs]. exists []. simpl. by rewrite Ht, List.app_nil_r.
Qed.

#[export] Hint Extern 1 (respects settled (emit _)) =>
  apply settles_emit; reflexivity : runs.
#[export] Hint Extern 1 (respects settled (modify _)) =>
  apply settles_modify; [reflexivity|intros; simpl; first [reflexivity|apply delete_subseteq]]
  : runs.
#[export] Hint Extern 1 (respects settled (print _)) =>
  apply settles_emit; reflexivity : runs.
#[export] Hint Extern 1 (respects settled (print_stderr _)) =>
  apply settles_emit; reflexivity : runs.
#[export] Hint Extern 5 (respects settled _) =>
  apply settles_looking; solve [eauto with runs] : runs.

Lemma settles_os_utime p : respects settled (os_utime p).
Proof. unfold os_utime. runs. Qed.

Lemma settles_os_remove p : respects settled (os_remove p).
Proof. unfold os_remove. runs. Qed.

Lemma settles_time_sleep s : respects settled (time_sleep s).
Proof. unfold time_sleep. runs. Qed.

Lemma settles_os_path_isdir p : respects settled (os_path_isdir p).
Proof. unfold os_path_isdir. runs. Qed.

Lemma settles_os_path_isfile p : respects settled (os_path_isfile p).
Proof. unfold os_path_isfile. runs. Qed.

Lemma settles_sidecar_exists p : respects settled (sidecar_exists p).
Proof. unfold sidecar_exists. runs. Qed.

Lemma settles_time_time : respects settled time_time.
Proof. unfold time_time. runs. Qed.

Lemma settles_RmDir p : respects settled (RmDir p).
Proof. unfold RmDir. runs. Qed.

#[export] Hint Resolve settles_os_utime settles_os_remove settles_time_sleep
  settles_os_path_isdir settles_os_path_isfile settles_sidecar_exists
  settles_time_time settles_RmDir : runs.

Section Settles.
Context (env : Env).

Lemma settles_DelayBeforeRemoving p : respects settled (DelayBeforeRemoving env p).
Proof. unfold DelayBeforeRemoving. runs. Qed.

Hint Resolve settles_DelayBeforeRemoving : runs.

Lemma settles_RemoveToolchain root d delay :
  respects settled (RemoveToolchain env root d delay).
Proof. unfold RemoveToolchain. runs. Qed.

Hint Resolve settles_RemoveToolchain : runs.

Lemma settles_sort_entries root names : ∀ vt dr,
  respects settled (sort_entries root names vt dr).
Proof. induction names as [|d names IH]; intros vt dr; simpl; runs. Qed.

Lemma settles_expire root v : respects settled (expire env root v).
Proof. unfold expire. runs. Qed.

Hint Resolve settles_sort_entries settles_expire : runs.

(** Eviction removes; it fetches and records nothing. *)
Lemma settles_RemoveUnusedToolchains root :
  respects settled (RemoveUnusedToolchains env root).
Proof. unfold RemoveUnusedToolchains. runs. Qed.

Lemma settles_write_data_json target_dir desired_hash :
  respects settled (write_data_json env target_dir desired_hash).
Proof. unfold write_data_json. runs. Qed.

Hint Resolve settles_RemoveUnusedToolchains settles_write_data_json : runs.

Lemma settles_verify_and_clean target_dir desired_hash :
  respects settled (verify_and_clean env target_dir desired_hash false).
Proof. unfold verify_and_clean. runs. Qed.

Hint Resolve settles_verify_and_clean : runs.

(** With no new toolchain the second half of [main] stays on the
    machine. *)
Lemma settles_main_report target_dir desired_hash :
  respects settled (main_report env target_dir desired_hash false).
Proof. unfold main_report. runs. Qed.

End Settles.

(** ** The second half of [main] *)

Lemma set_mtime_retimed p m t :
  Fs.set_mtime p m t = Listing.retimed (Path.components p) m t.
Proof.
  unfold Fs.set_mtime, Fs.alter. by rewrite RetimeFacts.alter_at_retimed.
Qed.

Lemma untimed_with_mtime m n : untimed (Fs.with_mtime m n) = untimed n.
Proof. by destruct n. Qed.

Lemma untimed_retimed cs m : ∀ n, untimed (Listing.retimed cs m n) = untimed n.
Proof.
  induction cs as [|c cs IH]; intros n; simpl; [apply untimed_with_mtime|].
  destruct (Fs.stays c); [apply IH|]. destruct n as [|dm es]; [done|].
  simpl. f_equal.
  induction es as [|[x k] es IHes]; simpl; [done|].
  destruct (Fs.same_name x c); simpl; [by rewrite IH|by rewrite IHes].
Qed.

(** Touching changes no name and no contents. *)
Lemma untimed_set_mtime p m t : untimed (Fs.set_mtime p m t) = untimed t.
Proof. rewrite set_mtime_retimed. apply untimed_retimed. Qed.

Lemma getmtime_set_mtime p m t :
  Fs.exists_ t p = true → Fs.getmtime (Fs.set_mtime p m t) p = Some m.
Proof.
  unfold Fs.exists_, Fs.getmtime, Fs.resolve. intros Hex.
  rewrite set_mtime_retimed, RetimeFacts.descend_retimed.
  destruct (Fs.descend t (Path.components p)) as [[]|]; done.
Qed.

Lemma looked_inv w w' :
  looked w w' →
  tree w' = tree w ∧ sidecars w' = sidecars w ∧ data_json w' = data_json w
  ∧ json_copy w' = json_copy w ∧ now w' = now w
  ∧ ∃ evs, trace w' = trace w ++ evs ∧ forallb looks_only evs = true.
Proof. intros (evs & -> & Hevs). repeat split. by exists evs. Qed.

Section Report.
Context (env : Env) (target_dir desired_hash : string).

Local Abbreviation version_file :=
  (Path.join (Path.join target_dir desired_hash) "VS_VERSION").
Local Abbreviation vc_dir := (Path.join (Path.join target_dir desired_hash) "VC").
Local Abbreviation data_file := (Path.join (Path.join target_dir "..") "data.json").

(** What the writing of [data.json] leaves, when it returns: with a
    readable [VS_VERSION] the [VC] directory has been touched first. *)
Lemma write_data_json_run w w1 :
  write_data_json env target_dir desired_hash w = (Ok tt, w1) →
  sidecars w1 = sidecars w ∧ now w1 = now w
  ∧ (∃ md, data_json w1 = Some md
           ∧ md_path md = abspath env (Path.join target_dir desired_hash))
  ∧ match Fs.read (tree w) version_file with
    | Some _ =>
        Fs.exists_ (tree w) vc_dir = true
        ∧ tree w1 = Fs.set_mtime vc_dir (now w) (tree w)
        ∧ trace w1 = trace w ++ [EvReadFile version_file; EvUtime vc_dir;
                                 EvWriteJson data_file]
    | None => tree w1 = tree w ∧ trace w1 = trace w ++ [EvWriteJson data_file]
    end.
Proof.
  unfold write_data_json, except_IOError, read_file, os_utime. unfold_m. simpl.
  destruct (Fs.read (tree w) version_file) as [text|]; simpl.
  - destruct (Fs.exists_ (tree w) vc_dir); simpl; [|done].
    intros [= <-]. simpl. rewrite <- !List.app_assoc. repeat split.
    by eexists.
  - intros [= <-]. simpl. repeat split. by eexists.
Qed.

End Report.

Section WrongHash.
Context (env : Env) (target_dir desired_hash : string).

Lemma wrong_hash_run w w1 w2 current_hashes :
  write_data_json env target_dir desired_hash w = (Ok tt, w1) →
  CalculateToolchainHashes target_dir w1 = (Ok current_hashes, w2) →
  ¬ In desired_hash current_hashes →
  main_report env target_dir desired_hash true w
  = (Ok 1%Z, with_event (EvStderr (wrong_hash_message desired_hash current_hashes)) w2).
Proof.
  intros Hmeta Hhashes Hnotin. unfold main_report.
  rewrite (bind_ok _ _ _ _ _ Hmeta). unfold verify_and_clean.
  assert (existsb (String.eqb desired_hash) current_hashes = false) as Hex.
  { apply not_true_is_false. intros (x & Hx & ->%String.eqb_eq)%existsb_exists. done. }
  unfold bind at 1. unfold bind at 1. rewrite Hhashes, Hex. reflexivity.
Qed.

End WrongHash.

(** Hashes are only computed for a root that is a directory. *)
Lemma CalculateToolchainHashes_isdir root w current_hashes w0 :
  CalculateToolchainHashes root w = (Ok current_hashes, w0) →
  Fs.isdir (tree w) root = true.
Proof.
  unfold CalculateToolchainHashes, os_listdir. unfold_m.
  unfold Fs.listdir, Fs.isdir.
  by destruct (Fs.resolve (tree w) root) as [[|]|].
Qed.

(** With the desired hash among those found, [main] goes on to its second
    half with nothing fetched. *)
Lemma main_already_installed env desired_hash rest w current_hashes w0 :
  (sys_platform env = Win32 ∨ sys_platform env = OtherPlatform ∧ opt_force env = true) →
  args env = desired_hash :: rest →
  CalculateToolchainHashes (target_dir_of env) w = (Ok current_hashes, w0) →
  In desired_hash current_hashes →
  main env w = main_report env (target_dir_of env) desired_hash false w0.
Proof.
  intros Hplat Hargs Hhashes Hin. unfold main.
  assert (existsb (String.eqb desired_hash) current_hashes = true) as Hex.
  { apply existsb_exists. exists desired_hash. split; [done|apply String.eqb_refl]. }
  pose proof (CalculateToolchainHashes_isdir _ _ _ _ Hhashes) as Hisdir.
  rewrite Hargs.
  assert (os_path_isdir (target_dir_of env) w = (Ok true, w)) as Hrun
    by (unfold os_path_isdir, gets; by rewrite Hisdir).
  destruct Hplat as [->|[-> ->]]; cbn [negb];
    rewrite (bind_ok (ret tt) _ w tt w) by reflexivity; cbv zeta;
    rewrite (bind_ok _ _ _ _ _ Hrun); cbn [negb];
    rewrite (bind_ok (ret tt) _ w tt w) by reflexivity;
    rewrite (bind_ok _ _ _ _ _ Hhashes), Hex; reflexivity.
Qed.

(** ** The sidecars the eviction leaves *)

Section Sidecars.
Context (env : Env) (root : string) (m : timestamp).

Local Abbreviation key d := (sidecar_key (MakeTimestampsFileName root d)).

Lemma sapp_inj_l p a b : p +:+ a = p +:+ b → a = b.
Proof.
  induction p as [|c p IH]; [done|]. rewrite !StrFacts.sapp_cons.
  intros [= H]. by apply IH.
Qed.

Lemma sapp_inj_r s : ∀ a b, a +:+ s = b +:+ s → a = b.
Proof.
  induction a as [|c a IH]; intros [|c' b] H.
  - done.
  - apply (f_equal String.length) in H.
    rewrite !StrFacts.slength_app in H. simpl in H. lia.
  - apply (f_equal String.length) in H.
    rewrite !StrFacts.slength_app in H. simpl in H. lia.
  - rewrite !StrFacts.sapp_cons in H. injection H as -> H. f_equal. by apply IH.
Qed.

(** Two names with the same sidecar are the same up to case. *)
Lemma key_same_name d d' :
  Wf.valid_name d = true → Wf.valid_name d' = true →
  key d = key d' → Fs.same_name d d' = true.
Proof.
  intros Hd Hd' Hk. unfold sidecar_key, MakeTimestampsFileName in Hk.
  assert (∀ x, Wf.valid_name x = true → Path.isabs (x +:+ ".timestamps") = false) as Habs.
  { intros x Hx. rewrite PathFacts.isabs_app; [by apply PathFacts.isabs_valid_name|].
    intros ->. discriminate Hx. }
  rewrite (PathFacts.join_rel _ (d +:+ ".timestamps")) in Hk by by apply Habs.
  rewrite (PathFacts.join_rel _ (d' +:+ ".timestamps")) in Hk by by apply Habs.
  rewrite !StrFacts.lower_app in Hk.
  apply sapp_inj_l, sapp_inj_r in Hk. by apply EvictFacts.same_name_eq.
Qed.

(** The directories without a sidecar take no sidecar of another with
    them. *)
Lemma remove_orphans_sidecars ds : ∀ w es k,
  Fs.resolve (tree w) root = Some (Dir m es) →
  Wf.distinct (map fst es) = true →
  Forall (λ d, Wf.valid_name d = true) ds →
  (∀ d, In d ds → key d ≠ k) →
  sidecars (snd (for_each (λ d,
                    run print ("Removing " +:+ Path.join root d
                               +:+ " as it doesn't correspond to any known toolchain.") then
                    RemoveToolchain env root d false) ds w)) !! k
  = sidecars w !! k.
Proof.
  induction ds as [|d ds IH]; intros w es k Hroot Hdist Hvalid Hk; [done|].
  inversion Hvalid as [|? ? Hd Hds]; subst. cbn [for_each].
  set (w0 := with_event (EvStdout ("Removing " +:+ Path.join root d
               +:+ " as it doesn't correspond to any known toolchain.")) w).
  destruct (RemoveToolchain_run env root m d false w0 es Hroot Hdist Hd)
    as (w1 & Hrun1 & Hroot1 & Hs1 & _ & _).
  erewrite (bind_ok _ _ w tt w1).
  2:{ erewrite (bind_ok _ _ w tt w0); [exact Hrun1|reflexivity]. }
  rewrite (IH w1 _ k Hroot1 (EvictFacts.distinct_filter _ _ Hdist) Hds)
    by (intros x Hx; apply Hk; by right).
  rewrite Hs1. subst w0. simpl. apply lookup_delete_ne, Hk. by left.
Qed.

(** The expiry loop, with the sidecars it leaves. *)
Lemma expire_loop_sidecars vs : ∀ w es,
  Fs.resolve (tree w) root = Some (Dir m es) →
  Wf.distinct (map fst es) = true →
  Forall (λ v, Wf.valid_name (snd v) = true) vs →
  List.NoDup (map snd vs) →
  ∃ w' gone, for_each (expire env root) vs w = (Ok tt, w')
    ∧ Fs.resolve (tree w') root = Some (Dir m (List.filter (keeps gone) es))
    ∧ (now w <= now w')%Q
    ∧ (chrome_headless env = true → now w' = now w)
    ∧ (∀ d, In d gone → In d (map snd vs))
    ∧ (∀ d, In d gone → sidecars w' !! sidecar_key (MakeTimestampsFileName root d) = None)
    ∧ (∀ k, sidecars w !! k = None → sidecars w' !! k = None)
    ∧ (∀ vc d, In (vc, d) vs →
         ∃ t, (now w <= t)%Q ∧ (t <= now w')%Q ∧ (In d gone ↔ expired t vc))
    ∧ (∀ k, (∀ d, In d gone → key d ≠ k) → sidecars w' !! k = sidecars w !! k).
Proof.
  induction vs as [|[vc d] vs IH]; intros w es Hroot Hdist Hvalid Hnodup.
  - exists w, []. simpl.
    split; [done|]. split; [by rewrite keeps_nil|]. split; [apply Qle_refl|].
    by repeat split.
  - inversion Hvalid as [|? ? Hd Hvs]; subst. simpl in Hd.
    inversion Hnodup as [|? ? Hnotin Hnodup']; subst.
    destruct (expire_run env root m vc d w es Hroot Hdist Hd)
      as (w1 & gone1 & Hrun1 & Hroot1 & Hle1 & Hh1 & Hexp & Hnexp).
    destruct (IH w1 _ Hroot1 (EvictFacts.distinct_filter _ _ Hdist) Hvs Hnodup')
      as (w' & gone2 & Hrun & Hroot' & Hle & Hh & Hsub & Hgone & Hmono & Hjudged & Hkeep).
    assert (∀ k, sidecars w !! k = None → sidecars w1 !! k = None) as Hmono1.
    { intros k Hk.
      destruct (Qlt_le_dec toolchain_expiration_time (now w - vc)) as [Hold|Hyoung].
      - destruct (Hexp Hold) as [_ ->].
        destruct (decide (sidecar_key (MakeTimestampsFileName root d) = k)) as [<-|Hne].
        + apply lookup_delete_eq.
        + by rewrite lookup_delete_ne.
      - destruct (Hnexp (Qle_not_lt _ _ Hyoung)) as [_ ->]. done. }
    exists w', (gone1 ++ gone2). cbn [for_each].
    rewrite (bind_ok _ _ _ _ _ Hrun1). split; [exact Hrun|].
    rewrite keeps_app in Hroot'. split; [exact Hroot'|].
    split; [lra|]. split; [intros Hhl; by rewrite (Hh Hhl), (Hh1 Hhl)|].
    assert (gone1 = [d] ∧ expired (now w) vc ∨ gone1 = [] ∧ ¬ expired (now w) vc)
      as Hcases.
    { destruct (Qlt_le_dec toolchain_expiration_time (now w - vc)) as [Hold|Hyoung].
      - left. by destruct (Hexp Hold).
      - right. pose proof (Qle_not_lt _ _ Hyoung) as Hnot. by destruct (Hnexp Hnot). }
    split; [|split; [|split; [|split]]].
    + intros x [Hx|Hx]%in_app_iff.
      * destruct Hcases as [[-> _]|[-> _]]; [|done].
        destruct Hx as [<-|[]]. by left.
      * right. by apply Hsub.
    + intros x [Hx|Hx]%in_app_iff.
      * destruct Hcases as [[-> Hold]|[-> _]]; [|done].
        destruct Hx as [<-|[]]. apply Hmono.
        destruct (Hexp Hold) as [_ ->]. apply lookup_delete_eq.
      * by apply Hgone.
    + intros k Hk. by apply Hmono, Hmono1.
    + intros vc' d' [[= -> ->]|Hin].
      * exists (now w). split; [apply Qle_refl|]. split; [lra|].
        rewrite in_app_iff.
        destruct Hcases as [[-> Hold]|[-> Hyoung]]; split; try done.
        -- intros _. left. by left.
        -- intros [[]|Hx]. destruct Hnotin. by apply Hsub.
      * destruct (Hjudged vc' d' Hin) as (t & Ht1 & Ht2 & Hiff).
        exists t. split; [lra|]. split; [done|].
        rewrite in_app_iff, <- Hiff.
        split; [|by right]. intros [Hx|Hx]; [|done].
        destruct Hcases as [[-> _]|[-> _]]; [|done].
        destruct Hx as [<-|[]]. destruct Hnotin.
        apply in_map_iff. by exists (vc', d).
    + intros k Hk.
      rewrite Hkeep by (intros x Hx; apply Hk, in_app_iff; by right).
      destruct Hcases as [[-> Hold]|[-> Hyoung]].
      * destruct (Hexp Hold) as [_ ->]. apply lookup_delete_ne, Hk. by left.
      * by destruct (Hnexp Hyoung) as [_ ->].
Qed.

End Sidecars.

Section Verdict.
Context (env : Env) (root : string) (m : timestamp).

Local Abbreviation key d := (sidecar_key (MakeTimestampsFileName root d)).

(** What the eviction does with a version that has its sidecar: it is
    judged by the clock at its turn, and goes with its sidecar or stays
    with it. *)
Lemma RemoveUnusedToolchains_run w es :
  Fs.resolve (tree w) root = Some (Dir m es) →
  Wf.names_ok (map fst es) = true →
  (∀ d n, In (d, n) es → Fs.is_dir n = true → sidecar_present root d w = true →
          is_Some (touch_time n)) →
  ∃ w',
    RemoveUnusedToolchains env root w = (Ok tt, w')
    ∧ (now w <= now w')%Q
    ∧ (chrome_headless env = true → now w' = now w)
    ∧ ∀ d n last_use, In (d, n) es → Fs.is_dir n = true →
        sidecar_present root d w = true → touch_time n = Some last_use →
        ∃ t, (now w <= t)%Q ∧ (t <= now w')%Q
          ∧ (expired t last_use →
               Fs.resolve (tree w') (Path.join root d) = None
               ∧ sidecar_present root d w' = false)
          ∧ (¬ expired t last_use →
               Fs.resolve (tree w') (Path.join root d) = Some n
               ∧ sidecars w' !! key d = sidecars w !! key d).
Proof.
  intros Hroot Hok Hvc.
  pose proof Hok as [Hvalid Hdist]%andb_true_iff.
  rewrite forallb_forall in Hvalid.
  unfold RemoveUnusedToolchains.
  rewrite (bind_ok (os_listdir root) _ w (map fst es) w).
  2:{ unfold os_listdir. unfold_m. unfold Fs.listdir. by rewrite Hroot. }
  destruct (sort_entries_run root m es [] [] [] w Hroot Hok Hvc)
    as (w1 & Hrun1 & Hroot1 & Hs1 & Hn1).
  rewrite (bind_ok _ _ _ _ _ Hrun1). cbn [app]. simpl in Hroot1.
  set (dirs := List.filter (λ e : string * node, Fs.is_dir (snd e)) es) in *.
  assert (Wf.distinct (map fst dirs) = true) as Hdist1
    by by apply EvictFacts.distinct_filter.
  assert (Forall (λ d, Wf.valid_name d = true) (orphans root w es)) as Hvo.
  { apply List.Forall_forall. intros d (n & Hin & _)%in_orphans.
    apply Hvalid, in_map_iff. by exists (d, n). }
  destruct (remove_orphans_run env root m (orphans root w es) w1 dirs Hroot1 Hdist1 Hvo)
    as (w2 & Hrun2 & Hroot2 & Hn2 & Hs2).
  pose proof (λ k, remove_orphans_sidecars env root m (orphans root w es) w1 dirs k
                     Hroot1 Hdist1 Hvo) as Hkeep2.
  rewrite Hrun2 in Hkeep2. simpl in Hkeep2.
  rewrite (bind_ok _ _ _ _ _ Hrun2).
  set (kept := List.filter (keeps (orphans root w es)) dirs) in *.
  assert (Wf.distinct (map fst kept) = true) as Hdist2
    by by apply EvictFacts.distinct_filter.
  destruct (expire_loop_sidecars env root m (versions root w es) w2 kept Hroot2 Hdist2)
    as (w' & gone & Hrun & Hroot' & Hle & Hh & Hsub & Hgone & Hmono & Hjudged & Hkeep).
  { apply List.Forall_forall. intros [vc d] (n & Hin & _)%in_versions.
    apply Hvalid, in_map_iff. by exists (d, n). }
  { by apply versions_NoDup, EvictFacts.distinct_NoDup. }
  exists w'. split; [exact Hrun|].
  split; [rewrite <- Hn1, <- Hn2; exact Hle|].
  split; [intros Hhl; by rewrite (Hh Hhl), Hn2, Hn1|].
  intros d n last_use Hin Hdir Hsc Hlast.
  assert (Wf.valid_name d = true) as Hd.
  { apply Hvalid, in_map_iff. by exists (d, n). }
  rewrite (resolve_entry root m _ _ d Hroot' Hd).
  assert (In (d, n) dirs) as Hin1 by (apply List.filter_In; by split).
  assert (∀ names, (∀ x, In x names → In x (map fst es)) →
                   existsb (Fs.same_name d) names = true → In d names) as Hnamed.
  { intros names Hnames (x & Hx & Hsame)%existsb_exists.
    assert (d = x) as ->; [|done].
    apply (EvictFacts.distinct_same_name (map fst es)); [done| | |done].
    - apply in_map_iff. by exists (d, n).
    - by apply Hnames. }
  assert (∀ x, In x gone → In x (map fst es)) as Hgone_es.
  { intros x Hx. apply Hsub in Hx.
    apply in_map_iff in Hx as ([vc x'] & Heq & Hx). simpl in Heq. subst x'.
    apply in_versions in Hx as (k & Hk & _).
    apply in_map_iff. by exists (x, k). }
  assert (In (last_use, d) (versions root w es)) as Hv
    by (apply in_versions; by exists n).
  destruct (Hjudged last_use d Hv) as (t & Ht1 & Ht2 & Hiff).
  exists t. split; [by rewrite <- Hn1, <- Hn2|]. split; [done|].
  assert (In (d, n) kept) as Hin2.
  { apply List.filter_In. split; [done|]. unfold keeps. simpl. rewrite Hdir. simpl.
    apply negb_true_iff, not_true_is_false. intros Hex.
    apply Hnamed in Hex.
    - apply in_orphans in Hex as (k & Hk & _ & Hnsc). congruence.
    - intros x (k & Hk & _)%in_orphans. apply in_map_iff. by exists (x, k). }
  rewrite (find_entry_filter (keeps gone) kept d n Hdist2 Hin2).
  unfold keeps. simpl. rewrite Hdir. simpl. split.
  - intros Hexp%Hiff. split.
    + assert (existsb (Fs.same_name d) gone = true) as ->; [|done].
      apply existsb_exists. exists d. split; [done|apply FsFacts.same_name_refl].
    + unfold sidecar_present. apply bool_decide_eq_false.
      rewrite (Hgone d Hexp). by intros [? ?].
  - intros Hnexp. split.
    + destruct (existsb (Fs.same_name d) gone) eqn:Hex; [|done].
      destruct Hnexp. apply Hiff. by apply Hnamed.
    + rewrite Hkeep, Hkeep2, Hs1; [done| |].
      * intros x (k & Hk & _ & Hnsc)%in_orphans Hkey.
        unfold sidecar_present in Hnsc, Hsc. rewrite Hkey in Hnsc. congruence.
      * intros x Hx Hkey.
        assert (x = d) as ->.
        { apply (EvictFacts.distinct_same_name (map fst es)); [done| | |].
          - by apply Hgone_es.
          - apply in_map_iff. by exists (d, n).
          - apply (key_same_name root); [|done|done].
            specialize (Hgone_es x Hx). by apply Hvalid. }
        by apply Hnexp, Hiff.
Qed.

End Verdict.

(** ** Touching an entry of a version *)

Section Touch.
Context (root : string) (m : timestamp).

Lemma name_ends_plain s : Wf.no_sep s = true → s ≠ "" →
  ∃ c, Str.last s = Some c ∧ Str.is_sep c = false.
Proof.
  induction s as [|x s IH]; [done|]. intros [Hx Hs]%andb_true_iff _.
  destruct s as [|y s].
  - exists x. split; [done|]. by apply negb_true_iff.
  - destruct (IH Hs) as (c & Hc & Hsep); [done|]. by exists c.
Qed.

(** Joining twice is joining once with the two names. *)
Lemma join_join d c :
  Wf.valid_name d = true → Wf.valid_name c = true →
  Path.join (Path.join root d) c = Path.join root (d +:+ Path.sep +:+ c).
Proof.
  intros Hd Hc.
  assert (d ≠ "") as Hne by (intros ->; discriminate Hd).
  pose proof (PathFacts.isabs_valid_name d Hd) as Hdabs.
  rewrite (PathFacts.join_rel (Path.join root d) c)
    by by apply PathFacts.isabs_valid_name.
  rewrite (PathFacts.join_rel root d) by done.
  rewrite (PathFacts.join_rel root (d +:+ Path.sep +:+ c))
    by by rewrite PathFacts.isabs_app.
  apply andb_true_iff in Hd as [_ Hsep].
  destruct (name_ends_plain d Hsep Hne) as (x & Hlast & Hx).
  destruct d as [|y d]; [done|].
  unfold Path.join at 1. simpl Path.isabs.
  rewrite PathFacts.last_app_cons, Hlast, Hx.
  by rewrite StrFacts.sapp_nil_r, !StrFacts.sapp_assoc.
Qed.

(** Touching [root\d\c] changes the entry [d] of the root, no other. *)
Lemma set_mtime_entry t es d c mt :
  Fs.resolve t root = Some (Dir m es) →
  Wf.valid_name d = true → Wf.valid_name c = true →
  Fs.resolve (Fs.set_mtime (Path.join (Path.join root d) c) mt t) root
  = Some (Dir m (Fs.alter_entry d (λ x, Some (Listing.retimed [c] mt x)) es)).
Proof.
  intros Hroot Hd Hc. rewrite join_join by done. unfold Fs.set_mtime.
  apply (RetimeFacts.alter_join _ _ _ _ _ _ Hroot).
  - rewrite PathFacts.isabs_app; [by apply PathFacts.isabs_valid_name|].
    intros ->. discriminate Hd.
  - pose proof Hd as [Hstays Hdsep]%andb_true_iff.
    pose proof Hc as [_ Hcsep]%andb_true_iff.
    change (d +:+ Path.sep +:+ c) with (d +:+ String Str.backslash c).
    rewrite PathFacts.components_app_sep by done.
    rewrite (PathFacts.components_no_sep _ Hdsep), (PathFacts.components_no_sep _ Hcsep).
    simpl. apply negb_true_iff in Hstays. rewrite Hstays. do 2 f_equal.
    apply RetimeFacts.alter_entry_ext. intros x.
    apply (RetimeFacts.alter_at_retimed [c]).
Qed.

Lemma is_dir_retimed cs mt n : Fs.is_dir (Listing.retimed cs mt n) = Fs.is_dir n.
Proof.
  revert n. induction cs as [|c cs IH]; intros n; simpl; [by destruct n|].
  destruct (Fs.stays c); [apply IH|]. by destruct n.
Qed.

(** A touched [VC] bears the new time. *)
Lemma touch_time_retimed mt n :
  is_Some (touch_time n) → touch_time (Listing.retimed ["VC"] mt n) = Some mt.
Proof.
  unfold touch_time. intros [t Ht]. simpl.
  change (Fs.stays "VC") with false. cbv iota.
  destruct n as [|dm es]; [done|]. unfold Fs.step in *.
  change (Fs.stays "VC") with false in *. cbv iota in *.
  rewrite RetimeFacts.find_alter_entry.
  destruct (Fs.find_entry "VC" es) as [x|]; [|done]. simpl. by destruct x.
Qed.

(** The entries after a change: the one changed, the others as they
    were. *)
Lemma alter_entry_inv c (g : node → node) es name x :
  In (name, x) (Fs.alter_entry c (λ y, Some (g y)) es) →
  In (name, x) es ∨ (∃ x0, In (name, x0) es ∧ x = g x0).
Proof.
  induction es as [|[n y] es IH]; [done|]. simpl.
  destruct (Fs.same_name n c) eqn:Hn; simpl.
  - intros [[= -> <-]|Hin]; [right; exists y; split; [by left|done]|left; by right].
  - intros [[= -> ->]|Hin]; [left; by left|].
    destruct (IH Hin) as [?|(x0 & ? & ?)]; [left; by right|right].
    exists x0. split; [by right|done].
Qed.

Lemma alter_entry_changed (g : node → node) es d n :
  Wf.distinct (map fst es) = true → In (d, n) es →
  In (d, g n) (Fs.alter_entry d (λ y, Some (g y)) es).
Proof.
  induction es as [|[x k] es IH]; [done|]. simpl.
  intros [Hx Hdist]%andb_true_iff Hin.
  destruct (Fs.same_name x d) eqn:Hsame.
  - destruct Hin as [[= -> ->]|Hin]; [by left|].
    apply negb_true_iff in Hx. exfalso.
    assert (existsb (Fs.same_name x) (map fst es) = true) as Hex; [|congruence].
    apply existsb_exists. exists d. split; [|done].
    apply in_map_iff. by exists (d, n).
  - destruct Hin as [[= -> ->]|Hin].
    + by rewrite FsFacts.same_name_refl in Hsame.
    + right. by apply IH.
Qed.

End Touch.

(** ** The empty version directory *)

(** C9: when the version directory holds no file and the sidecar is absent
    or does not parse, [CalculateHash] returns the empty string, the
    default stored value, through the fast path; the digest of nothing,
    which the full calculation would give, is another string. *)
Theorem CalculateHash_empty_directory root expected_hash w n :
  GetFileList_accepts (version_root root expected_hash) = true →
  Fs.resolve (tree w) (version_root root expected_hash) = Some n →
  Wf.rel_files n = [] →
  sidecars w !! sidecar_key (MakeTimestampsFileName root expected_hash) = None
  ∨ sidecars w !! sidecar_key (MakeTimestampsFileName root expected_hash)
    = Some Unparsable →
  CalculateHash root expected_hash w = (Ok "", after_load root expected_hash w)
  ∧ fst (rehash root expected_hash [] (after_load root expected_hash w))
    = Ok "da39a3ee5e6b4b0d3255bfef95601890afd80709".
Proof.
  intros Hacc Hres Hfiles Hsc. split; [|reflexivity].
  rewrite CalculateHash_unfold. cbv zeta. rewrite Hacc.
  rewrite (file_list_of_resolved _ _ _ Hres). unfold listed_paths.
  rewrite Hfiles. unfold loaded_timestamps.
  destruct Hsc as [-> | ->]; reflexivity.
Qed.

Lemma CalculateHash_empty_directory_witness :
  CalculateHash "vs_files" "abc" Empty.no_sidecar = (Ok "", Empty.no_sidecar).
Proof.
  refine (proj1 (CalculateHash_empty_directory "vs_files" "abc" Empty.no_sidecar
                   (Dir 7 [("VC", Dir 7 [])]) _ _ _ _)).
  - vm_compute. reflexivity.
  - vm_compute. reflexivity.
  - reflexivity.
  - left. vm_compute. reflexivity.
Defined.

(** C3 at its failing input: no sidecar exists and the version directory
    is empty; [CalculateHash] answers through the fast path, with the empty
    string, where a full re-hash gives the digest of nothing. *)
Theorem CalculateHash_no_sidecar_no_rehash :
  CalculateHash "vs_files" "abc" Empty.no_sidecar = (Ok "", Empty.no_sidecar)
  ∧ sidecars Empty.no_sidecar
      !! sidecar_key (MakeTimestampsFileName "vs_files" "abc") = None
  ∧ rehash "vs_files" "abc" [] Empty.no_sidecar
    = (Ok "da39a3ee5e6b4b0d3255bfef95601890afd80709",
       with_event (EvStdout "Calculating hash of toolchain in vs_files\abc. Please wait...")
         Empty.no_sidecar).
Proof. repeat split; vm_compute; reflexivity. Qed.

(** C7 at its failing input: the sidecar does not parse and the version
    directory is empty; the sidecar is discarded without an error, but no
    re-hash follows: the answer is the empty string, not the fresh digest. *)
Theorem CalculateHash_corrupt_sidecar_no_rehash :
  CalculateHash "vs_files" "abc" Empty.corrupt_sidecar
  = (Ok "", with_event (EvReadSidecar (MakeTimestampsFileName "vs_files" "abc"))
              Empty.corrupt_sidecar)
  ∧ fst (rehash "vs_files" "abc" [] Empty.corrupt_sidecar)
    = Ok "da39a3ee5e6b4b0d3255bfef95601890afd80709".
Proof. split; vm_compute; reflexivity. Qed.

(** ** Crash reports are left out *)

Lemma filter_listed top l :
  List.filter not_crash_report (map (λ e, Wf.join_all top (fst (fst e))) l)
  = map (λ e, Wf.join_all top (fst (fst e))) (List.filter (Listing.kept top) l).
Proof.
  induction l as [|e l IH]; [done|]. simpl. rewrite IH.
  unfold Listing.kept. by destruct (not_crash_report _).
Qed.

(** The file list is that of the directory with the crash reports
    deleted. *)
Lemma file_list_of_prune t full n :
  Fs.resolve t full = Some n →
  file_list_of t full
  = Str.sorted Str.backslashes (map Str.lower (listed_paths full (prune full n))).
Proof.
  intros Hres. rewrite (file_list_of_resolved _ _ _ Hres). unfold listed_paths.
  by rewrite PruneFacts.rel_files_prune, filter_listed.
Qed.

(** A listed path leads to the same file in any well-formed directory that
    holds the same files apart from crash reports. *)
Lemma listed_file_same t1 t2 full n1 n2 p :
  Fs.resolve t1 full = Some n1 → Fs.resolve t2 full = Some n2 →
  Wf.wf n1 = true → Wf.wf n2 = true →
  Wf.rel_files (prune full n1) = Wf.rel_files (prune full n2) →
  In p (file_list_of t1 full) →
  Fs.resolve t1 p = Fs.resolve t2 p.
Proof.
  intros Hres1 Hres2 Hwf1 Hwf2 Hprune Hin.
  destruct (file_list_of_inv _ _ _ _ Hres1 Hin) as (cs & m & d & Hcs & Hkept & ->).
  rewrite (listed_resolves _ _ _ _ _ _ Hres1 Hwf1 Hcs).
  symmetry. apply (listed_resolves _ _ n2); [done..|].
  assert (Hin2 : In (cs, m, d) (Wf.rel_files (prune full n2))).
  { rewrite <- Hprune, PruneFacts.rel_files_prune. apply filter_In. by split. }
  rewrite PruneFacts.rel_files_prune in Hin2. by apply filter_In in Hin2 as [? _].
Qed.

Lemma map_m_getmtime_agree l w1 w2 :
  (∀ p, In p l → Fs.getmtime (tree w1) p = Fs.getmtime (tree w2) p) →
  fst (map_m (λ f, let* m := os_path_getmtime f in ret (f, m)) l w1)
  = fst (map_m (λ f, let* m := os_path_getmtime f in ret (f, m)) l w2)
  ∧ snd (map_m (λ f, let* m := os_path_getmtime f in ret (f, m)) l w1) = w1
  ∧ snd (map_m (λ f, let* m := os_path_getmtime f in ret (f, m)) l w2) = w2.
Proof.
  induction l as [|p l IH]; intros Hagree; [done|]. simpl.
  destruct IH as (IH1 & IH2 & IH3); [intros q Hq; apply Hagree; by right|].
  unfold_m. simpl. rewrite (Hagree p) by (by left).
  destruct (Fs.getmtime (tree w2) p); [|done].
  destruct (map_m _ l w1) as [r1 w1'], (map_m _ l w2) as [r2 w2'].
  simpl in *. subst. by destruct r2.
Qed.

Lemma SaveTimestampsAndHash_unfold root sha1 w :
  SaveTimestampsAndHash root sha1 w =
  if GetFileList_accepts (Path.join root sha1) then
    match map_m (λ f, let* m := os_path_getmtime f in ret (f, m))
            (file_list_of (tree w) (Path.join root sha1)) w with
    | (Ok files, w') =>
        (Ok tt,
         with_sidecars
           (insert (sidecar_key (MakeTimestampsFileName root sha1))
              (Parsed (TimestampsData files sha1)))
           (with_event (EvWriteSidecar (MakeTimestampsFileName root sha1)) w'))
    | (Raised e, w') => (Raised e, w')
    end
  else (Raised AssertionError, w).
Proof.
  unfold SaveTimestampsAndHash. unfold bind at 1. rewrite GetFileList_run.
  destruct (GetFileList_accepts _); [|done].
  unfold bind at 1. destruct (map_m _ _ w) as [[files|e] w']; reflexivity.
Qed.

(** C8: a file whose path contains the crash-report directory is left out
    of the file list, which is that of the directory with such files
    deleted; two version directories that hold the same files once such
    files are left out have the same file list, the same result of
    [CalculateHash] and the same record written by
    [SaveTimestampsAndHash]. *)
Theorem crash_reports_never_count root expected_hash w1 w2 n1 n2 :
  Fs.resolve (tree w1) (version_root root expected_hash) = Some n1 →
  Fs.resolve (tree w2) (version_root root expected_hash) = Some n2 →
  Wf.wf n1 = true → Wf.wf n2 = true →
  Wf.rel_files (prune (version_root root expected_hash) n1)
  = Wf.rel_files (prune (version_root root expected_hash) n2) →
  sidecars w1 = sidecars w2 →
  file_list_of (tree w1) (version_root root expected_hash)
  = Str.sorted Str.backslashes
      (map Str.lower
         (listed_paths (version_root root expected_hash)
            (prune (version_root root expected_hash) n1)))
  ∧ fst (GetFileList (version_root root expected_hash) w1)
    = fst (GetFileList (version_root root expected_hash) w2)
  ∧ fst (CalculateHash root expected_hash w1)
    = fst (CalculateHash root expected_hash w2)
  ∧ (truthy expected_hash = true →
     fst (SaveTimestampsAndHash root expected_hash w1)
     = fst (SaveTimestampsAndHash root expected_hash w2)
     ∧ sidecars (snd (SaveTimestampsAndHash root expected_hash w1))
       = sidecars (snd (SaveTimestampsAndHash root expected_hash w2))).
Proof.
  intros Hres1 Hres2 Hwf1 Hwf2 Hprune Hsc.
  pose proof (file_list_of_prune _ _ _ Hres1) as Hfl1.
  pose proof (file_list_of_prune _ _ _ Hres2) as Hfl2.
  assert (Hfl : file_list_of (tree w1) (version_root root expected_hash)
                = file_list_of (tree w2) (version_root root expected_hash)).
  { rewrite Hfl1, Hfl2. unfold listed_paths. by rewrite Hprune. }
  assert (Hsame : ∀ p, In p (file_list_of (tree w1) (version_root root expected_hash)) →
                       Fs.resolve (tree w1) p = Fs.resolve (tree w2) p).
  { intros p Hp. eapply listed_file_same; eauto. }
  split; [done|]. split; [|split].
  - rewrite !GetFileList_run. destruct (GetFileList_accepts _); simpl; [|done].
    by rewrite Hfl.
  - apply CalculateHash_agree; [by rewrite Hsc|done|].
    intros p Hp. unfold Fs.getmtime, Fs.read. by rewrite (Hsame p Hp).
  - intros Htruthy. unfold version_root in *. rewrite Htruthy in *.
    rewrite !SaveTimestampsAndHash_unfold.
    destruct (GetFileList_accepts _); [|simpl; by rewrite Hsc].
    rewrite <- Hfl.
    destruct (map_m_getmtime_agree
                (file_list_of (tree w1) (Path.join root expected_hash)) w1 w2)
      as (Hm1 & Hm2 & Hm3).
    { intros p Hp. unfold Fs.getmtime. by rewrite (Hsame p Hp). }
    destruct (map_m _ _ w1) as [r1 w1'], (map_m _ _ w2) as [r2 w2'].
    simpl in *. subst. destruct r2; simpl; [|done]. by rewrite Hsc.
Qed.

Lemma crash_reports_never_count_witness :
  fst (CalculateHash "vs_files" "abc" (Sample.world (Sample.cwd "abc")))
  = fst (CalculateHash "vs_files" "abc" (Sample.world Sample.cwd_with_crash_reports)).
Proof.
  refine (proj1 (proj2 (proj2
    (crash_reports_never_count "vs_files" "abc"
       (Sample.world (Sample.cwd "abc")) (Sample.world Sample.cwd_with_crash_reports)
       Sample.toolchain Sample.toolchain_with_crash_reports _ _ _ _ _ _)))).
  all: vm_compute; reflexivity.
Defined.

(** ** What invalidates a sidecar *)

Section Invalidation.
Import Str Path Fs Wf Listing.

Context (root expected_hash : string) (w w' : World) (n : node).
Local Abbreviation full := (version_root root expected_hash).
Local Abbreviation recorded := (loaded_timestamps root expected_hash w).

Hypothesis Hacc : GetFileList_accepts full = true.
Hypothesis Hres : resolve (tree w) full = Some n.
Hypothesis Hwf : wf n = true.
Hypothesis Hval : sidecar_validates root expected_hash w.
Hypothesis Hsc : sidecars w' = sidecars w.

Lemma loaded_same : loaded_timestamps root expected_hash w' = recorded.
Proof. unfold loaded_timestamps. by rewrite Hsc. Qed.

(** Touching [VC] leaves the sidecar valid. *)
Lemma touch_keeps_sidecar m' :
  tree w' = set_mtime (join full "VC") m' (tree w) →
  sidecar_validates root expected_hash w'.
Proof.
  intros Htree. destruct Hval as [Hlen Hm].
  assert (Hv : Forall (λ c, valid_name c = true) ["VC"]) by (by repeat constructor).
  assert (Hfl : file_list_of (tree w') full = file_list_of (tree w) full).
  { rewrite Htree. by apply (set_mtime_file_list _ _ n ["VC"]). }
  split; rewrite loaded_same, Hfl; [done|].
  rewrite <- Hm. apply timestamps_match_agree.
  intros disk Hin Hvc. apply list_elem_of_In, in_map_iff in Hin as ([p c] & <- & Hin).
  apply list_elem_of_In, elem_of_zip_l, list_elem_of_In in Hin. simpl in *.
  unfold getmtime. rewrite Htree.
  by rewrite (set_mtime_other _ _ n ["VC"] m' Hres Hwf Hv).
Qed.

(** Another time on a recorded file makes the comparison fail. *)
Lemma retime_breaks_sidecar p m_rec m' :
  In (p, m_rec) (td_files recorded) → p ≠ vc_dir_of root expected_hash →
  ¬ (m' == m_rec)%Q →
  tree w' = set_mtime p m' (tree w) →
  file_list_of (tree w') full = file_list_of (tree w) full
  ∧ fst (timestamps_match (vc_dir_of root expected_hash)
           (zip (file_list_of (tree w') full) (td_files recorded)) w') = Ok false.
Proof.
  intros Hrec Hvc Hneq Htree.
  pose proof (sidecar_validates_paths _ _ _ Hval) as Hpaths.
  assert (Hp : In p (file_list_of (tree w) full)).
  { rewrite Hpaths. by apply (in_map fst) in Hrec. }
  destruct (file_list_of_inv _ _ _ _ Hres Hp) as (cs & mt & d & Hin & _ & Hpeq).
  destruct (WalkFacts.rel_files_coherent n cs mt d Hwf Hin) as (Hd & Hv & Hne).
  assert (Htree' : tree w' = set_mtime (join_all full cs) m' (tree w)).
  { rewrite Htree, Hpeq. unfold set_mtime. apply RetimeFacts.alter_lower. }
  assert (Hfl : file_list_of (tree w') full = file_list_of (tree w) full).
  { rewrite Htree'. by apply (set_mtime_file_list _ _ n cs). }
  split; [done|]. rewrite Hfl.
  assert (Hthere : getmtime (tree w') p = Some m').
  { rewrite Htree', Hpeq. by apply (set_mtime_there _ _ n cs m' Hres Hv Hne (File mt d)). }
  destruct (timestamps_match_total (vc_dir_of root expected_hash)
              (zip (file_list_of (tree w) full) (td_files recorded)) w') as [b Hb].
  { intros disk Hdisk. apply in_map_iff in Hdisk as ([q c] & <- & Hq).
    apply list_elem_of_In, elem_of_zip_l, list_elem_of_In in Hq. simpl.
    destruct (String.eqb_spec q p) as [->|Hqp]; [by rewrite Hthere|].
    unfold getmtime. rewrite Htree'.
    rewrite (set_mtime_other _ _ n cs m' Hres Hwf Hv) by (try done; by rewrite <- Hpeq).
    destruct (file_list_of_inv _ _ _ _ Hres Hq) as (cs' & mt' & d' & Hin' & _ & ->).
    by rewrite (listed_resolves _ _ _ _ _ _ Hres Hwf Hin'). }
  rewrite Hb. f_equal. destruct b; [|done]. exfalso.
  apply timestamps_match_true in Hb. rewrite List.Forall_forall in Hb.
  specialize (Hb (p, (p, m_rec))). simpl in Hb.
  destruct Hb as [_ [?|(m & Hm & Hq)]]; [|done|].
  - rewrite Hpaths. exact (in_zip_map fst _ (p, m_rec) Hrec).
  - rewrite Hthere in Hm. injection Hm as <-. by apply Qeq_bool_eq in Hq.
Qed.

End Invalidation.

(** C2, amended: for a version directory whose sidecar validates, (a) a
    new modification time on [VC] alone leaves it valid and
    [CalculateHash] still returns the stored hash; (b) a new modification
    time on any other recorded file makes [CalculateHash] hash again; (c)
    one file more or one file less under the version root makes it hash
    again, provided the file's path does not contain the crash-report
    directory. *)
Theorem sidecar_invalidation root expected_hash w w' n :
  GetFileList_accepts (version_root root expected_hash) = true →
  Fs.resolve (tree w) (version_root root expected_hash) = Some n →
  Wf.wf n = true →
  sidecar_validates root expected_hash w →
  sidecars w' = sidecars w →
  (∀ m',
     tree w' = Fs.set_mtime (Path.join (version_root root expected_hash) "VC") m' (tree w) →
     sidecar_validates root expected_hash w'
     ∧ CalculateHash root expected_hash w'
       = (Ok (td_sha1 (loaded_timestamps root expected_hash w)),
          after_load root expected_hash w'))
  ∧ (∀ p m_rec m',
       In (p, m_rec) (td_files (loaded_timestamps root expected_hash w)) →
       p ≠ vc_dir_of root expected_hash →
       ¬ (m' == m_rec)%Q →
       tree w' = Fs.set_mtime p m' (tree w) →
       ¬ sidecar_validates root expected_hash w'
       ∧ CalculateHash root expected_hash w'
         = rehash root expected_hash
             (file_list_of (tree w') (version_root root expected_hash))
             (after_load root expected_hash w'))
  ∧ (∀ cs n',
       Fs.resolve (tree w') (version_root root expected_hash) = Some n' →
       Listing.adds_file cs n n' ∨ Listing.adds_file cs n' n →
       not_crash_report (Wf.join_all (version_root root expected_hash) cs) = true →
       ¬ sidecar_validates root expected_hash w'
       ∧ CalculateHash root expected_hash w'
         = rehash root expected_hash
             (file_list_of (tree w') (version_root root expected_hash))
             (after_load root expected_hash w')).
Proof.
  intros Hacc Hres Hwf Hval Hsc.
  pose proof (loaded_same root expected_hash w w' Hsc) as Hloaded.
  split; [|split].
  - intros m' Htree.
    pose proof (touch_keeps_sidecar _ _ _ _ _ Hres Hwf Hval Hsc m' Htree) as Hval'.
    split; [done|]. rewrite <- Hloaded. by apply CalculateHash_validates.
  - intros p m_rec m' Hrec Hvc Hneq Htree.
    destruct (retime_breaks_sidecar _ _ _ _ _ Hres Hwf Hval p m_rec m' Hrec Hvc Hneq Htree)
      as [Hfl Hfalse].
    split.
    + intros [_ Hm]. rewrite Hloaded in Hm. by rewrite Hfalse in Hm.
    + apply CalculateHash_mismatch; [done|]. by rewrite Hloaded.
  - intros cs n' Hres' Hadd Hnc. destruct Hval as [Hlen _].
    assert (Hdiff : length (file_list_of (tree w') (version_root root expected_hash))
                    ≠ length (td_files (loaded_timestamps root expected_hash w'))).
    { rewrite Hloaded, <- Hlen. destruct Hadd as [Hadd|Hadd].
      - rewrite (adds_file_length _ _ _ _ _ _ Hres Hres' Hadd Hnc). lia.
      - rewrite (adds_file_length _ _ _ _ _ _ Hres' Hres Hadd Hnc). lia. }
    split; [by intros [? _]|]. by apply CalculateHash_length_differs.
Qed.

Lemma sidecar_invalidation_witness :
  CalculateHash "vs_files" "abc" Sample.touched
  = (Ok "abc", after_load "vs_files" "abc" Sample.touched)
  ∧ CalculateHash "vs_files" "abc" Sample.compiler_rewritten
    = rehash "vs_files" "abc"
        (file_list_of (tree Sample.compiler_rewritten) "vs_files\abc")
        (after_load "vs_files" "abc" Sample.compiler_rewritten)
  ∧ CalculateHash "vs_files" "abc" Sample.readme_added
    = rehash "vs_files" "abc"
        (file_list_of (tree Sample.readme_added) "vs_files\abc")
        (after_load "vs_files" "abc" Sample.readme_added).
Proof.
  assert (Hval : sidecar_validates "vs_files" "abc" Sample.saved)
    by (split; vm_compute; reflexivity).
  split; [|split].
  - refine (proj2 (proj1 (sidecar_invalidation "vs_files" "abc" Sample.saved
                            Sample.touched Sample.toolchain _ _ _ Hval _) 2000 _));
      vm_compute; reflexivity.
  - refine (proj2 (proj1 (proj2 (sidecar_invalidation "vs_files" "abc" Sample.saved
                            Sample.compiler_rewritten Sample.toolchain _ _ _ Hval _))
                     "vs_files\abc\vc\bin\cl.exe" 10 2000 _ _ _ _)).
    1-4: vm_compute; reflexivity.
    + vm_compute. left. reflexivity.
    + vm_compute. discriminate.
    + vm_compute. discriminate.
    + reflexivity.
  - refine (proj2 (proj2 (proj2 (sidecar_invalidation "vs_files" "abc" Sample.saved
                            Sample.readme_added Sample.toolchain _ _ _ Hval _))
                     ["README"] Sample.toolchain_and_readme _ _ _)).
    1-4: vm_compute; reflexivity.
    + vm_compute. reflexivity.
    + left.
      exact (Listing.adds_here 100
               [("VS_VERSION", File 10 "2015"); ("VC", Sample.vc);
                ("win_sdk", Dir 60 [("Include.h", File 11 "#pragma once")])]
               [] "README" 2000 "read me").
    + vm_compute. reflexivity.
Defined.

(** Against C2 as stated: a crash report is added under the version root
    and the sidecar still validates; [CalculateHash] returns the stored
    hash and hashes nothing. *)
Lemma crash_report_added_sidecar_still_valid :
  sidecar_validates "vs_files" "abc" Sample.saved_queue
  ∧ Listing.adds_file ["VC"; "bin"; "WER"; "ReportQueue"; "Report.wer"]
      (Sample.toolchain_queue []) (Sample.toolchain_queue [("Report.wer", File 3000 "crash")])
  ∧ tree Sample.crashed = Sample.cwd_queue [("Report.wer", File 3000 "crash")]
  ∧ sidecars Sample.crashed = sidecars Sample.saved_queue
  ∧ sidecar_validates "vs_files" "abc" Sample.crashed
  ∧ CalculateHash "vs_files" "abc" Sample.crashed
    = (Ok "abc",
       with_event (EvReadSidecar (MakeTimestampsFileName "vs_files" "abc")) Sample.crashed)
  ∧ CalculateHash "vs_files" "abc" Sample.crashed
    ≠ rehash "vs_files" "abc" (file_list_of (tree Sample.crashed) "vs_files\abc")
        (after_load "vs_files" "abc" Sample.crashed).
Proof.
  split; [split; vm_compute; reflexivity|].
  split.
  { exact (Listing.adds_below 100 [("VS_VERSION", File 10 "2015")]
             [("win_sdk", Dir 60 [("Include.h", File 11 "#pragma once")])] "VC" _ _ _
            (Listing.adds_below 50 [] [] "bin" _ _ _
              (Listing.adds_below 50 [("cl.exe", File 10 "MZcl")] [] "WER" _ _ _
                (Listing.adds_below 70 [] [] "ReportQueue" _ _ _
                  (Listing.adds_here 70 [] [] "Report.wer" 3000 "crash"))))). }
  split; [reflexivity|]. split; [reflexivity|].
  split; [split; vm_compute; reflexivity|].
  split; [vm_compute; reflexivity|].
  vm_compute. discriminate.
Qed.

(** ** The same files under another name *)

Section Copy.
Import Str StrFacts Path PathFacts Fs FsFacts Wf WalkFacts Listing.

Context (root a : string) (n : node).
Hypothesis Hroot : lower root = root.
Hypothesis Hvalid : valid_name a = true.
Hypothesis Hlower : lower a = a.
Hypothesis Hwf : wf n = true.

(** What precedes the relative part of every path of the copy. *)
Local Abbreviation prefix := (join root "" +:+ a +:+ sep).

Lemma name_nonempty : a ≠ "".
Proof. by destruct (valid_name_inv _ Hvalid) as (? & ? & -> & _). Qed.

Lemma join_root_name : join root a = join root "" +:+ a.
Proof. apply join_rel. by apply isabs_valid_name. Qed.

Lemma copy_path cs :
  Forall (λ c, valid_name c = true) cs → cs ≠ [] →
  join_all (join root a) cs = prefix +:+ concat_with sep cs.
Proof.
  intros Hcs Hne. rewrite join_all_valid by done.
  rewrite (join_after_name root a "") by done.
  by rewrite sapp_nil_r, !sapp_assoc.
Qed.

Lemma lower_join_empty : lower (join root "") = join root "".
Proof.
  unfold join. simpl. destruct (last root) as [c|]; [|done].
  destruct (is_sep c); by rewrite ?lower_app, Hroot.
Qed.

Lemma copy_lower cs :
  Forall (λ c, valid_name c = true) cs → cs ≠ [] →
  lower (join_all (join root a) cs) = prefix +:+ lower (concat_with sep cs).
Proof.
  intros Hcs Hne. rewrite copy_path by done.
  by rewrite !lower_app, lower_join_empty, Hlower.
Qed.

(** Whether a file is left out as a crash report does not depend on the
    name of the copy. *)
Lemma copy_kept cs :
  Forall (λ c, valid_name c = true) cs → cs ≠ [] →
  not_crash_report (join_all (join root a) cs)
  = negb (contains crash_reports (join root "")
          || contains crash_reports (sep +:+ concat_with sep cs)).
Proof.
  intros Hcs Hne. unfold not_crash_report. rewrite copy_path by done.
  rewrite !sapp_assoc.
  by rewrite (contains_crash_split _ a _ (join_empty_shape root) name_nonempty Hlower).
Qed.

Lemma copy_file_list t :
  resolve t (join root a) = Some n →
  file_list_of t (join root a)
  = map (String.append prefix) (sorted backslashes (relative_list root n)).
Proof.
  intros Hres. rewrite (file_list_of_resolved _ _ _ Hres). unfold listed_paths.
  rewrite <- sorted_map.
  2: { intros x y. by rewrite !backslashes_app, leb_app. }
  f_equal. unfold relative_list.
  assert (Hok : ∀ e, In e (rel_files n) →
                     Forall (λ c, valid_name c = true) (fst (fst e)) ∧ fst (fst e) ≠ []).
  { intros [[cs m] d] Hin. by destruct (rel_files_coherent n cs m d Hwf Hin) as (_ & ? & ?). }
  induction (rel_files n) as [|e l IH]; [done|]. simpl.
  destruct (Hok e) as [Hv Hne]; [by left|].
  rewrite copy_kept by done.
  destruct (negb _); simpl; rewrite IH; try (intros e' He'; apply Hok; by right);
    [|done].
  by rewrite copy_lower.
Qed.

(** Stripping the name from a listed path leaves [root] and the relative
    part. *)
Lemma copy_stripped x :
  contains (backslashes (join root a)) (sep +:+ backslashes x) = false →
  replace (backslashes (join root a)) root (backslashes (prefix +:+ x))
  = root +:+ sep +:+ backslashes x.
Proof.
  intros Habsent.
  assert (E : prefix +:+ x = join root a +:+ (sep +:+ x))
    by (by rewrite join_root_name, !sapp_assoc).
  rewrite E, backslashes_app.
  change (backslashes (sep +:+ x)) with (sep +:+ backslashes x).
  apply replace_head; [|done].
  rewrite join_root_name, backslashes_app.
  destruct (valid_name_inv _ Hvalid) as (c & a' & -> & _).
  by destruct (backslashes (join root "")).
Qed.

Lemma strips_once_spec x :
  strips_once root a n = true → In x (sorted backslashes (relative_list root n)) →
  contains (backslashes (join root a)) (sep +:+ backslashes x) = false.
Proof.
  unfold strips_once. rewrite forallb_forall. intros Hall Hin.
  apply list_elem_of_In, sorted_elem, list_elem_of_In in Hin.
  unfold relative_list in Hin.
  apply in_map_iff in Hin as (e & <- & [He _]%filter_In).
  by apply negb_true_iff, (Hall e).
Qed.

End Copy.

Section Copies.
Import Str StrFacts Path PathFacts Fs FsFacts Wf WalkFacts Listing.

Context (root a b : string) (n : node) (wA wB : World).
Hypothesis Hroot : lower root = root.
Hypothesis HvalidA : valid_name a = true.
Hypothesis HvalidB : valid_name b = true.
Hypothesis HlowerA : lower a = a.
Hypothesis HlowerB : lower b = b.
Hypothesis Hwf : wf n = true.
Hypothesis HresA : resolve (tree wA) (join root a) = Some n.
Hypothesis HresB : resolve (tree wB) (join root b) = Some n.
Hypothesis HonceA : strips_once root a n = true.
Hypothesis HonceB : strips_once root b n = true.

Local Abbreviation prefixA := (join root "" +:+ a +:+ sep).
Local Abbreviation prefixB := (join root "" +:+ b +:+ sep).
Local Abbreviation relatives := (sorted backslashes (relative_list root n)).

(** A listed path leads to the same file in both copies. *)
Lemma copies_resolve x :
  In x relatives →
  ∃ m d, resolve (tree wA) (prefixA +:+ x) = Some (File m d)
         ∧ resolve (tree wB) (prefixB +:+ x) = Some (File m d).
Proof.
  intros Hin. apply list_elem_of_In, sorted_elem, list_elem_of_In in Hin.
  unfold relative_list in Hin.
  apply in_map_iff in Hin as ([[cs m] d] & <- & [He _]%filter_In).
  destruct (rel_files_coherent n cs m d Hwf He) as (_ & Hv & Hne).
  exists m, d. simpl.
  rewrite <- (copy_lower root a Hroot HvalidA HlowerA) by done.
  rewrite <- (copy_lower root b Hroot HvalidB HlowerB) by done.
  split; by apply (listed_resolves _ _ n).
Qed.

(** The digest loop is fed the same bytes for both copies. *)
Lemma hash_files_copies l : ∀ digest w1 w2,
  (∀ x, In x l → In x relatives) →
  tree w1 = tree wA → tree w2 = tree wB →
  fst (hash_files root a digest (map (String.append prefixA) l) w1)
  = fst (hash_files root b digest (map (String.append prefixB) l) w2).
Proof.
  induction l as [|x l IH]; intros digest w1 w2 Hsub Ht1 Ht2; [done|].
  simpl.
  assert (Hx : In x relatives) by (apply Hsub; by left).
  assert (HtA : truthy a = true).
  { unfold truthy. destruct (String.eqb_spec a ""); [|done].
    by destruct (name_nonempty a HvalidA HlowerA). }
  assert (HtB : truthy b = true).
  { unfold truthy. destruct (String.eqb_spec b ""); [|done].
    by destruct (name_nonempty b HvalidB HlowerB). }
  rewrite HtA, HtB.
  rewrite (copy_stripped root a HvalidA HlowerA x)
    by (by apply (strips_once_spec root a n)).
  rewrite (copy_stripped root b HvalidB HlowerB x)
    by (by apply (strips_once_spec root b n)).
  destruct (copies_resolve x Hx) as (m & d & HrA & HrB).
  unfold_m. simpl. unfold read. rewrite Ht1, Ht2, HrA, HrB. simpl.
  apply IH; [|done..]. intros y Hy. apply Hsub. by right.
Qed.

End Copies.

(** A sidecar that does not validate, in a well-formed directory, sends
    [CalculateHash] to the full calculation. *)
Lemma CalculateHash_not_validates root expected_hash w n :
  GetFileList_accepts (version_root root expected_hash) = true →
  Fs.resolve (tree w) (version_root root expected_hash) = Some n →
  Wf.wf n = true →
  ¬ sidecar_validates root expected_hash w →
  CalculateHash root expected_hash w
  = rehash root expected_hash (file_list_of (tree w) (version_root root expected_hash))
      (after_load root expected_hash w).
Proof.
  intros Hacc Hres Hwf Hnot.
  destruct (Nat.eq_dec (length (file_list_of (tree w) (version_root root expected_hash)))
              (length (td_files (loaded_timestamps root expected_hash w)))) as [Hlen|Hlen].
  2: by apply CalculateHash_length_differs.
  apply CalculateHash_mismatch; [done|].
  destruct (timestamps_match_total (vc_dir_of root expected_hash)
              (zip (file_list_of (tree w) (version_root root expected_hash))
                   (td_files (loaded_timestamps root expected_hash w))) w) as [[] Hb];
    [|by destruct Hnot|done].
  intros disk Hdisk. apply in_map_iff in Hdisk as ([q c] & <- & Hq).
  apply list_elem_of_In, elem_of_zip_l, list_elem_of_In in Hq. simpl.
  destruct (file_list_of_inv _ _ _ _ Hres Hq) as (cs & m & d & Hin & _ & ->).
  unfold Fs.getmtime. by rewrite (listed_resolves _ _ _ _ _ _ Hres Hwf Hin).
Qed.

Lemma rehash_fst root expected_hash file_list w :
  fst (rehash root expected_hash file_list w)
  = match fst (hash_files root expected_hash "" file_list
                 (with_event (EvStdout ("Calculating hash of toolchain in "
                                        +:+ version_root root expected_hash
                                        +:+ ". Please wait...")) w)) with
    | Ok digest => Ok (Sha1.hexdigest digest)
    | Raised e => Raised e
    end.
Proof.
  unfold rehash. unfold_m. simpl.
  by destruct (hash_files _ _ _ _ _) as [[]?].
Qed.

Lemma version_root_name root name :
  Wf.valid_name name = true → version_root root name = Path.join root name.
Proof.
  intros Hv. unfold version_root, truthy.
  destruct (WalkFacts.valid_name_inv _ Hv) as (c & s & -> & _). reflexivity.
Qed.

(** C1, amended: two copies of the same files under two lower-case names,
    below a lower-case root, get the same hexadecimal digest from
    [CalculateHash] whenever both are hashed in full (neither has a
    sidecar that validates) and the text stripped from the paths, the
    root joined with the name, occurs in every listed path once only. *)
Theorem path_independence root a b wA wB n :
  Str.lower root = root →
  Wf.valid_name a = true → Wf.valid_name b = true →
  Str.lower a = a → Str.lower b = b →
  GetFileList_accepts (Path.join root a) = true →
  GetFileList_accepts (Path.join root b) = true →
  Fs.resolve (tree wA) (Path.join root a) = Some n →
  Fs.resolve (tree wB) (Path.join root b) = Some n →
  Wf.wf n = true →
  strips_once root a n = true → strips_once root b n = true →
  ¬ sidecar_validates root a wA → ¬ sidecar_validates root b wB →
  fst (CalculateHash root a wA) = fst (CalculateHash root b wB).
Proof.
  intros Hroot HvA HvB HlA HlB HaccA HaccB HresA HresB Hwf HonceA HonceB HnvA HnvB.
  pose proof (version_root_name root a HvA) as HrootA.
  pose proof (version_root_name root b HvB) as HrootB.
  rewrite (CalculateHash_not_validates root a wA n), (CalculateHash_not_validates root b wB n);
    rewrite ?HrootA, ?HrootB; try done.
  rewrite !rehash_fst.
  rewrite (copy_file_list root a n Hroot HvA HlA Hwf _ HresA).
  rewrite (copy_file_list root b n Hroot HvB HlB Hwf _ HresB).
  rewrite (hash_files_copies root a b n wA wB Hroot HvA HvB HlA HlB Hwf HresA HresB
             HonceA HonceB _ "" _
             (with_event (EvStdout ("Calculating hash of toolchain in "
                                    +:+ version_root root b +:+ ". Please wait..."))
                (after_load root b wB))); try done.
  - simpl. by rewrite tree_after_load.
  - simpl. by rewrite tree_after_load.
Qed.

Lemma path_independence_witness :
  fst (CalculateHash "vs_files" "abc" (Sample.world (Sample.cwd "abc")))
  = fst (CalculateHash "vs_files" "copy" Sample.copy).
Proof.
  apply (path_independence "vs_files" "abc" "copy" _ _ Sample.toolchain);
    try (vm_compute; reflexivity).
  - intros [Hlen _]. vm_compute in Hlen. discriminate Hlen.
  - intros [Hlen _]. vm_compute in Hlen. discriminate Hlen.
Defined.

(** Against C1 as stated: the same files under two names, one of them
    with a sidecar recorded before a file was replaced without a new
    modification time; the sidecar validates and its stored hash is
    returned, which is not the digest of the files. *)
Lemma stale_sidecar_differs :
  Fs.resolve (tree Sample.stale) (Path.join "vs_files" Sample.old_hash)
  = Some Sample.toolchain
  ∧ Fs.resolve (tree Sample.copy) (Path.join "vs_files" "copy") = Some Sample.toolchain
  ∧ fst (CalculateHash "vs_files" Sample.old_hash Sample.stale) = Ok Sample.old_hash
  ∧ fst (CalculateHash "vs_files" "copy" Sample.copy)
    = Ok "18e87c62cd2e86d1a7edc2a3ddc6fd0a4ccb0bb0"
  ∧ fst (CalculateHash "vs_files" Sample.old_hash Sample.stale)
    ≠ fst (CalculateHash "vs_files" "copy" Sample.copy).
Proof.
  split; [vm_compute; reflexivity|]. split; [vm_compute; reflexivity|].
  split; [vm_compute; reflexivity|]. split; [vm_compute; reflexivity|].
  vm_compute. discriminate.
Qed.

(** The stored hash of the stale sidecar was the right one when it was
    recorded. *)
Example old_hash_was_right :
  fst (CalculateHash "vs_files" Sample.old_hash
         (Sample.world (Dir 0 [("vs_files",
            Dir 5 [(Sample.old_hash, Sample.toolchain_with "MZold")])])))
  = Ok Sample.old_hash.
Proof. vm_compute. reflexivity. Qed.

(** Why the stripped text must occur once only: [str.replace] takes every
    occurrence away, so a path below the version directory spelled like
    the directory itself is shortened in one copy and not in the other. *)
Example nested_name_stripped_twice :
  strips_once "vs_files" "abc"
    (Dir 1 [("vs_files", Dir 1 [("abc", Dir 1 [("f", File 1 "x")])])]) = false
  ∧ fst (CalculateHash "vs_files" "abc" (Sample.nested "abc"))
    = Ok "7406b8b5de5b591509d772092faed58a39edb0e1"
  ∧ fst (CalculateHash "vs_files" "abd" (Sample.nested "abd"))
    = Ok "22a5dd1f68bb2dc4373166d74b58627daa001384".
Proof. repeat split; vm_compute; reflexivity. Qed.

(** Why the names must be lower-case: the listed paths are lower-cased
    and the stripped text is not, so an upper-case name is never
    stripped. *)
Example upper_case_name_not_stripped :
  fst (CalculateHash "vs_files" "ABC" (Sample.world (Sample.cwd "ABC")))
  = Ok "25f890317ddd3ddba5757a4fb8f9fca00a6a4f6b"
  ∧ fst (CalculateHash "vs_files" "copy" Sample.copy)
    = Ok "18e87c62cd2e86d1a7edc2a3ddc6fd0a4ccb0bb0".
Proof. split; vm_compute; reflexivity. Qed.

(** C4: [RemoveUnusedToolchains(root)], run on a root whose entries have
    proper names, distinct without regard to case, and where every
    directory with a sidecar has its [VC], returns and leaves: no plain
    file of the root; no directory without a sidecar, whatever its age;
    and of the directories with a sidecar those whose [VC] had been
    modified no more than [60*60*24*30] seconds before the clock reading [t]
    taken at their turn, unchanged.  The others are removed with their
    sidecar.  The readings lie between the start and the end of the run,
    and in headless mode the clock does not move. *)
Theorem eviction_policy env root w m es :
  Fs.resolve (tree w) root = Some (Dir m es) →
  Wf.names_ok (map fst es) = true →
  (∀ d n, In (d, n) es → Fs.is_dir n = true → sidecar_present root d w = true →
          is_Some (touch_time n)) →
  ∃ w',
    RemoveUnusedToolchains env root w = (Ok tt, w')
    ∧ (now w <= now w')%Q
    ∧ (chrome_headless env = true → now w' = now w)
    ∧ ∀ d n, In (d, n) es →
        let left_as := Fs.resolve (tree w') (Path.join root d) in
        if Fs.is_dir n then
          if sidecar_present root d w then
            ∃ last_use t,
              touch_time n = Some last_use ∧ (now w <= t)%Q ∧ (t <= now w')%Q
              ∧ (expired t last_use →
                 left_as = None ∧ sidecar_present root d w' = false)
              ∧ (¬ expired t last_use → left_as = Some n)
          else left_as = None
        else left_as = None.
Proof.
  intros Hroot Hok Hvc.
  pose proof Hok as [Hvalid Hdist]%andb_true_iff.
  rewrite forallb_forall in Hvalid.
  unfold RemoveUnusedToolchains.
  rewrite (bind_ok (os_listdir root) _ w (map fst es) w).
  2:{ unfold os_listdir. unfold_m. unfold Fs.listdir. by rewrite Hroot. }
  destruct (sort_entries_run root m es [] [] [] w Hroot Hok Hvc)
    as (w1 & Hrun1 & Hroot1 & Hs1 & Hn1).
  rewrite (bind_ok _ _ _ _ _ Hrun1). cbn [app]. simpl in Hroot1.
  set (dirs := List.filter (λ e : string * node, Fs.is_dir (snd e)) es) in *.
  assert (Wf.distinct (map fst dirs) = true) as Hdist1
    by by apply EvictFacts.distinct_filter.
  destruct (remove_orphans_run env root m (orphans root w es) w1 dirs Hroot1 Hdist1)
    as (w2 & Hrun2 & Hroot2 & Hn2 & Hs2).
  { apply List.Forall_forall. intros d (n & Hin & _)%in_orphans.
    apply Hvalid, in_map_iff. by exists (d, n). }
  rewrite (bind_ok _ _ _ _ _ Hrun2).
  set (kept := List.filter (keeps (orphans root w es)) dirs) in *.
  assert (Wf.distinct (map fst kept) = true) as Hdist2
    by by apply EvictFacts.distinct_filter.
  destruct (expire_loop_run env root m (versions root w es) w2 kept Hroot2 Hdist2)
    as (w' & gone & Hrun & Hroot' & Hle & Hh & Hsub & Hgone & Hmono & Hjudged).
  { apply List.Forall_forall. intros [vc d] (n & Hin & _)%in_versions.
    apply Hvalid, in_map_iff. by exists (d, n). }
  { by apply versions_NoDup, EvictFacts.distinct_NoDup. }
  exists w'. split; [exact Hrun|].
  split; [rewrite <- Hn1, <- Hn2; exact Hle|].
  split; [intros Hhl; by rewrite (Hh Hhl), Hn2, Hn1|].
  intros d n Hin. cbv zeta.
  assert (Wf.valid_name d = true) as Hd.
  { apply Hvalid, in_map_iff. by exists (d, n). }
  rewrite (resolve_entry root m _ _ d Hroot' Hd).
  destruct (Fs.is_dir n) eqn:Hdir.
  2:{ (* a plain file *)
      destruct (Fs.find_entry d (List.filter (keeps gone) kept)) as [k|] eqn:Hfind; [|done].
      exfalso.
      assert (∃ x, In (x, k) (List.filter (keeps gone) kept) ∧ Fs.same_name x d = true)
        as (x & Hx & Hsame).
      { clear -Hfind. induction (List.filter (keeps gone) kept) as [|[y j] l IH];
          simpl in *; [done|].
        destruct (Fs.same_name y d) eqn:Hy.
        - injection Hfind as ->. exists y. by split; [left|].
        - destruct (IH Hfind) as (x & Hx & Hs). exists x. by split; [right|]. }
      apply List.filter_In in Hx as [Hx _]. apply List.filter_In in Hx as [Hx _].
      apply List.filter_In in Hx as [Hx Hxdir]. simpl in Hxdir.
      assert (x = d) as ->.
      { apply (EvictFacts.distinct_same_name (map fst es)); [done| | |done];
          apply in_map_iff; [by exists (x, k)|by exists (d, n)]. }
      pose proof (WalkFacts.find_entry_distinct es d n d Hdist Hin
                    (FsFacts.same_name_refl d)) as H1.
      pose proof (WalkFacts.find_entry_distinct es d k d Hdist Hx
                    (FsFacts.same_name_refl d)) as H2.
      congruence. }
  assert (In (d, n) dirs) as Hin1 by (apply List.filter_In; by split).
  assert (∀ names, (∀ x, In x names → In x (map fst es)) →
                   existsb (Fs.same_name d) names = true → In d names) as Hnamed.
  { intros names Hnames (x & Hx & Hsame)%existsb_exists.
    assert (d = x) as ->; [|done].
    apply (EvictFacts.distinct_same_name (map fst es)); [done| | |done].
    - apply in_map_iff. by exists (d, n).
    - by apply Hnames. }
  destruct (sidecar_present root d w) eqn:Hsc.
  - (* a version with its sidecar *)
    destruct (Hvc d n Hin Hdir Hsc) as [last_use Hlast].
    assert (In (last_use, d) (versions root w es)) as Hv
      by (apply in_versions; by exists n).
    destruct (Hjudged last_use d Hv) as (t & Ht1 & Ht2 & Hiff).
    exists last_use, t. split; [done|].
    split; [by rewrite <- Hn1, <- Hn2|]. split; [done|].
    assert (In (d, n) kept) as Hin2.
    { apply List.filter_In. split; [done|]. unfold keeps. simpl. rewrite Hdir. simpl.
      apply negb_true_iff, not_true_is_false. intros Hex.
      apply Hnamed in Hex.
      - apply in_orphans in Hex as (k & Hk & _ & Hnsc). congruence.
      - intros x (k & Hk & _)%in_orphans. apply in_map_iff. by exists (x, k). }
    rewrite (find_entry_filter (keeps gone) kept d n Hdist2 Hin2).
    unfold keeps. simpl. rewrite Hdir. simpl. split.
    + intros Hexp%Hiff. split.
      * assert (existsb (Fs.same_name d) gone = true) as ->; [|done].
        apply existsb_exists. exists d. split; [done|apply FsFacts.same_name_refl].
      * unfold sidecar_present. apply bool_decide_eq_false.
        rewrite (Hgone d Hexp). by intros [? ?].
    + intros Hnexp.
      destruct (existsb (Fs.same_name d) gone) eqn:Hex; [|done].
      destruct Hnexp. apply Hiff. apply Hnamed; [|done].
      intros x Hx. apply Hsub in Hx.
      apply in_map_iff in Hx as ([vc x'] & Heq & Hx). simpl in Heq. subst x'.
      apply in_versions in Hx as (k & Hk & _).
      apply in_map_iff. by exists (x, k).
  - (* a directory without sidecar *)
    assert (In d (orphans root w es)) as Horphan by (apply in_orphans; by exists n).
    destruct (Fs.find_entry d (List.filter (keeps gone) kept)) as [k|] eqn:Hfind; [|done].
    exfalso.
    assert (∃ x, In (x, k) (List.filter (keeps gone) kept) ∧ Fs.same_name x d = true)
      as (x & Hx & Hsame).
    { clear -Hfind. induction (List.filter (keeps gone) kept) as [|[y j] l IH];
        simpl in *; [done|].
      destruct (Fs.same_name y d) eqn:Hy.
      - injection Hfind as ->. exists y. by split; [left|].
      - destruct (IH Hfind) as (x & Hx & Hs). exists x. by split; [right|]. }
    apply List.filter_In in Hx as [Hx _]. apply List.filter_In in Hx as [Hx Hkeep].
    apply List.filter_In in Hx as [Hx Hxdir]. simpl in Hxdir.
    assert (x = d) as ->.
    { apply (EvictFacts.distinct_same_name (map fst es)); [done| | |done];
        apply in_map_iff; [by exists (x, k)|by exists (d, n)]. }
    unfold keeps in Hkeep. simpl in Hkeep. rewrite Hxdir in Hkeep. simpl in Hkeep.
    apply negb_true_iff, not_true_iff_false in Hkeep. apply Hkeep.
    apply existsb_exists. exists d. split; [done|apply FsFacts.same_name_refl].
Qed.

Lemma eviction_policy_witness :
  ∃ w',
    RemoveUnusedToolchains (Cache.env "fresh" false) "vs_files" Cache.world = (Ok tt, w')
    ∧ (now Cache.world <= now w')%Q
    ∧ (chrome_headless (Cache.env "fresh" false) = true → now w' = now Cache.world)
    ∧ ∀ d n, In (d, n) Cache.entries →
        let left_as := Fs.resolve (tree w') (Path.join "vs_files" d) in
        if Fs.is_dir n then
          if sidecar_present "vs_files" d Cache.world then
            ∃ last_use t,
              touch_time n = Some last_use ∧ (now Cache.world <= t)%Q ∧ (t <= now w')%Q
              ∧ (expired t last_use →
                 left_as = None ∧ sidecar_present "vs_files" d w' = false)
              ∧ (¬ expired t last_use → left_as = Some n)
          else left_as = None
        else left_as = None.
Proof.
  apply (eviction_policy (Cache.env "fresh" false) "vs_files" Cache.world 5 Cache.entries).
  - reflexivity.
  - vm_compute. reflexivity.
  - intros d n [H|[H|[H|[H|[]]]]] Hdir _; injection H as <- <-;
      first [discriminate Hdir | vm_compute; eexists; reflexivity].
Defined.

(** The run of the witness: the stray file, the unrecorded directory and
    the version unused for thirty-one days are gone, the version used
    yesterday is left alone with its sidecar; the countdown of the one
    expiry took nine seconds. *)
Example eviction_sample :
  let r := RemoveUnusedToolchains (Cache.env "fresh" false) "vs_files" Cache.world in
  fst r = Ok tt
  ∧ tree (snd r) = Dir 0 [("vs_files", Dir 5 [("fresh", Cache.version (39 * Cache.day))])]
  ∧ sidecar_present "vs_files" "old" (snd r) = false
  ∧ sidecar_present "vs_files" "fresh" (snd r) = true
  ∧ (now (snd r) == 40 * Cache.day + 9)%Q.
Proof. repeat split; vm_compute; reflexivity. Qed.



(** Against C5 as stated: the toolchain is installed and its sidecar
    validates, and a second run a minute after the first still touches
    [VC], whose modification time changes, and writes [data.json]
    again. *)
Lemma second_run_touches_and_writes :
  let vc_dir := Path.join (Path.join "vs_files" Installed.desired_hash) "VC" in
  let before := Installed.a_minute_later in
  let after := snd (main Installed.env before) in
  sidecar_validates "vs_files" Installed.desired_hash before
  ∧ fst (main Installed.env before) = Ok 0%Z
  ∧ Fs.getmtime (tree before) vc_dir = Some 1000%Q
  ∧ Fs.getmtime (tree after) vc_dir = Some 1060%Q
  ∧ tree after ≠ tree before
  ∧ skipn (length (trace before)) (trace after)
    = [EvReadSidecar (MakeTimestampsFileName "vs_files" Installed.desired_hash);
       EvReadFile (Path.join (Path.join "vs_files" Installed.desired_hash) "VS_VERSION");
       EvUtime vc_dir;
       EvWriteJson (Path.join (Path.join "vs_files" "..") "data.json")].
Proof.
  cbv zeta. split; [split; vm_compute; reflexivity|].
  split; [vm_compute; reflexivity|]. split; [vm_compute; reflexivity|].
  split; [vm_compute; reflexivity|]. split; [|vm_compute; reflexivity].
  intros H. apply (f_equal (λ t, Fs.getmtime t
                     (Path.join (Path.join "vs_files" Installed.desired_hash) "VC"))) in H.
  vm_compute in H. discriminate H.
Qed.

(** C6: when the hashes computed after the download, once [data.json] is
    written, do not contain the desired hash, [main] prints to stderr the
    message with the desired hash and the hashes found, returns 1, and
    until then has written no sidecar and removed nothing: the sidecars are
    as before and the tree is the extracted one but for modification
    times. *)
Theorem wrong_hash_exit env target_dir desired_hash w w1 w2 current_hashes :
  write_data_json env target_dir desired_hash w = (Ok tt, w1) →
  CalculateToolchainHashes target_dir w1 = (Ok current_hashes, w2) →
  ¬ In desired_hash current_hashes →
  ∃ w',
    main_report env target_dir desired_hash true w = (Ok 1%Z, w')
    ∧ trace w' = trace w2 ++ [EvStderr (wrong_hash_message desired_hash current_hashes)]
    ∧ (∃ evs, trace w' = trace w ++ evs ∧ forallb reports_only evs = true)
    ∧ sidecars w' = sidecars w
    ∧ untimed (tree w') = untimed (tree w).
Proof.
  intros Hmeta Hhashes Hnotin.
  eexists. split; [by apply (wrong_hash_run env target_dir desired_hash w w1 w2)|].
  split; [done|].
  pose proof (looks_CalculateToolchainHashes target_dir w1) as Hlooked.
  rewrite Hhashes in Hlooked.
  apply looked_inv in Hlooked as (Ht & Hs & _ & _ & _ & evs & Htr & Hevs).
  destruct (write_data_json_run env target_dir desired_hash w w1 Hmeta)
    as (Hs1 & _ & _ & Hcases).
  simpl in *.
  destruct (Fs.read (tree w) _) as [text|].
  - destruct Hcases as (_ & Ht1 & Htr1). split; [|split].
    + eexists. rewrite Htr, Htr1, <- !List.app_assoc. split; [done|].
      rewrite !forallb_app. simpl. rewrite andb_true_r.
      apply forallb_forall. intros e He. rewrite forallb_forall in Hevs.
      specialize (Hevs e He). by destruct e.
    + congruence.
    + rewrite Ht, Ht1. apply untimed_set_mtime.
  - destruct Hcases as (Ht1 & Htr1). split; [|split].
    + eexists. rewrite Htr, Htr1, <- !List.app_assoc. split; [done|].
      rewrite !forallb_app. simpl. rewrite andb_true_r.
      apply forallb_forall. intros e He. rewrite forallb_forall in Hevs.
      specialize (Hevs e He). by destruct e.
    + congruence.
    + by rewrite Ht, Ht1.
Qed.

Lemma wrong_hash_exit_witness :
  ∃ w',
    main_report Mismatch.env "vs_files" "abc123" true Mismatch.extracted = (Ok 1%Z, w')
    ∧ trace w'
      = trace (snd (CalculateToolchainHashes "vs_files"
                      (snd (write_data_json Mismatch.env "vs_files" "abc123"
                              Mismatch.extracted))))
        ++ [EvStderr (wrong_hash_message "abc123"
                        ["18e87c62cd2e86d1a7edc2a3ddc6fd0a4ccb0bb0"])]
    ∧ (∃ evs, trace w' = trace Mismatch.extracted ++ evs
              ∧ forallb reports_only evs = true)
    ∧ sidecars w' = sidecars Mismatch.extracted
    ∧ untimed (tree w') = untimed (tree Mismatch.extracted).
Proof.
  apply (wrong_hash_exit Mismatch.env "vs_files" "abc123" Mismatch.extracted
           (snd (write_data_json Mismatch.env "vs_files" "abc123" Mismatch.extracted))).
  - vm_compute. reflexivity.
  - vm_compute. reflexivity.
  - vm_compute. intros [H|[]]. discriminate H.
Defined.

(** The whole of [main] on the same download, from an empty working
    directory: the exit status is 1, the message names the hash found, the
    extracted directory is there and no sidecar is. *)
Example main_wrong_hash_sample :
  let r := main Mismatch.env Mismatch.fresh in
  fst r = Ok 1%Z
  ∧ List.last (trace (snd r)) (EvStdout "")
    = EvStderr "Got wrong hash after pulling a new toolchain. Wanted 'abc123', got one of '18e87c62cd2e86d1a7edc2a3ddc6fd0a4ccb0bb0'."
  ∧ Fs.isdir (tree (snd r)) "vs_files\abc123" = true
  ∧ sidecars (snd r) = ∅.
Proof. repeat split; vm_compute; reflexivity. Qed.

(** C10: on the exit with the wrong hash, [data.json] has been written
    before the hashes were computed, and so names the directory that
    failed the check; with a readable [VS_VERSION] the [VC] directory has
    been touched before that, and carries the time of the run. *)
Theorem metadata_before_verification env target_dir desired_hash w w1 w2 current_hashes :
  write_data_json env target_dir desired_hash w = (Ok tt, w1) →
  CalculateToolchainHashes target_dir w1 = (Ok current_hashes, w2) →
  ¬ In desired_hash current_hashes →
  let toolchain_target_dir := Path.join target_dir desired_hash in
  let version_file := Path.join toolchain_target_dir "VS_VERSION" in
  let vc_dir := Path.join toolchain_target_dir "VC" in
  let data_file := Path.join (Path.join target_dir "..") "data.json" in
  ∃ w' md touching hashing,
    main_report env target_dir desired_hash true w = (Ok 1%Z, w')
    ∧ data_json w' = Some md
    ∧ md_path md = abspath env toolchain_target_dir
    ∧ trace w' = trace w ++ touching ++ [EvWriteJson data_file] ++ hashing
                 ++ [EvStderr (wrong_hash_message desired_hash current_hashes)]
    ∧ trace w2 = trace w1 ++ hashing
    ∧ forallb looks_only hashing = true
    ∧ match Fs.read (tree w) version_file with
      | Some _ =>
          touching = [EvReadFile version_file; EvUtime vc_dir]
          ∧ Fs.getmtime (tree w') vc_dir = Some (now w)
      | None => touching = [] ∧ tree w' = tree w
      end.
Proof.
  intros Hmeta Hhashes Hnotin. cbv zeta.
  pose proof (looks_CalculateToolchainHashes target_dir w1) as Hlooked.
  rewrite Hhashes in Hlooked.
  apply looked_inv in Hlooked as (Ht & _ & Hd & _ & _ & hashing & Htr & Hevs).
  destruct (write_data_json_run env target_dir desired_hash w w1 Hmeta)
    as (_ & _ & (md & Hmd & Hpath) & Hcases).
  simpl in *.
  rewrite (wrong_hash_run env target_dir desired_hash w w1 w2 current_hashes)
    by done.
  destruct (Fs.read (tree w) _) as [text|].
  - destruct Hcases as (Hex & Ht1 & Htr1).
    exists (with_event (EvStderr (wrong_hash_message desired_hash current_hashes)) w2),
      md,
      [EvReadFile (Path.join (Path.join target_dir desired_hash) "VS_VERSION");
       EvUtime (Path.join (Path.join target_dir desired_hash) "VC")],
      hashing.
    split; [reflexivity|]. simpl.
    split; [congruence|]. split; [exact Hpath|].
    split; [rewrite Htr, Htr1; by rewrite <- !List.app_assoc|].
    split; [exact Htr|]. split; [exact Hevs|]. split; [reflexivity|].
    rewrite Ht, Ht1. by apply getmtime_set_mtime.
  - destruct Hcases as (Ht1 & Htr1).
    exists (with_event (EvStderr (wrong_hash_message desired_hash current_hashes)) w2),
      md, [], hashing.
    split; [reflexivity|]. simpl.
    split; [congruence|]. split; [exact Hpath|].
    split; [rewrite Htr, Htr1; by rewrite <- !List.app_assoc|].
    split; [exact Htr|]. split; [exact Hevs|]. split; [reflexivity|]. congruence.
Qed.

Lemma metadata_before_verification_witness :
  ∃ w' md touching hashing,
    main_report Mismatch.env "vs_files" "abc123" true Mismatch.extracted_2013 = (Ok 1%Z, w')
    ∧ data_json w' = Some md
    ∧ md_path md = abspath Mismatch.env (Path.join "vs_files" "abc123")
    ∧ trace w' = trace Mismatch.extracted_2013 ++ touching
                 ++ [EvWriteJson (Path.join (Path.join "vs_files" "..") "data.json")]
                 ++ hashing
                 ++ [EvStderr (wrong_hash_message "abc123"
                                 ["9f514ce1418d0966d1e3057c5d15dbde6faa0257"])]
    ∧ trace (snd (CalculateToolchainHashes "vs_files"
                    (snd (write_data_json Mismatch.env "vs_files" "abc123"
                            Mismatch.extracted_2013))))
      = trace (snd (write_data_json Mismatch.env "vs_files" "abc123"
                      Mismatch.extracted_2013)) ++ hashing
    ∧ forallb looks_only hashing = true
    ∧ match Fs.read (tree Mismatch.extracted_2013)
              (Path.join (Path.join "vs_files" "abc123") "VS_VERSION") with
      | Some _ =>
          touching = [EvReadFile (Path.join (Path.join "vs_files" "abc123") "VS_VERSION");
                      EvUtime (Path.join (Path.join "vs_files" "abc123") "VC")]
          ∧ Fs.getmtime (tree w') (Path.join (Path.join "vs_files" "abc123") "VC")
            = Some (now Mismatch.extracted_2013)
      | None => touching = [] ∧ tree w' = tree Mismatch.extracted_2013
      end.
Proof.
  apply (metadata_before_verification Mismatch.env "vs_files" "abc123"
           Mismatch.extracted_2013
           (snd (write_data_json Mismatch.env "vs_files" "abc123" Mismatch.extracted_2013))
           (snd (CalculateToolchainHashes "vs_files"
                   (snd (write_data_json Mismatch.env "vs_files" "abc123"
                           Mismatch.extracted_2013))))).
  - vm_compute. reflexivity.
  - vm_compute. reflexivity.
  - vm_compute. intros [H|[]]. discriminate H.
Defined.

(** The run of [main] that ends with the wrong hash: [data.json] names the
    directory that failed the check, and [VC] carries the time of the
    run. *)
Example main_wrong_hash_metadata :
  let r := main Mismatch.env Mismatch.fresh in
  fst r = Ok 1%Z
  ∧ md_path <$> data_json (snd r) = Some "C:\depot_tools\win_toolchain\vs_files\abc123"
  ∧ Fs.getmtime (tree (snd r)) "vs_files\abc123\VC" = Some (now Mismatch.fresh).
Proof. repeat split; vm_compute; reflexivity. Qed.

(** * Further properties *)

(** ** Recording and finding again *)

Lemma map_m_getmtime_run l w :
  (∀ p, In p l → is_Some (Fs.getmtime (tree w) p)) →
  ∃ files,
    map_m (λ f, let* m := os_path_getmtime f in ret (f, m)) l w = (Ok files, w)
    ∧ map fst files = l
    ∧ Forall (λ c, Fs.getmtime (tree w) (fst c) = Some (snd c)) files.
Proof.
  induction l as [|p l IH]; intros Hall.
  - exists []. by repeat split.
  - destruct IH as (files & Hrun & Hfst & Hall'); [intros q Hq; apply Hall; by right|].
    destruct (Hall p) as [m Hm]; [by left|].
    exists ((p, m) :: files). simpl. split; [|split].
    + rewrite (bind_ok _ _ w (p, m) w).
      * by rewrite (bind_ok _ _ _ _ _ Hrun).
      * rewrite (bind_ok _ _ w m w); [done|by apply os_path_getmtime_run].
    + by rewrite Hfst.
    + by constructor.
Qed.

Lemma zip_map_fst {A B} (r : list (A * B)) :
  zip (map fst r) r = map (λ c, (fst c, c)) r.
Proof. induction r as [|c r IH]; simpl; [done|by rewrite IH]. Qed.

(** X1: on a well-formed version directory [SaveTimestampsAndHash(root,
    sha1)] returns, changes neither the tree nor any other sidecar, and
    from then on [CalculateHash(root, sha1)] answers [sha1], whatever it
    is, having read the sidecar and no file. *)
Theorem SaveTimestampsAndHash_then_CalculateHash root sha1 w n :
  sha1 ≠ "" →
  GetFileList_accepts (Path.join root sha1) = true →
  Fs.resolve (tree w) (Path.join root sha1) = Some n →
  Wf.wf n = true →
  ∃ w1,
    SaveTimestampsAndHash root sha1 w = (Ok tt, w1)
    ∧ tree w1 = tree w
    ∧ (∀ k, k ≠ sidecar_key (MakeTimestampsFileName root sha1) →
            sidecars w1 !! k = sidecars w !! k)
    ∧ trace w1 = trace w ++ [EvWriteSidecar (MakeTimestampsFileName root sha1)]
    ∧ CalculateHash root sha1 w1
      = (Ok sha1, with_event (EvReadSidecar (MakeTimestampsFileName root sha1)) w1).
Proof.
  intros Hsha Hacc Hres Hwf.
  assert (version_root root sha1 = Path.join root sha1) as Hroot.
  { unfold version_root, truthy. apply String.eqb_neq in Hsha. by rewrite Hsha. }
  destruct (map_m_getmtime_run (file_list_of (tree w) (Path.join root sha1)) w)
    as (files & Hrun & Hfst & Hall).
  { intros p Hp.
    destruct (file_list_of_inv _ _ _ _ Hres Hp) as (cs & m & d & Hin & _ & ->).
    unfold Fs.getmtime. rewrite (listed_resolves _ _ _ _ _ _ Hres Hwf Hin). by eexists. }
  rewrite SaveTimestampsAndHash_unfold, Hacc, Hrun.
  eexists. split; [reflexivity|]. split; [reflexivity|].
  split; [intros k Hk; simpl; by rewrite lookup_insert_ne|]. split; [reflexivity|].
  set (w1 := with_sidecars _ _).
  assert (sidecars w1 !! sidecar_key (MakeTimestampsFileName root sha1)
          = Some (Parsed (TimestampsData files sha1))) as Hlook
    by (subst w1; simpl; apply lookup_insert_eq).
  assert (loaded_timestamps root sha1 w1 = TimestampsData files sha1) as Hloaded
    by (unfold loaded_timestamps; by rewrite Hlook).
  rewrite CalculateHash_validates.
  - rewrite Hloaded. unfold after_load. by rewrite Hlook.
  - by rewrite Hroot.
  - unfold sidecar_validates. cbv zeta. rewrite Hloaded, Hroot. simpl td_files.
    change (tree w1) with (tree w). rewrite <- Hfst. split; [by rewrite length_map|].
    apply timestamps_match_true. rewrite zip_map_fst.
    apply List.Forall_forall. intros [disk cached] (c & [= <- <-] & Hc)%in_map_iff.
    split; [done|]. right. exists (snd c).
    rewrite List.Forall_forall in Hall. split; [by apply Hall|].
    apply Qeq_bool_iff, Qeq_refl.
Qed.

Lemma SaveTimestampsAndHash_then_CalculateHash_witness :
  ∃ w1,
    SaveTimestampsAndHash "vs_files" "not-a-digest" (Sample.world (Sample.cwd "not-a-digest"))
    = (Ok tt, w1)
    ∧ tree w1 = tree (Sample.world (Sample.cwd "not-a-digest"))
    ∧ (∀ k, k ≠ sidecar_key (MakeTimestampsFileName "vs_files" "not-a-digest") →
            sidecars w1 !! k = sidecars (Sample.world (Sample.cwd "not-a-digest")) !! k)
    ∧ trace w1 = trace (Sample.world (Sample.cwd "not-a-digest"))
                 ++ [EvWriteSidecar (MakeTimestampsFileName "vs_files" "not-a-digest")]
    ∧ CalculateHash "vs_files" "not-a-digest" w1
      = (Ok "not-a-digest",
         with_event (EvReadSidecar (MakeTimestampsFileName "vs_files" "not-a-digest")) w1).
Proof.
  apply (SaveTimestampsAndHash_then_CalculateHash "vs_files" "not-a-digest" _ Sample.toolchain).
  - discriminate.
  - vm_compute. reflexivity.
  - vm_compute. reflexivity.
  - vm_compute. reflexivity.
Defined.

(** ** The hashes of the installed versions *)

(** X2: [CalculateToolchainHashes] only looks.  Whether it returns or
    raises, the tree, the sidecars, [data.json], its copy and the clock are
    as before, and what it adds to the trace are reads and lines on
    standard output. *)
Theorem CalculateToolchainHashes_only_looks root w :
  let w' := snd (CalculateToolchainHashes root w) in
  tree w' = tree w ∧ sidecars w' = sidecars w ∧ data_json w' = data_json w
  ∧ json_copy w' = json_copy w ∧ now w' = now w
  ∧ ∃ evs, trace w' = trace w ++ evs ∧ forallb looks_only evs = true.
Proof. apply looked_inv, looks_CalculateToolchainHashes. Qed.

Section PerDirectory.
Context (root : string) (m : timestamp) (es : list (string * node)).
Hypothesis Hok : Wf.names_ok (map fst es) = true.

(** The directories [CalculateToolchainHashes] keeps of a listing. *)
Lemma listed_directories t :
  Fs.resolve t root = Some (Dir m es) →
  List.filter (λ d, Fs.isdir t (Path.join root d)) (map fst es) = Fs.dir_names es.
Proof.
  intros Hroot. unfold Fs.dir_names.
  apply andb_true_iff in Hok as [Hvalid Hdist]. rewrite forallb_forall in Hvalid.
  assert (∀ l, (∀ e, In e l → In e es) →
               List.filter (λ d, Fs.isdir t (Path.join root d)) (map fst l)
               = map fst (List.filter (λ e, Fs.is_dir (snd e)) l)) as Hgen.
  { induction l as [|[d n] l IH]; intros Hsub; simpl; [done|].
    assert (Fs.isdir t (Path.join root d) = Fs.is_dir n) as ->.
    { unfold Fs.isdir. rewrite (resolve_entry root m t es d Hroot).
      - rewrite (WalkFacts.find_entry_distinct es d n d Hdist);
          [by destruct n|apply Hsub; by left|apply FsFacts.same_name_refl].
      - apply Hvalid, in_map_iff. exists (d, n). split; [done|]. apply Hsub. by left. }
    rewrite IH by (intros e He; apply Hsub; by right).
    by destruct (Fs.is_dir n). }
  by apply Hgen.
Qed.

Lemma CalculateHash_looked d w w1 :
  looked w w1 →
  fst (CalculateHash root d w1) = fst (CalculateHash root d w).
Proof.
  intros (Ht & Hs & _)%looked_inv.
  apply CalculateHash_agree; rewrite ?Ht, ?Hs; done.
Qed.

Lemma map_m_CalculateHash dirs : ∀ w w1 hashes w',
  looked w w1 →
  map_m (CalculateHash root) dirs w1 = (Ok hashes, w') →
  Forall2 (λ d h, fst (CalculateHash root d w) = Ok h) dirs hashes.
Proof.
  induction dirs as [|d dirs IH]; intros w w1 hashes w' Hlooked; simpl.
  - intros [= <- <-]. constructor.
  - unfold bind at 1.
    pose proof (looks_CalculateHash root d w1) as Hstep.
    pose proof (CalculateHash_looked d w w1 Hlooked) as Hsame.
    destruct (CalculateHash root d w1) as [[h|e] w2]; [|done]. simpl in *.
    unfold bind at 1.
    destruct (map_m (CalculateHash root) dirs w2) as [[hs|e] w3] eqn:Hrest; [|done].
    intros [= <- <-]. constructor; [done|].
    apply (IH w w2 hs w3); [|done]. by apply (looked_trans _ w1).
Qed.

Lemma map_m_CalculateHash_total dirs : ∀ w w1,
  looked w w1 →
  (∀ d, In d dirs → ∃ h, fst (CalculateHash root d w) = Ok h) →
  ∃ hashes w', map_m (CalculateHash root) dirs w1 = (Ok hashes, w').
Proof.
  induction dirs as [|d dirs IH]; intros w w1 Hlooked Hall; simpl.
  - by eexists _, _.
  - unfold bind at 1.
    pose proof (looks_CalculateHash root d w1) as Hstep.
    pose proof (CalculateHash_looked d w w1 Hlooked) as Hsame.
    destruct (Hall d) as [h Hh]; [by left|].
    destruct (CalculateHash root d w1) as [[h1|e] w2]; simpl in *; [|congruence].
    destruct (IH w w2) as (hs & w3 & Hrest).
    { by apply (looked_trans _ w1). }
    { intros x Hx. apply Hall. by right. }
    unfold bind at 1. rewrite Hrest. by eexists _, _.
Qed.

End PerDirectory.

(** X3: [CalculateToolchainHashes(root)] gives one hash for each
    sub-directory of the root, in listing order, plain files being passed
    over: the hash [CalculateHash] gives for it in the world at the start.
    It returns as soon as each of these calls does. *)
Theorem CalculateToolchainHashes_per_directory root w m es :
  Fs.resolve (tree w) root = Some (Dir m es) →
  Wf.names_ok (map fst es) = true →
  (∀ hashes w', CalculateToolchainHashes root w = (Ok hashes, w') →
     Forall2 (λ d h, fst (CalculateHash root d w) = Ok h) (Fs.dir_names es) hashes)
  ∧ ((∀ d, In d (Fs.dir_names es) → ∃ h, fst (CalculateHash root d w) = Ok h) →
     ∃ hashes w', CalculateToolchainHashes root w = (Ok hashes, w')).
Proof.
  intros Hroot Hok.
  assert (CalculateToolchainHashes root w = map_m (CalculateHash root) (Fs.dir_names es) w)
    as Hunfold.
  { unfold CalculateToolchainHashes.
    rewrite (bind_ok (os_listdir root) _ w (map fst es) w).
    2:{ unfold os_listdir. unfold_m. unfold Fs.listdir. by rewrite Hroot. }
    rewrite (bind_ok (gets tree) _ w (tree w) w) by reflexivity.
    by rewrite (listed_directories root m es Hok). }
  rewrite Hunfold. split.
  - intros hashes w'. apply (map_m_CalculateHash root); apply looked_refl.
  - apply (map_m_CalculateHash_total root); apply looked_refl.
Qed.

Lemma CalculateToolchainHashes_per_directory_witness :
  (∀ hashes w', CalculateToolchainHashes "vs_files" Cache.world = (Ok hashes, w') →
     Forall2 (λ d h, fst (CalculateHash "vs_files" d Cache.world) = Ok h)
       (Fs.dir_names Cache.entries) hashes)
  ∧ ((∀ d, In d (Fs.dir_names Cache.entries) →
           ∃ h, fst (CalculateHash "vs_files" d Cache.world) = Ok h) →
     ∃ hashes w', CalculateToolchainHashes "vs_files" Cache.world = (Ok hashes, w')).
Proof.
  apply (CalculateToolchainHashes_per_directory "vs_files" Cache.world 5 Cache.entries).
  - reflexivity.
  - vm_compute. reflexivity.
Defined.

(** The root of the witness: three directories and a stray file give three
    hashes, here the same one, the directories holding the same file and
    the recorded lists being empty. *)
Example CalculateToolchainHashes_sample :
  Fs.dir_names Cache.entries = ["orphan"; "old"; "fresh"]
  ∧ fst (CalculateToolchainHashes "vs_files" Cache.world)
    = Ok ["0b9ef8c96f88a04999dacc019d594963ddc38616";
          "0b9ef8c96f88a04999dacc019d594963ddc38616";
          "0b9ef8c96f88a04999dacc019d594963ddc38616"].
Proof. split; vm_compute; reflexivity. Qed.

(** ** Removing one version *)

(** X4: [RemoveToolchain(root, sha1, delay)] on a root whose entries have
    proper, distinct names returns; afterwards [root\sha1] is no directory
    and has no sidecar, every entry of another name is as it was, and so is
    every other sidecar.  The clock moves only for the countdown. *)
Theorem RemoveToolchain_removes env root sha1 delay w m es :
  Fs.resolve (tree w) root = Some (Dir m es) →
  Wf.names_ok (map fst es) = true →
  Wf.valid_name sha1 = true →
  ∃ w',
    RemoveToolchain env root sha1 delay w = (Ok tt, w')
    ∧ Fs.isdir (tree w') (Path.join root sha1) = false
    ∧ sidecar_present root sha1 w' = false
    ∧ (∀ x n, In (x, n) es → Fs.same_name x sha1 = false →
              Fs.resolve (tree w') (Path.join root x) = Some n)
    ∧ (∀ k, k ≠ sidecar_key (MakeTimestampsFileName root sha1) →
            sidecars w' !! k = sidecars w !! k)
    ∧ (now w <= now w')%Q
    ∧ (delay = false ∨ chrome_headless env = true → now w' = now w).
Proof.
  intros Hroot Hok Hsha.
  pose proof Hok as [Hvalid Hdist]%andb_true_iff. rewrite forallb_forall in Hvalid.
  destruct (RemoveToolchain_run env root m sha1 delay w es Hroot Hdist Hsha)
    as (w' & Hrun & Hroot' & Hs & Hle & Hsame).
  exists w'. split; [exact Hrun|].
  assert (Wf.distinct (map fst (List.filter (keeps [sha1]) es)) = true) as Hdist'
    by by apply EvictFacts.distinct_filter.
  split; [|split; [|split; [|split; [|by split]]]].
  - unfold Fs.isdir. rewrite (resolve_entry root m _ _ sha1 Hroot' Hsha).
    destruct (Fs.find_entry sha1 (List.filter (keeps [sha1]) es)) as [[|dm sub]|] eqn:Hfind;
      try done.
    exfalso. clear Hdist'.
    assert (∃ x, In (x, Dir dm sub) (List.filter (keeps [sha1]) es)
                 ∧ Fs.same_name x sha1 = true) as (x & Hx & Hname).
    { clear -Hfind. induction (List.filter (keeps [sha1]) es) as [|[y j] l IH];
        simpl in *; [done|].
      destruct (Fs.same_name y sha1) eqn:Hy.
      - injection Hfind as ->. exists y. by split; [left|].
      - destruct (IH Hfind) as (x & Hx & Hs). exists x. by split; [right|]. }
    apply List.filter_In in Hx as [_ Hkeep]. unfold keeps in Hkeep. simpl in Hkeep.
    by rewrite Hname in Hkeep.
  - unfold sidecar_present. apply bool_decide_eq_false. rewrite Hs, lookup_delete_eq.
    by intros [? ?].
  - intros x n Hin Hother.
    assert (Wf.valid_name x = true) as Hx.
    { apply Hvalid, in_map_iff. by exists (x, n). }
    rewrite (resolve_entry root m _ _ x Hroot' Hx).
    rewrite (find_entry_filter (keeps [sha1]) es x n Hdist Hin).
    unfold keeps. simpl. by rewrite Hother, andb_false_r.
  - intros k Hk. by rewrite Hs, lookup_delete_ne.
Qed.

Lemma RemoveToolchain_removes_witness :
  ∃ w',
    RemoveToolchain (Cache.env "fresh" false) "vs_files" "old" true Cache.world = (Ok tt, w')
    ∧ Fs.isdir (tree w') (Path.join "vs_files" "old") = false
    ∧ sidecar_present "vs_files" "old" w' = false
    ∧ (∀ x n, In (x, n) Cache.entries → Fs.same_name x "old" = false →
              Fs.resolve (tree w') (Path.join "vs_files" x) = Some n)
    ∧ (∀ k, k ≠ sidecar_key (MakeTimestampsFileName "vs_files" "old") →
            sidecars w' !! k = sidecars Cache.world !! k)
    ∧ (now Cache.world <= now w')%Q
    ∧ (true = false ∨ chrome_headless (Cache.env "fresh" false) = true →
       now w' = now Cache.world).
Proof.
  apply (RemoveToolchain_removes (Cache.env "fresh" false) "vs_files" "old" true
           Cache.world 5 Cache.entries).
  - reflexivity.
  - vm_compute. reflexivity.
  - vm_compute. reflexivity.
Defined.

(** ** The countdown *)

Section Countdown.
Context (env : Env).

Local Abbreviation tick i :=
  [EvStdout (String "013" "Removing old toolchain in " +:+ pretty i
             +:+ "s... (Ctrl-C to cancel)");
   EvSleep 1].

Lemma countdown_run (l : list Z) : ∀ w,
  ∃ w', for_each (λ i : Z,
                    run print (String "013" "Removing old toolchain in " +:+ pretty i
                               +:+ "s... (Ctrl-C to cancel)") then time_sleep 1) l w
        = (Ok tt, w')
    ∧ tree w' = tree w ∧ sidecars w' = sidecars w
    ∧ data_json w' = data_json w ∧ json_copy w' = json_copy w
    ∧ (now w' == now w + inject_Z (Z.of_nat (length l)))%Q
    ∧ trace w' = trace w ++ flat_map (λ i, tick i) l.
Proof.
  induction l as [|i l IH]; intros w.
  - exists w. simpl flat_map. simpl for_each. rewrite List.app_nil_r.
    split; [done|]. split; [done|]. split; [done|]. split; [done|]. split; [done|].
    split; [|done]. change (inject_Z (Z.of_nat (length (@nil Z)))) with 0%Q. lra.
  - cbn [for_each length].
    set (w1 := with_now (now w + 1)%Q
                 (with_event (EvSleep 1)
                    (with_event (EvStdout (String "013" "Removing old toolchain in "
                                           +:+ pretty i +:+ "s... (Ctrl-C to cancel)")) w))).
    destruct (IH w1) as (w' & Hrun & Ht & Hs & Hd & Hj & Hn & Htr).
    exists w'. split.
    { erewrite (bind_ok _ _ w tt w1); [exact Hrun|reflexivity]. }
    split; [done|]. split; [done|]. split; [done|]. split; [done|]. split.
    + rewrite Hn. subst w1. simpl now.
      rewrite Nat2Z.inj_succ, <- Z.add_1_r, inject_Z_plus.
      change (inject_Z 1) with 1%Q. ring.
    + rewrite Htr. subst w1. simpl. by rewrite <- !List.app_assoc.
Qed.

End Countdown.


(** ** When the desired version is not installed *)

(** Run [main] up to the hashes of the installed versions, which do not
    hold the desired one. *)
Ltac main_until_hashes Hplat Hargs Hdir Hhashes Hnot :=
  unfold main;
  let Hex := fresh "Hex" in
  match type of Hhashes with
  | _ = (Ok ?hashes, _) =>
      match type of Hnot with
      | ¬ In ?desired _ =>
          assert (existsb (String.eqb desired) hashes = false) as Hex
            by (apply not_true_is_false;
                intros (? & ? & ->%String.eqb_eq)%existsb_exists; done)
      end
  end;
  rewrite Hargs;
  destruct Hplat as [->|[-> ->]]; cbn [negb];
  rewrite (bind_ok (ret tt) _ _ tt _) by reflexivity; cbv zeta;
  (erewrite (bind_ok (os_path_isdir _) _ _ _ _) by reflexivity);
  rewrite (bind_ok _ _ _ _ _ Hdir);
  rewrite (bind_ok _ _ _ _ _ Hhashes), Hex; cbn [negb].

(** X6: the desired hash is not installed and none of the three probes
    succeeds: [main] prints where to find the instructions and returns 1.
    It has made the directory of the versions if that was missing; nothing
    else of the tree, no sidecar and no [data.json] is touched. *)
Theorem main_without_access env desired_hash rest w wa wb current_hashes :
  (sys_platform env = Win32 ∨ sys_platform env = OtherPlatform ∧ opt_force env = true) →
  args env = desired_hash :: rest →
  (if negb (Fs.isdir (tree w) (target_dir_of env))
   then os_mkdir (target_dir_of env) else ret tt) w = (Ok tt, wa) →
  CalculateToolchainHashes (target_dir_of env) wa = (Ok current_hashes, wb) →
  ¬ In desired_hash current_hashes →
  svn_ls_ok env = false → git_remote_ok env = false →
  Str.upper (userdomain env) ≠ "GOOGLE" →
  gsutil_ls_ok env = false →
  ∃ w',
    main env w = (Ok 1%Z, w')
    ∧ tree w' = tree wa ∧ sidecars w' = sidecars w ∧ data_json w' = data_json w
    ∧ trace w'
      = trace wb
        ++ [EvNetwork "svn ls --non-interactive svn://svn.chromium.org/chrome-internal/trunk/src-internal/";
            EvNetwork "git -c core.askpass=true remote show https://chrome-internal.googlesource.com/chrome/src-internal/";
            EvNetwork "gsutil ls gs://chrome-wintoolchain/";
            EvStdout (String "010" (String "010" (String "010"
                        "Please follow the instructions at https://www.chromium.org/developers/how-tos/build-instructions-windows"))
                      +:+ String "010" (String "010" ""))].
Proof.
  intros Hplat Hargs Hdir Hhashes Hnot Hsvn Hgit Hdomain Hgs.
  pose proof (looks_CalculateToolchainHashes (target_dir_of env) wa) as Hlooked.
  rewrite Hhashes in Hlooked. simpl in Hlooked.
  apply looked_inv in Hlooked as (Ht & Hs & Hd & _).
  assert (sidecars wa = sidecars w ∧ data_json wa = data_json w) as [Hsa Hda].
  { destruct (negb (Fs.isdir (tree w) (target_dir_of env))); [|by injection Hdir as <-].
    revert Hdir. unfold os_mkdir. unfold_m.
    destruct (Fs.mkdir_at _ _ _); [|done]. by intros [= <-]. }
  apply String.eqb_neq in Hdomain.
  main_until_hashes Hplat Hargs Hdir Hhashes Hnot;
    unfold HaveSrcInternalAccess, LooksLikeGoogler, CanAccessToolchainBucket;
    unfold_m; rewrite Hsvn, Hgit, Hdomain, Hgs; simpl;
    (eexists; split; [reflexivity|]; simpl;
     split; [done|]; split; [congruence|]; split; [congruence|];
     by rewrite <- !List.app_assoc).
Qed.

(** A machine without any access. *)
Lemma main_without_access_witness :
  ∃ w',
    main (Access.offline "wanted") Cache.world = (Ok 1%Z, w')
    ∧ tree w' = tree Cache.world ∧ sidecars w' = sidecars Cache.world
    ∧ data_json w' = data_json Cache.world
    ∧ trace w'
      = trace (snd (CalculateToolchainHashes "vs_files" Cache.world))
        ++ [EvNetwork "svn ls --non-interactive svn://svn.chromium.org/chrome-internal/trunk/src-internal/";
            EvNetwork "git -c core.askpass=true remote show https://chrome-internal.googlesource.com/chrome/src-internal/";
            EvNetwork "gsutil ls gs://chrome-wintoolchain/";
            EvStdout (String "010" (String "010" (String "010"
                        "Please follow the instructions at https://www.chromium.org/developers/how-tos/build-instructions-windows"))
                      +:+ String "010" (String "010" ""))].
Proof.
  apply (main_without_access (Access.offline "wanted") "wanted" [] Cache.world Cache.world
           (snd (CalculateToolchainHashes "vs_files" Cache.world))
           ["0b9ef8c96f88a04999dacc019d594963ddc38616";
            "0b9ef8c96f88a04999dacc019d594963ddc38616";
            "0b9ef8c96f88a04999dacc019d594963ddc38616"]).
  - left. reflexivity.
  - reflexivity.
  - vm_compute. reflexivity.
  - vm_compute. reflexivity.
  - intros [H|[H|[H|[]]]]; discriminate H.
  - reflexivity.
  - reflexivity.
  - discriminate.
  - reflexivity.
Defined.

Lemma for_each_print lines w :
  for_each print lines w = (Ok tt, add_events (map EvStdout lines) w).
Proof.
  revert w. induction lines as [|line lines IH]; intros w; simpl.
  - by rewrite add_events_nil.
  - rewrite (bind_ok (print line) _ w tt (with_event (EvStdout line) w)) by reflexivity.
    rewrite IH, with_event_add, add_events_app. reflexivity.
Qed.

(** [RequestGsAuthentication] prints its lines and leaves with status 1. *)
Lemma RequestGsAuthentication_run {A} w :
  @RequestGsAuthentication A w
  = (Raised (SystemExit 1 ""), add_events (map EvStdout authentication_request) w).
Proof.
  unfold RequestGsAuthentication.
  by rewrite (bind_ok _ _ _ _ _ (for_each_print authentication_request w)).
Qed.



(** X8: the desired hash is not installed, the bucket can be listed, and
    [gsutil cp] of [<desired_hash>.zip] fails: [main] exits with the message
    [gsutil failed], which is status 1, before anything is extracted or
    [data.json] written.  But for the directory of the versions, made if
    missing, the tree is as it was, and so are the sidecars. *)
Theorem main_download_fails env desired_hash rest w wa wb current_hashes :
  (sys_platform env = Win32 ∨ sys_platform env = OtherPlatform ∧ opt_force env = true) →
  args env = desired_hash :: rest →
  (if negb (Fs.isdir (tree w) (target_dir_of env))
   then os_mkdir (target_dir_of env) else ret tt) w = (Ok tt, wa) →
  CalculateToolchainHashes (target_dir_of env) wa = (Ok current_hashes, wb) →
  ¬ In desired_hash current_hashes →
  gsutil_ls_ok env = true →
  use_local_zip env = false →
  forallb (λ c, negb (Str.is_sep c))
    (String.list_ascii_of_string (desired_hash +:+ ".zip")) = true →
  bucket env (desired_hash +:+ ".zip") = None →
  ∃ w',
    main env w = (Raised (SystemExit 1 "gsutil failed"), w')
    ∧ tree w' = tree wa ∧ sidecars w' = sidecars w ∧ data_json w' = data_json w
    ∧ List.last (trace w') (EvStdout "")
      = EvNetwork ("gsutil cp gs://chrome-wintoolchain/" +:+ desired_hash +:+ ".zip").
Proof.
  intros Hplat Hargs Hdir Hhashes Hnot Hgs Hlocal Hname Hbucket.
  pose proof (looks_CalculateToolchainHashes (target_dir_of env) wa) as Hlooked.
  rewrite Hhashes in Hlooked. simpl in Hlooked.
  apply looked_inv in Hlooked as (Ht & Hs & Hd & _).
  assert (sidecars wa = sidecars w ∧ data_json wa = data_json w) as [Hsa Hda].
  { destruct (negb (Fs.isdir (tree w) (target_dir_of env))); [|by injection Hdir as <-].
    revert Hdir. unfold os_mkdir. unfold_m.
    destruct (Fs.mkdir_at _ _ _); [|done]. by intros [= <-]. }
  main_until_hashes Hplat Hargs Hdir Hhashes Hnot;
    unfold HaveSrcInternalAccess, LooksLikeGoogler, CanAccessToolchainBucket,
      DoTreeMirror, DownloadUsingGsutil;
    unfold_m; rewrite Hgs, Hlocal, Hname, Hbucket;
    destruct (svn_ls_ok env), (git_remote_ok env),
      (String.eqb (Str.upper (userdomain env)) "GOOGLE");
    cbn [negb fst snd];
    (eexists; split; [reflexivity|];
     split; [done|]; split; [simpl; congruence|]; split; [simpl; congruence|];
     cbn [trace with_event]; apply List.last_last).
Qed.

(** The bucket of the witness can be listed and holds nothing. *)
Lemma main_download_fails_witness :
  ∃ w',
    main (Cache.env "wanted" true) Cache.world
    = (Raised (SystemExit 1 "gsutil failed"), w')
    ∧ tree w' = tree Cache.world ∧ sidecars w' = sidecars Cache.world
    ∧ data_json w' = data_json Cache.world
    ∧ List.last (trace w') (EvStdout "")
      = EvNetwork ("gsutil cp gs://chrome-wintoolchain/" +:+ "wanted" +:+ ".zip").
Proof.
  apply (main_download_fails (Cache.env "wanted" true) "wanted" [] Cache.world
           Cache.world (snd (CalculateToolchainHashes "vs_files" Cache.world))
           ["0b9ef8c96f88a04999dacc019d594963ddc38616";
            "0b9ef8c96f88a04999dacc019d594963ddc38616";
            "0b9ef8c96f88a04999dacc019d594963ddc38616"]).
  - left. reflexivity.
  - reflexivity.
  - vm_compute. reflexivity.
  - vm_compute. reflexivity.
  - intros [H|[H|[H|[]]]]; discriminate H.
  - reflexivity.
  - reflexivity.
  - vm_compute. reflexivity.
  - reflexivity.
Defined.

(** ** What [data.json] says *)

(** X9: the part of [main] that writes [data.json] has three outcomes.
    Without a readable [VS_VERSION] (an older package) it records version
    2013 and the [win8sdk] directory, and does not touch [VC].  With one,
    it records the stripped contents as the version and the [win_sdk]
    directory, after touching [VC].  With one but no [VC] to touch, the
    [OSError] of [os.utime] is not caught by [except IOError]: the run ends
    there, [data.json] unwritten. *)
Theorem write_data_json_outcomes env target_dir desired_hash w :
  let toolchain_target_dir := Path.join target_dir desired_hash in
  let version_file := Path.join toolchain_target_dir "VS_VERSION" in
  let vc_dir := Path.join toolchain_target_dir "VC" in
  let abs := abspath env toolchain_target_dir in
  let data vs_version win_sdk :=
    Metadata abs vs_version win_sdk win_sdk (Path.join abs "wdk")
      [Path.join abs "sys64"; Path.join abs "sys32"] in
  let r := write_data_json env target_dir desired_hash w in
  match Fs.read (tree w) version_file with
  | None =>
      fst r = Ok tt ∧ tree (snd r) = tree w
      ∧ data_json (snd r) = Some (data "2013" (Path.join abs "win8sdk"))
  | Some text =>
      if Fs.exists_ (tree w) vc_dir then
        fst r = Ok tt ∧ tree (snd r) = Fs.set_mtime vc_dir (now w) (tree w)
        ∧ data_json (snd r) = Some (data (Str.strip text) (Path.join abs "win_sdk"))
      else
        fst r = Raised (OSError vc_dir) ∧ tree (snd r) = tree w
        ∧ data_json (snd r) = data_json w
        ∧ trace (snd r) = trace w ++ [EvReadFile version_file]
  end.
Proof.
  cbv zeta. unfold write_data_json, except_IOError, read_file, os_utime. unfold_m.
  destruct (Fs.read (tree w) _) as [text|]; simpl; [|done].
  destruct (Fs.exists_ (tree w) _); simpl; done.
Qed.

(** The three outcomes on the sample packages. *)
Example write_data_json_samples :
  md_version <$> data_json (snd (write_data_json Mismatch.env "vs_files" "abc123"
                                   Mismatch.extracted)) = Some "2015"
  ∧ md_win_sdk <$> data_json (snd (write_data_json Mismatch.env "vs_files" "abc123"
                                     Mismatch.extracted_2013))
    = Some "C:\depot_tools\win_toolchain\vs_files\abc123\win8sdk"
  ∧ fst (write_data_json Mismatch.env "vs_files" "abc123"
           (Sample.world (Dir 0 [("vs_files", Dir 1 [("abc123",
              Dir 1 [("VS_VERSION", File 1 "2015")])])])))
    = Raised (OSError "vs_files\abc123\VC").
Proof. repeat split; vm_compute; reflexivity. Qed.

(** ** What the eviction leaves alone *)

Lemma same_json_refl w : same_json w w.
Proof. by split. Qed.

Lemma same_json_trans w1 w2 w3 : same_json w1 w2 → same_json w2 w3 → same_json w1 w3.
Proof. intros [? ?] [? ?]. split; congruence. Qed.

#[export] Hint Resolve same_json_refl same_json_trans : runs.

Lemma json_emit e : respects same_json (emit e).
Proof. intros w. by split. Qed.

Lemma json_modify f :
  (∀ w, data_json (f w) = data_json w) → (∀ w, json_copy (f w) = json_copy w) →
  respects same_json (modify f).
Proof. intros Hd Hj w. split; [apply Hd|apply Hj]. Qed.

#[export] Hint Resolve json_emit : runs.
#[export] Hint Extern 1 (respects same_json (modify _)) =>
  apply json_modify; reflexivity : runs.
#[export] Hint Extern 1 (respects same_json (print _)) => apply json_emit : runs.
#[export] Hint Extern 2 (respects same_json (os_utime _)) => unfold os_utime; runs : runs.
#[export] Hint Extern 2 (respects same_json (os_remove _)) => unfold os_remove; runs : runs.
#[export] Hint Extern 2 (respects same_json (time_sleep _)) => unfold time_sleep; runs : runs.
#[export] Hint Extern 2 (respects same_json (os_path_isdir _)) =>
  unfold os_path_isdir; runs : runs.
#[export] Hint Extern 2 (respects same_json (os_path_isfile _)) =>
  unfold os_path_isfile; runs : runs.
#[export] Hint Extern 2 (respects same_json (os_path_getmtime _)) =>
  unfold os_path_getmtime; runs : runs.
#[export] Hint Extern 2 (respects same_json (os_listdir _)) => unfold os_listdir; runs : runs.
#[export] Hint Extern 2 (respects same_json (sidecar_exists _)) =>
  unfold sidecar_exists; runs : runs.
#[export] Hint Extern 2 (respects same_json time_time) => unfold time_time; runs : runs.
#[export] Hint Extern 2 (respects same_json (RmDir _)) => unfold RmDir; runs : runs.

Section Json.
Context (env : Env).

Lemma json_DelayBeforeRemoving p : respects same_json (DelayBeforeRemoving env p).
Proof. unfold DelayBeforeRemoving. runs. Qed.

Hint Resolve json_DelayBeforeRemoving : runs.

Lemma json_RemoveToolchain root d delay :
  respects same_json (RemoveToolchain env root d delay).
Proof. unfold RemoveToolchain. runs. Qed.

Hint Resolve json_RemoveToolchain : runs.

Lemma json_sort_entries root names : ∀ vt dr,
  respects same_json (sort_entries root names vt dr).
Proof. induction names as [|d names IH]; intros vt dr; simpl; runs. Qed.

Lemma json_expire root v : respects same_json (expire env root v).
Proof. unfold expire. runs. Qed.

Hint Resolve json_sort_entries json_expire : runs.

Lemma json_RemoveUnusedToolchains root :
  respects same_json (RemoveUnusedToolchains env root).
Proof. unfold RemoveUnusedToolchains. runs. Qed.

End Json.




(** ** A version without its [VC] *)

Section ListingPrefix.
Context (root : string) (m : timestamp).

Local Abbreviation dirs := (List.filter (λ e : string * node, Fs.is_dir (snd e))).

(** The listing loop over the first entries of the root, the others
    still to come. *)
Lemma sort_entries_prefix mid : ∀ pre vt dr w rest,
  Fs.resolve (tree w) root = Some (Dir m (dirs pre ++ mid ++ rest)) →
  Wf.names_ok (map fst (pre ++ mid ++ rest)) = true →
  (∀ d n, In (d, n) mid → Fs.is_dir n = true →
          sidecar_present root d w = true → is_Some (touch_time n)) →
  ∃ w', (∀ names,
           sort_entries root (map fst mid ++ names) vt dr w
           = sort_entries root names (vt ++ versions root w mid)
               (dr ++ orphans root w mid) w')
        ∧ Fs.resolve (tree w') root = Some (Dir m (dirs (pre ++ mid) ++ rest))
        ∧ sidecars w' = sidecars w ∧ now w' = now w.
Proof.
  induction mid as [|[d n] mid IH]; intros pre vt dr w rest Hroot Hok Hvc.
  - exists w. simpl. rewrite !List.app_nil_r in *. by repeat split.
  - pose proof Hok as [Hvalid Hdist]%andb_true_iff.
    assert (Wf.valid_name d = true) as Hd.
    { rewrite forallb_forall in Hvalid. apply Hvalid.
      rewrite map_app. apply in_app_iff. right. by left. }
    simpl app in Hroot, Hok, Hdist.
    assert (Wf.distinct (map fst (dirs pre ++ (d, n) :: mid ++ rest)) = true) as Hdist'
      by by apply distinct_filter_front.
    assert (Fs.find_entry d (dirs pre ++ (d, n) :: mid ++ rest) = Some n) as Hfind.
    { apply (WalkFacts.find_entry_distinct _ d); [done| |apply FsFacts.same_name_refl].
      apply in_app_iff. right. by left. }
    assert (Wf.names_ok (map fst ((pre ++ [(d, n)]) ++ mid ++ rest)) = true) as Hok'
      by by rewrite <- List.app_assoc.
    assert (Fs.isdir (tree w) (Path.join root d) = Fs.is_dir n) as Hisdir.
    { unfold Fs.isdir. rewrite (resolve_entry root m _ _ _ Hroot Hd), Hfind.
      by destruct n. }
    destruct n as [mt data|md sub].
    + (* a plain file *)
      set (w1 := with_tree (Fs.remove (Path.join root d))
                   (with_event (EvRemoveFile (Path.join root d)) w)).
      assert (Fs.isfile (tree w) (Path.join root d) = true) as Hisfile.
      { unfold Fs.isfile. by rewrite (resolve_entry root m _ _ _ Hroot Hd), Hfind. }
      destruct (IH (pre ++ [(d, File mt data)]) vt dr w1 rest)
        as (w' & Hrun & Hroot' & Hs & Hn).
      * subst w1. simpl.
        rewrite (remove_entry root m _ _ _ Hroot Hd Hdist').
        rewrite filter_out_one by done.
        rewrite List.filter_app. simpl. by rewrite List.app_nil_r.
      * done.
      * intros x k Hx Hk Hsc. apply (Hvc x k); [by right|done|done].
      * exists w'. rewrite <- List.app_assoc in Hroot'. split; [|by repeat split].
        intros names. simpl map. simpl app. cbn [sort_entries].
        rewrite (bind_ok (os_path_isdir _) _ w false w)
          by (unfold os_path_isdir, gets; by rewrite Hisdir).
        rewrite (bind_ok (os_path_isfile _) _ w true w)
          by (unfold os_path_isfile, gets; by rewrite Hisfile).
        rewrite (bind_ok (os_remove _) _ w tt w1) by by apply os_remove_run.
        rewrite Hrun.
        by rewrite (versions_ext root mid w w1), (orphans_ext root mid w w1).
    + (* a directory *)
      destruct (sidecar_present root d w) eqn:Hsc.
      * destruct (Hvc d (Dir md sub)) as [vc Hvct]; [by left|done|done|].
        unfold touch_time in Hvct.
        destruct (Fs.step (Dir md sub) "VC") as [vcn|] eqn:Hstep; [|done].
        simpl in Hvct. injection Hvct as <-.
        destruct (IH (pre ++ [(d, Dir md sub)]) (vt ++ [(Fs.mtime_of vcn, d)]) dr w rest)
          as (w' & Hrun & Hroot' & Hs & Hn).
        -- rewrite List.filter_app. simpl. by rewrite <- List.app_assoc.
        -- done.
        -- intros x k Hx. apply (Hvc x k). by right.
        -- exists w'. rewrite <- List.app_assoc in Hroot'.
           split; [|split; [exact Hroot'|by split]].
           intros names. simpl map. simpl app. cbn [sort_entries].
           rewrite (bind_ok (os_path_isdir _) _ w true w)
             by (unfold os_path_isdir, gets; by rewrite Hisdir).
           unfold sidecar_exists at 1.
           rewrite (bind_ok (gets _) _ w true w)
             by (unfold gets; f_equal; f_equal; exact Hsc).
           cbn [negb].
           rewrite (bind_ok (os_path_getmtime _) _ w (Fs.mtime_of vcn) w).
           2:{ apply os_path_getmtime_run. unfold Fs.getmtime.
               rewrite (resolve_entry_below root m _ _ d "VC" Hroot Hd eq_refl), Hfind.
               simpl. by rewrite Hstep. }
           rewrite Hrun. f_equal.
           ++ unfold versions. simpl. rewrite Hsc. unfold touch_time. rewrite Hstep.
              simpl. by rewrite <- List.app_assoc.
           ++ unfold orphans. simpl. by rewrite Hsc.
      * destruct (IH (pre ++ [(d, Dir md sub)]) vt (dr ++ [d]) w rest)
          as (w' & Hrun & Hroot' & Hs & Hn).
        -- rewrite List.filter_app. simpl. by rewrite <- List.app_assoc.
        -- done.
        -- intros x k Hx. apply (Hvc x k). by right.
        -- exists w'. rewrite <- List.app_assoc in Hroot'.
           split; [|split; [exact Hroot'|by split]].
           intros names. simpl map. simpl app. cbn [sort_entries].
           rewrite (bind_ok (os_path_isdir _) _ w true w)
             by (unfold os_path_isdir, gets; by rewrite Hisdir).
           unfold sidecar_exists at 1.
           rewrite (bind_ok (gets _) _ w false w)
             by (unfold gets; f_equal; f_equal; exact Hsc).
           cbn [negb].
           rewrite Hrun. f_equal.
           ++ unfold versions. simpl. by rewrite Hsc.
           ++ unfold orphans. simpl. rewrite Hsc. simpl. by rewrite <- List.app_assoc.
Qed.

End ListingPrefix.

(** X12: a directory of the root that has a sidecar and no [VC] makes
    [RemoveUnusedToolchains] raise the [OSError] of [os.path.getmtime]
    while it is still listing.  By then the plain files listed before that
    directory are removed; no directory and no sidecar is, not even those
    without a sidecar or long unused. *)
Theorem eviction_stops_at_missing_VC env root w m pre d n post :
  Fs.resolve (tree w) root = Some (Dir m (pre ++ (d, n) :: post)) →
  Wf.names_ok (map fst (pre ++ (d, n) :: post)) = true →
  (∀ x k, In (x, k) pre → Fs.is_dir k = true → sidecar_present root x w = true →
          is_Some (touch_time k)) →
  Fs.is_dir n = true →
  sidecar_present root d w = true →
  touch_time n = None →
  ∃ w',
    RemoveUnusedToolchains env root w
    = (Raised (OSError (Path.join (Path.join root d) "VC")), w')
    ∧ Fs.resolve (tree w') root
      = Some (Dir m (List.filter (λ e, Fs.is_dir (snd e)) pre ++ (d, n) :: post))
    ∧ sidecars w' = sidecars w.
Proof.
  intros Hroot Hok Hvc Hdir Hsc Hnovc.
  pose proof Hok as [Hvalid Hdist]%andb_true_iff. rewrite forallb_forall in Hvalid.
  assert (Wf.valid_name d = true) as Hd.
  { apply Hvalid. rewrite map_app. apply in_app_iff. right. by left. }
  destruct (sort_entries_prefix root m pre [] [] [] w ((d, n) :: post))
    as (w1 & Hrun & Hroot1 & Hs1 & _); [done|done|done|].
  simpl in Hroot1.
  assert (Wf.distinct (map fst (List.filter (λ e, Fs.is_dir (snd e)) pre ++ (d, n) :: post))
          = true) as Hdist1 by by apply distinct_filter_front.
  assert (Fs.find_entry d (List.filter (λ e, Fs.is_dir (snd e)) pre ++ (d, n) :: post)
          = Some n) as Hfind.
  { apply (WalkFacts.find_entry_distinct _ d); [done| |apply FsFacts.same_name_refl].
    apply in_app_iff. right. by left. }
  exists w1. split; [|by split].
  unfold RemoveUnusedToolchains.
  rewrite (bind_ok (os_listdir root) _ w (map fst (pre ++ (d, n) :: post)) w).
  2:{ unfold os_listdir. unfold_m. unfold Fs.listdir. by rewrite Hroot. }
  rewrite map_app. simpl map.
  unfold bind at 1. rewrite Hrun. cbn [sort_entries app].
  rewrite (bind_ok (os_path_isdir _) _ w1 true w1).
  2:{ unfold os_path_isdir, gets. unfold Fs.isdir.
      rewrite (resolve_entry root m _ _ _ Hroot1 Hd), Hfind. by destruct n. }
  unfold sidecar_exists at 1.
  rewrite (bind_ok (gets _) _ w1 true w1).
  2:{ unfold gets. f_equal. f_equal. rewrite <- Hsc. unfold sidecar_present.
      by rewrite Hs1. }
  cbn [negb]. unfold os_path_getmtime. unfold bind at 1. unfold bind at 1.
  unfold gets at 1. unfold Fs.getmtime.
  rewrite (resolve_entry_below root m _ _ d "VC" Hroot1 Hd eq_refl), Hfind.
  simpl. unfold touch_time in Hnovc.
  by destruct (Fs.step n "VC").
Qed.

Lemma eviction_stops_at_missing_VC_witness :
  ∃ w',
    RemoveUnusedToolchains (Cache.env "old" true) "vs_files" Broken.world
    = (Raised (OSError (Path.join (Path.join "vs_files" "broken") "VC")), w')
    ∧ Fs.resolve (tree w') "vs_files"
      = Some (Dir 5 (List.filter (λ e, Fs.is_dir (snd e)) Broken.before
                     ++ ("broken", Broken.broken) :: Broken.after))
    ∧ sidecars w' = sidecars Broken.world.
Proof.
  apply (eviction_stops_at_missing_VC (Cache.env "old" true) "vs_files" Broken.world 5
           Broken.before "broken" Broken.broken Broken.after).
  - reflexivity.
  - vm_compute. reflexivity.
  - intros x k [H|[H|[]]] Hdir _; injection H as <- <-;
      first [discriminate Hdir | vm_compute; eexists; reflexivity].
  - reflexivity.
  - vm_compute. reflexivity.
  - reflexivity.
Defined.

(** ** The order of the file list *)

Module SortFacts.
Import Str.

Lemma leb_cases a b : String.leb a b = true ↔ a = b ∨ OrderedTypeEx.String_as_OT.lt a b.
Proof.
  unfold String.leb. rewrite <- OrderedTypeEx.String_as_OT.cmp_eq, <- OrderedTypeEx.String_as_OT.cmp_lt.
  unfold OrderedTypeEx.String_as_OT.cmp. destruct (String.compare a b); split; try done.
  - by left.
  - by right.
  - by intros [?|?].
Qed.

Lemma leb_trans a b c :
  String.leb a b = true → String.leb b c = true → String.leb a c = true.
Proof.
  rewrite !leb_cases. intros [->|Hab] [->|Hbc]; auto.
  right. by apply (OrderedTypeEx.String_as_OT.lt_trans a b c).
Qed.

Lemma leb_false a b : String.leb a b = false → String.leb b a = true.
Proof. intros H. destruct (String.leb_total a b); congruence. Qed.

Section Key.
Context (key : string → string).

(** [x] goes before [y] in the order of the keys. *)
Local Abbreviation before := (λ x y : string, String.leb (key x) (key y) = true).

Lemma insert_sorted_perm x l : insert_sorted key x l ≡ₚ x :: l.
Proof.
  induction l as [|y l IH]; simpl; [done|].
  destruct (String.leb (key x) (key y)); [done|].
  rewrite IH. apply Permutation_swap.
Qed.

Lemma sorted_perm l : sorted key l ≡ₚ l.
Proof.
  induction l as [|x l IH]; [done|]. unfold sorted in *. simpl.
  by rewrite insert_sorted_perm, IH.
Qed.

Lemma insert_sorted_ordered x l :
  StronglySorted before l → StronglySorted before (insert_sorted key x l).
Proof.
  induction l as [|y l IH]; intros Hl; simpl.
  - by repeat constructor.
  - inversion Hl as [|? ? Hl' Hy]; subst.
    destruct (String.leb (key x) (key y)) eqn:Hxy.
    + constructor; [done|]. constructor; [done|].
      eapply Forall_impl; [exact Hy|]. intros z Hz. simpl in *.
      by apply (leb_trans _ (key y)).
    + constructor; [by apply IH|].
      apply Forall_forall. intros z Hz%StrFacts.insert_sorted_elem.
      destruct Hz as [->|Hz]; [by apply leb_false|].
      rewrite Forall_forall in Hy. by apply Hy.
Qed.

Lemma sorted_ordered l : StronglySorted before (sorted key l).
Proof.
  induction l as [|x l IH]; [constructor|]. unfold sorted in *. simpl.
  by apply insert_sorted_ordered.
Qed.

(** Two lists with the same elements sort to the same list, when no two
    different elements share a key. *)
Lemma sorted_unique l1 l2 :
  l1 ≡ₚ l2 →
  (∀ x y, x ∈ l1 → y ∈ l1 → key x = key y → x = y) →
  sorted key l1 = sorted key l2.
Proof.
  intros Hperm Hinj.
  apply (StronglySorted_unique_strong before).
  - intros x y Hx%StrFacts.sorted_elem Hy%StrFacts.sorted_elem Hxy Hyx. simpl in *.
    rewrite <- Hperm in Hy. apply Hinj; [done|done|]. by apply String.leb_antisym.
  - apply sorted_ordered.
  - apply sorted_ordered.
  - by rewrite !sorted_perm.
Qed.

End Key.

Lemma filter_perm {A} (f : A → bool) l1 l2 :
  l1 ≡ₚ l2 → List.filter f l1 ≡ₚ List.filter f l2.
Proof.
  induction 1 as [|x l1 l2 _ IH|x y l|l1 l2 l3 _ IH1 _ IH2]; simpl.
  - done.
  - destruct (f x); by rewrite IH.
  - destruct (f x), (f y); try done. apply Permutation_swap.
  - by rewrite IH1.
Qed.

End SortFacts.

(** X13: the list [GetFileList] returns holds the lower-cased paths of the
    files walked, those with the crash-report directory in their path left
    out, each as often as it was walked, in ascending order of the key,
    which is the path with every slash turned into a backslash. *)
Theorem GetFileList_sorted root w :
  GetFileList_accepts root = true →
  ∃ file_list,
    GetFileList root w = (Ok file_list, w)
    ∧ file_list ≡ₚ map Str.lower
                     (List.filter not_crash_report (walk_paths (Fs.os_walk (tree w) root)))
    ∧ StronglySorted (λ x y, String.leb (Str.backslashes x) (Str.backslashes y) = true)
        file_list.
Proof.
  intros Hacc. rewrite GetFileList_run, Hacc. eexists. split; [reflexivity|].
  unfold file_list_of. split; [apply SortFacts.sorted_perm|apply SortFacts.sorted_ordered].
Qed.

Lemma GetFileList_sorted_witness :
  ∃ file_list,
    GetFileList "vs_files\abc" (Sample.world (Sample.cwd "abc"))
    = (Ok file_list, Sample.world (Sample.cwd "abc"))
    ∧ file_list ≡ₚ map Str.lower
                     (List.filter not_crash_report
                        (walk_paths (Fs.os_walk (tree (Sample.world (Sample.cwd "abc")))
                                       "vs_files\abc")))
    ∧ StronglySorted (λ x y, String.leb (Str.backslashes x) (Str.backslashes y) = true)
        file_list.
Proof.
  apply (GetFileList_sorted "vs_files\abc" (Sample.world (Sample.cwd "abc"))).
  vm_compute. reflexivity.
Defined.

(** X14: the list does not depend on the order in which the directories
    are walked.  Two trees whose walks give the same paths, in any order,
    give the same list, as long as no two different lower-cased paths
    differ in the kind of their slashes only. *)
Theorem GetFileList_order_independent root w1 w2 :
  walk_paths (Fs.os_walk (tree w1) root) ≡ₚ walk_paths (Fs.os_walk (tree w2) root) →
  (∀ x y, x ∈ walk_paths (Fs.os_walk (tree w1) root) →
          y ∈ walk_paths (Fs.os_walk (tree w1) root) →
          Str.backslashes (Str.lower x) = Str.backslashes (Str.lower y) →
          Str.lower x = Str.lower y) →
  fst (GetFileList root w1) = fst (GetFileList root w2).
Proof.
  intros Hperm Hinj. rewrite !GetFileList_run.
  destruct (GetFileList_accepts root); [|done]. simpl. f_equal.
  unfold file_list_of. apply SortFacts.sorted_unique.
  - apply fmap_Permutation. by apply SortFacts.filter_perm.
  - intros x y (x' & -> & Hx)%list_elem_of_fmap (y' & -> & Hy)%list_elem_of_fmap.
    apply list_elem_of_In, List.filter_In in Hx as [Hx%list_elem_of_In _].
    apply list_elem_of_In, List.filter_In in Hy as [Hy%list_elem_of_In _].
    by apply Hinj.
Qed.

(** The sample toolchain with its entries listed the other way round. *)
Lemma GetFileList_order_independent_witness :
  fst (GetFileList "vs_files\abc" (Sample.world (Sample.cwd "abc")))
  = fst (GetFileList "vs_files\abc"
           (Sample.world
              (Dir 0 [("vs_files", Dir 5 [("abc",
                 Dir 100 [("win_sdk", Dir 60 [("Include.h", File 11 "#pragma once")]);
                          ("VC", Sample.vc);
                          ("VS_VERSION", File 10 "2015")])])]))).
Proof.
  apply (GetFileList_order_independent "vs_files\abc").
  - vm_compute. apply perm_skip, perm_swap.
  - intros x y Hx%list_elem_of_In Hy%list_elem_of_In.
    vm_compute in Hx, Hy.
    destruct Hx as [<-|[<-|[<-|[]]]], Hy as [<-|[<-|[<-|[]]]];
      vm_compute; first [reflexivity | discriminate].
Defined.

(** ** The version in use and the eviction *)

(** The copy of [data.json] to the [--output-json] file leaves the tree,
    the sidecars, the clock and [data.json] alone. *)
Lemma copy_json_run env target_dir w :
  ∃ w', (if truthy (opt_output_json env)
         then run emit (EvCopyFile (Path.join (Path.join target_dir "..") "data.json")
                          (opt_output_json env)) then
              let* d := gets data_json in
              modify (with_json_copy ((λ x, (opt_output_json env, x)) <$> d))
         else ret tt) w = (Ok tt, w')
        ∧ tree w' = tree w ∧ sidecars w' = sidecars w ∧ now w' = now w
        ∧ data_json w' = data_json w.
Proof. destruct (truthy (opt_output_json env)); eexists; (split; [reflexivity|done]). Qed.

(** X15: a version without a readable [VS_VERSION] (the older layout) is
    not touched when it is used.  When its [VC] is older than the expiry
    time, a run of [main] that finds it installed writes [data.json] for
    it, removes it with its sidecar, and returns 0: [data.json] names a
    directory that is gone. *)
Theorem unversioned_in_use_is_evicted env target_dir desired_hash w m es n last_use :
  Fs.resolve (tree w) target_dir = Some (Dir m es) →
  Wf.names_ok (map fst es) = true →
  (∀ d k, In (d, k) es → Fs.is_dir k = true → sidecar_present target_dir d w = true →
          is_Some (touch_time k)) →
  In (desired_hash, n) es →
  Fs.is_dir n = true →
  sidecar_present target_dir desired_hash w = true →
  Fs.read (tree w) (Path.join (Path.join target_dir desired_hash) "VS_VERSION") = None →
  touch_time n = Some last_use →
  expired (now w) last_use →
  ∃ w' md,
    main_report env target_dir desired_hash false w = (Ok 0%Z, w')
    ∧ data_json w' = Some md
    ∧ md_path md = abspath env (Path.join target_dir desired_hash)
    ∧ md_version md = "2013"
    ∧ Fs.resolve (tree w') (Path.join target_dir desired_hash) = None
    ∧ sidecar_present target_dir desired_hash w' = false.
Proof.
  intros Hroot Hok Hvc Hin Hdir Hsc Hread Htouch Hexp.
  assert (∃ w1 md, write_data_json env target_dir desired_hash w = (Ok tt, w1)
                   ∧ tree w1 = tree w ∧ data_json w1 = Some md
                   ∧ md_path md = abspath env (Path.join target_dir desired_hash)
                   ∧ md_version md = "2013") as (w1 & md & Hrun & Ht & Hd & Hpath & Hver).
  { unfold write_data_json, except_IOError, read_file, os_utime. unfold_m.
    rewrite Hread. simpl. eexists _, _. by repeat split. }
  destruct (write_data_json_run env target_dir desired_hash w w1 Hrun) as (Hs & Hn & _).
  unfold main_report. rewrite (bind_ok _ _ _ _ _ Hrun).
  unfold verify_and_clean.
  rewrite (bind_ok (ret true) _ w1 true w1) by reflexivity. cbn [negb].
  destruct (copy_json_run env target_dir w1) as (w2 & Hcopy & Ht2 & Hs2 & Hn2 & Hd2).
  rewrite (bind_ok _ _ _ _ _ Hcopy).
  destruct (RemoveUnusedToolchains_run env target_dir m w2 es) as (w' & Hev & Hle & _ & Hall).
  { by rewrite Ht2, Ht. }
  { done. }
  { intros d k Hk Hkd Hksc. apply (Hvc d k); [done|done|].
    rewrite <- Hksc. symmetry. apply sidecar_present_ext. congruence. }
  rewrite (bind_ok _ _ _ _ _ Hev).
  destruct (json_RemoveUnusedToolchains env target_dir w2) as [Hd' _].
  rewrite Hev in Hd'. simpl in Hd'.
  destruct (Hall desired_hash n last_use Hin Hdir) as (t & Ht1 & _ & Hgone & _).
  { rewrite <- Hsc. apply sidecar_present_ext. congruence. }
  { done. }
  destruct Hgone as [Hnone Hnosc].
  { unfold expired in *. rewrite Hn2, Hn in Ht1. lra. }
  exists w', md. split; [reflexivity|].
  split; [by rewrite Hd', Hd2, Hd|]. by repeat split.
Qed.

Lemma unversioned_in_use_is_evicted_witness :
  ∃ w' md,
    main_report (Cache.env "legacy" true) "vs2013_files" "legacy" false Legacy.world
    = (Ok 0%Z, w')
    ∧ data_json w' = Some md
    ∧ md_path md = abspath (Cache.env "legacy" true) (Path.join "vs2013_files" "legacy")
    ∧ md_version md = "2013"
    ∧ Fs.resolve (tree w') (Path.join "vs2013_files" "legacy") = None
    ∧ sidecar_present "vs2013_files" "legacy" w' = false.
Proof.
  apply (unversioned_in_use_is_evicted (Cache.env "legacy" true) "vs2013_files" "legacy"
           Legacy.world 5 [("legacy", Legacy.package)] Legacy.package (9 * Cache.day)).
  - reflexivity.
  - vm_compute. reflexivity.
  - intros d k [H|[]] _ _. injection H as <- <-. vm_compute. eexists. reflexivity.
  - left. reflexivity.
  - reflexivity.
  - vm_compute. reflexivity.
  - reflexivity.
  - reflexivity.
  - vm_compute. reflexivity.
Defined.

(** X16: on a bot ([CHROME_HEADLESS] set) the version that a run of
    [main] finds installed and uses, one with a [VS_VERSION], survives the
    eviction at the end of that run, however long ago its [VC] was touched
    before: the run has just touched it.  The directory is left as the
    touch made it, and its sidecar stays. *)
Theorem version_in_use_survives env target_dir desired_hash w m es n text :
  Fs.resolve (tree w) target_dir = Some (Dir m es) →
  Wf.names_ok (map fst es) = true →
  (∀ d k, In (d, k) es → Fs.is_dir k = true → sidecar_present target_dir d w = true →
          is_Some (touch_time k)) →
  In (desired_hash, n) es →
  Fs.is_dir n = true →
  sidecar_present target_dir desired_hash w = true →
  Fs.read (tree w) (Path.join (Path.join target_dir desired_hash) "VS_VERSION") = Some text →
  chrome_headless env = true →
  ∃ w',
    main_report env target_dir desired_hash false w = (Ok 0%Z, w')
    ∧ Fs.resolve (tree w') (Path.join target_dir desired_hash)
      = Some (Listing.retimed ["VC"] (now w) n)
    ∧ sidecar_present target_dir desired_hash w' = true
    ∧ md_version <$> data_json w' = Some (Str.strip text).
Proof.
  intros Hroot Hok Hvc Hin Hdir Hsc Hread Hhead.
  pose proof Hok as [Hvalid Hdist]%andb_true_iff. rewrite forallb_forall in Hvalid.
  assert (Wf.valid_name desired_hash = true) as Hd.
  { apply Hvalid, in_map_iff. by exists (desired_hash, n). }
  destruct (Hvc _ _ Hin Hdir Hsc) as [last_use Hlast].
  assert (Fs.find_entry desired_hash es = Some n) as Hfind.
  { apply (WalkFacts.find_entry_distinct es desired_hash); [done|done|].
    apply FsFacts.same_name_refl. }
  assert (Fs.exists_ (tree w) (Path.join (Path.join target_dir desired_hash) "VC") = true)
    as Hex.
  { unfold Fs.exists_.
    rewrite (resolve_entry_below target_dir m _ _ desired_hash "VC" Hroot Hd eq_refl), Hfind.
    simpl. unfold touch_time in Hlast. by destruct (Fs.step n "VC"). }
  assert (∃ w1, write_data_json env target_dir desired_hash w = (Ok tt, w1)
                ∧ tree w1 = Fs.set_mtime (Path.join (Path.join target_dir desired_hash) "VC")
                              (now w) (tree w)
                ∧ sidecars w1 = sidecars w ∧ now w1 = now w
                ∧ md_version <$> data_json w1 = Some (Str.strip text))
    as (w1 & Hrun & Ht & Hs & Hn & Hd1).
  { unfold write_data_json, except_IOError, read_file, os_utime. unfold_m.
    rewrite Hread. simpl. rewrite Hex. simpl. eexists. by repeat split. }
  unfold main_report. rewrite (bind_ok _ _ _ _ _ Hrun).
  unfold verify_and_clean.
  rewrite (bind_ok (ret true) _ w1 true w1) by reflexivity. cbn [negb].
  destruct (copy_json_run env target_dir w1) as (w2 & Hcopy & Ht2 & Hs2 & Hn2 & Hd2).
  rewrite (bind_ok _ _ _ _ _ Hcopy).
  assert (∀ d, sidecar_present target_dir d w2 = sidecar_present target_dir d w) as Hsame.
  { intros d. apply sidecar_present_ext. congruence. }
  destruct (RemoveUnusedToolchains_run env target_dir m w2
              (Fs.alter_entry desired_hash
                 (λ x, Some (Listing.retimed ["VC"] (now w) x)) es))
    as (w' & Hev & Hle & Hclock & Hall).
  { rewrite Ht2, Ht. by apply set_mtime_entry. }
  { by rewrite RetimeFacts.alter_entry_names. }
  { intros d k Hk Hkd Hksc. rewrite Hsame in Hksc.
    apply alter_entry_inv in Hk as [Hk|(k0 & Hk & ->)].
    - by apply (Hvc d k).
    - rewrite is_dir_retimed in Hkd.
      rewrite touch_time_retimed; [by eexists|]. by apply (Hvc d k0). }
  rewrite (bind_ok _ _ _ _ _ Hev).
  destruct (json_RemoveUnusedToolchains env target_dir w2) as [Hd' _].
  rewrite Hev in Hd'. simpl in Hd'.
  destruct (Hall desired_hash (Listing.retimed ["VC"] (now w) n) (now w))
    as (t & Ht1 & Ht2' & _ & Hstay).
  { by apply alter_entry_changed. }
  { by rewrite is_dir_retimed. }
  { by rewrite Hsame. }
  { apply touch_time_retimed. by eexists. }
  destruct Hstay as [Hres Hkey].
  { unfold expired, toolchain_expiration_time.
    rewrite (Hclock Hhead), Hn2, Hn in Ht2'. lra. }
  exists w'. split; [reflexivity|]. split; [done|]. split.
  - unfold sidecar_present in *. by rewrite Hkey, Hs2, Hs.
  - by rewrite Hd', Hd2.
Qed.

(** The version last used 31 days before is used again. *)
Lemma version_in_use_survives_witness :
  ∃ w',
    main_report (Cache.env "old" true) "vs_files" "old" false Cache.world = (Ok 0%Z, w')
    ∧ Fs.resolve (tree w') (Path.join "vs_files" "old")
      = Some (Listing.retimed ["VC"] (now Cache.world) (Cache.version (9 * Cache.day)))
    ∧ sidecar_present "vs_files" "old" w' = true
    ∧ md_version <$> data_json w' = Some (Str.strip "2015").
Proof.
  apply (version_in_use_survives (Cache.env "old" true) "vs_files" "old" Cache.world 5
           Cache.entries (Cache.version (9 * Cache.day)) "2015").
  - reflexivity.
  - vm_compute. reflexivity.
  - intros d k [H|[H|[H|[H|[]]]]] Hdir _; injection H as <- <-;
      first [discriminate Hdir | vm_compute; eexists; reflexivity].
  - right. right. left. reflexivity.
  - reflexivity.
  - vm_compute. reflexivity.
  - vm_compute. reflexivity.
  - reflexivity.
Defined.
